(** * mettle: durable multi-transport client connection (util/network_client.c)

    A shallow embedding of [src/util/network_client.c] and the properties of
    its server registry, endpoint selector, reconnect scheduler and connection
    state machine.

    Conventions of the embedding.
    - C [int] fields are integers in [Z]; every value the code computes stays
      far below [INT_MAX] (a count is bounded by an array size or is what
      uninitialised memory holds, taken below [INT_MAX] as well), so signed
      arithmetic is written without wrap-around.
    - A pointer that the code tests against [NULL] is an [option]; the block
      it points to is a [list] holding one element per allocated cell.
    - A function in which the C program can read outside an allocated block
      or through [NULL] returns an [option]: [None] is undefined behaviour.
    - Memory that [reallocarray] hands out is not initialised.  What a new
      server slot holds is an input of the embedded function, like the
      values the libraries return: a server record, whose pointer fields
      are, like every pointer, [NULL] or a block.
    - Every call into libuv, libtls or a user callback is recorded as an
      [event]; the values those libraries hand back (status codes, handles)
      are arguments of the embedded function.
    - C strings are [string]s; the code never looks at a NUL inside one. *)

From Stdlib Require Import ZArith List String Ascii Bool Lia Permutation.
Import ListNotations.
Open Scope Z_scope.

(** ** Small helpers shared by the whole development *)

Notation "x <- a ;; b" := (match a with Some x => b | None => None end)
  (at level 61, a at next level, right associativity).
Notation "' pat <- a ;; b" := (match a with Some pat => b | None => None end)
  (at level 61, pat pattern, a at next level, right associativity).

(** [a[i]] for a C [int] index; [None] outside the block. *)
Definition zth {A} (l : list A) (i : Z) : option A :=
  if i <? 0 then None else nth_error l (Z.to_nat i).

(** [a[n] = x] inside the block. *)
Fixpoint store {A} (l : list A) (n : nat) (x : A) : list A :=
  match l, n with
  | [], _ => []
  | _ :: t, O => x :: t
  | h :: t, S n' => h :: store t n' x
  end.

(** The allocator: the outcomes of the coming allocation calls, in order
    ([false] is a failed allocation); once the list is used up every call
    succeeds. *)
Definition heap := list bool.

Definition alloc (h : heap) : bool * heap :=
  match h with
  | [] => (true, [])
  | b :: h' => (b, h')
  end.

(** [reallocarray(old, n, size)] when it succeeds: a block of [n] cells that
    keeps the cells of the old block.  The cells the old block did not have
    are not initialised: they hold [junk], whatever was in that memory. *)
Definition reallocarray {A} (junk : A) (old : option (list A)) (n : Z) : list A :=
  firstn (Z.to_nat n)
         (match old with Some l => l | None => [] end ++ repeat junk (Z.to_nat n)).

(** ** Data model *)

Inductive network_client_proto :=
| network_client_proto_udp
| network_client_proto_tcp
| network_client_proto_tls.

Definition proto_eqb (a b : network_client_proto) : bool :=
  match a, b with
  | network_client_proto_udp, network_client_proto_udp
  | network_client_proto_tcp, network_client_proto_tcp
  | network_client_proto_tls, network_client_proto_tls => true
  | _, _ => false
  end.

Record network_client_server := mk_server {
  uri : option string;
  proto : network_client_proto;
  host : option string;
  services : option (list string);
  num_services : Z
}.

(** What [memset(srv, 0, sizeof( *srv))] leaves: enumerator 0 is udp. *)
Definition server_zero : network_client_server :=
  mk_server None network_client_proto_udp None None 0.

Inductive conn_state :=
| network_client_connected
| network_client_resolving
| network_client_connecting
| network_client_closed.

Definition conn_state_eqb (a b : conn_state) : bool :=
  match a, b with
  | network_client_connected, network_client_connected
  | network_client_resolving, network_client_resolving
  | network_client_connecting, network_client_connecting
  | network_client_closed, network_client_closed => true
  | _, _ => false
  end.

(** [struct network_client] without the libuv handles ([loop],
    [connect_timer], [conn]) and the unused [connect_time_s]; what the
    handles hold is kept with the loop's side, in [world] below.  A callback
    slot is the function pointer ([None] is [NULL]) and its argument. *)
Record network_client := mk_client {
  servers : option (list network_client_server);
  num_servers : Z;
  curr_server : Z;
  curr_service : Z;
  addrinfo : option Z;
  tls : option Z;
  tls_state : Z;
  state : conn_state;
  read_cb : option Z;
  read_cb_arg : Z;
  connect_cb : option Z;
  connect_cb_arg : Z;
  close_cb : option Z;
  close_cb_arg : Z
}.

Definition set_servers v (nc : network_client) :=
  mk_client v (num_servers nc) (curr_server nc) (curr_service nc) (addrinfo nc)
            (tls nc) (tls_state nc) (state nc) (read_cb nc) (read_cb_arg nc)
            (connect_cb nc) (connect_cb_arg nc) (close_cb nc) (close_cb_arg nc).
Definition set_num_servers v (nc : network_client) :=
  mk_client (servers nc) v (curr_server nc) (curr_service nc) (addrinfo nc)
            (tls nc) (tls_state nc) (state nc) (read_cb nc) (read_cb_arg nc)
            (connect_cb nc) (connect_cb_arg nc) (close_cb nc) (close_cb_arg nc).
Definition set_curr_server v (nc : network_client) :=
  mk_client (servers nc) (num_servers nc) v (curr_service nc) (addrinfo nc)
            (tls nc) (tls_state nc) (state nc) (read_cb nc) (read_cb_arg nc)
            (connect_cb nc) (connect_cb_arg nc) (close_cb nc) (close_cb_arg nc).
Definition set_curr_service v (nc : network_client) :=
  mk_client (servers nc) (num_servers nc) (curr_server nc) v (addrinfo nc)
            (tls nc) (tls_state nc) (state nc) (read_cb nc) (read_cb_arg nc)
            (connect_cb nc) (connect_cb_arg nc) (close_cb nc) (close_cb_arg nc).
Definition set_addrinfo v (nc : network_client) :=
  mk_client (servers nc) (num_servers nc) (curr_server nc) (curr_service nc) v
            (tls nc) (tls_state nc) (state nc) (read_cb nc) (read_cb_arg nc)
            (connect_cb nc) (connect_cb_arg nc) (close_cb nc) (close_cb_arg nc).
Definition set_tls v (nc : network_client) :=
  mk_client (servers nc) (num_servers nc) (curr_server nc) (curr_service nc)
            (addrinfo nc) v (tls_state nc) (state nc) (read_cb nc)
            (read_cb_arg nc) (connect_cb nc) (connect_cb_arg nc) (close_cb nc)
            (close_cb_arg nc).
Definition set_tls_state v (nc : network_client) :=
  mk_client (servers nc) (num_servers nc) (curr_server nc) (curr_service nc)
            (addrinfo nc) (tls nc) v (state nc) (read_cb nc) (read_cb_arg nc)
            (connect_cb nc) (connect_cb_arg nc) (close_cb nc) (close_cb_arg nc).
Definition set_state v (nc : network_client) :=
  mk_client (servers nc) (num_servers nc) (curr_server nc) (curr_service nc)
            (addrinfo nc) (tls nc) (tls_state nc) v (read_cb nc) (read_cb_arg nc)
            (connect_cb nc) (connect_cb_arg nc) (close_cb nc) (close_cb_arg nc).

(** ** Protocol names *)

Definition proto_list : list (network_client_proto * string) :=
  [ (network_client_proto_udp, "udp"%string);
    (network_client_proto_tcp, "tcp"%string);
    (network_client_proto_tls, "tls"%string) ].

Definition tolower (c : ascii) : ascii :=
  let n := nat_of_ascii c in
  if ((65 <=? n) && (n <=? 90))%nat then ascii_of_nat (n + 32) else c.

Definition code (c : ascii) : Z := Z.of_nat (nat_of_ascii c).

Fixpoint strcasecmp (a b : string) : Z :=
  match a, b with
  | EmptyString, EmptyString => 0
  | EmptyString, String y _ => - code (tolower y)
  | String x _, EmptyString => code (tolower x)
  | String x a', String y b' =>
      let d := code (tolower x) - code (tolower y) in
      if d =? 0 then strcasecmp a' b' else d
  end.

Fixpoint proto_to_str_in (l : list (network_client_proto * string))
         (p : network_client_proto) : string :=
  match l with
  | [] => "unknown"
  | (q, s) :: l' => if proto_eqb q p then s else proto_to_str_in l' p
  end.

Definition proto_to_str := proto_to_str_in proto_list.

Fixpoint str_to_proto_in (l : list (network_client_proto * string))
         (p : string) : network_client_proto :=
  match l with
  | [] => network_client_proto_tcp
  | (q, s) :: l' => if strcasecmp s p =? 0 then q else str_to_proto_in l' p
  end.

Definition str_to_proto := str_to_proto_in proto_list.

(** ** Server registry and URI parsing *)

(** The loop frees [services[i]] for [i < num_services]: with a positive
    count it reads through [services]. *)
Definition server_free (srv : network_client_server) : option network_client_server :=
  if num_services srv <=? 0 then Some server_zero
  else match services srv with
       | Some l =>
           if num_services srv <=? Z.of_nat (List.length l) then Some server_zero
           else None
       | None => None
       end.

(** The service block, [[]] behind a [NULL] pointer. *)
Definition svc_list (srv : network_client_server) : list string :=
  match services srv with
  | Some l => l
  | None => []
  end.

(** The block [reallocarray] returns has [num_services + 1] cells: those of
    the old block below the count, and the cell at the count, which the next
    statement writes.  A count below -1 is a huge [size_t] and the
    allocation fails; with a count of -1 the store goes to [services[-1]].
    When the count is larger than the old block (which a record read from
    uninitialised memory can say), the new block has uninitialised pointers
    below the count: no list of strings stands for it, every use of such a
    cell is undefined, and the embedding stops there with [None]. *)
Definition add_server_service (srv : network_client_server) (service : string)
           (h : heap) : option (Z * network_client_server * heap) :=
  let (ok, h) := alloc h in                                   (* strdup *)
  if negb ok then Some (-1, srv, h) else
  let (ok, h) := alloc h in                                   (* reallocarray *)
  if negb ok || (num_services srv + 1 <? 0) then
    Some (-1, mk_server (uri srv) (proto srv) (host srv) None (num_services srv), h)
  else if num_services srv <? 0 then None
  else if (List.length (svc_list srv) <? Z.to_nat (num_services srv))%nat then None
  else
    let arr := firstn (Z.to_nat (num_services srv)) (svc_list srv) ++ [service] in
    Some (0, mk_server (uri srv) (proto srv) (host srv) (Some arr)
                       (num_services srv + 1), h).

(** [strstr]: offset of the first occurrence. *)
Definition strstr (hay needle : string) : option nat := index 0 needle hay.

Fixpoint str_take (n : nat) (s : string) : string :=
  match n, s with
  | S n', String c s' => String c (str_take n' s')
  | _, _ => EmptyString
  end.

Fixpoint str_drop (n : nat) (s : string) : string :=
  match n, s with
  | S n', String _ s' => str_drop n' s'
  | _, _ => s
  end.

(** The tokens that repeated [strsep(&p, ",")] returns until it yields
    [NULL]: the text between commas, empty tokens included. *)
Fixpoint strsep_all (s : string) : list string :=
  match s with
  | EmptyString => [EmptyString]
  | String c s' =>
      if Ascii.eqb c ","%char then EmptyString :: strsep_all s'
      else match strsep_all s' with
           | t :: ts => String c t :: ts
           | [] => [String c EmptyString]
           end
  end.

(** The [while] loop of [parse_server]: stops at the first service that
    cannot be added. *)
Fixpoint add_services (srv : network_client_server) (tokens : list string)
         (h : heap) : option (Z * network_client_server * heap) :=
  match tokens with
  | [] => Some (0, srv, h)
  | t :: ts =>
      '(rc, srv, h) <- add_server_service srv t h ;;
      if rc =? 0 then add_services srv ts h else Some (-1, srv, h)
  end.

(** The [out:] label. *)
Definition parse_out (rc : Z) (srv : network_client_server) (h : heap)
  : option (Z * network_client_server * heap) :=
  if rc =? 0 then Some (rc, srv, h)
  else srv <- server_free srv ;; Some (rc, srv, h).

(** The in-place splitting of [uri_tmp]: the text before ["://"] is the
    protocol (["tcp"] without it), what follows up to the first [":"] is the
    host, and what follows that colon, if there is one, the service list. *)
Definition split_uri (uri_tmp : string) : string * string * option string :=
  let '(proto_s, host_s) :=
    match strstr uri_tmp "://" with
    | None => ("tcp"%string, uri_tmp)
    | Some k => (str_take k uri_tmp, str_drop (k + 3) uri_tmp)
    end in
  match strstr host_s ":" with
  | Some k => (proto_s, str_take k host_s, Some (str_drop (k + 1) host_s))
  | None => (proto_s, host_s, None)
  end.

Definition parse_server (srv : network_client_server) (uri_in : string)
           (h : heap) : option (Z * network_client_server * heap) :=
  let (ok_tmp, h) := alloc h in                               (* uri_tmp *)
  if negb ok_tmp then None                                    (* strstr(NULL, ..) *)
  else
    let (ok_uri, h) := alloc h in                             (* srv->uri *)
    let srv := mk_server (if ok_uri then Some uri_in else None) (proto srv)
                         (host srv) (services srv) (num_services srv) in
    if negb ok_uri then parse_out (-1) srv h
    else
      let '(proto_s, host_s, services_s) := split_uri uri_in in
      let (ok_host, h) := alloc h in                          (* srv->host *)
      let srv := mk_server (uri srv) (str_to_proto proto_s)
                           (if ok_host then Some host_s else None)
                           (services srv) (num_services srv) in
      match services_s with
      | Some sv =>
          let (ok_sv, h) := alloc h in                        (* services_tmp *)
          if negb ok_sv then parse_out (-1) srv h
          else
            '(rc, srv, h) <- add_services srv (strsep_all sv) h ;;
            parse_out rc srv h
      | None => parse_out (-1) srv h
      end.

(** Every slot below [num_servers] is released. *)
Fixpoint servers_free (l : list network_client_server) : option unit :=
  match l with
  | [] => Some tt
  | s :: l' => _ <- server_free s ;; servers_free l'
  end.

Definition network_client_remove_servers (nc : network_client)
  : option (Z * network_client) :=
  match servers nc with
  | Some arr =>
      if Z.of_nat (List.length arr) <? num_servers nc then None
      else
        _ <- servers_free (firstn (Z.to_nat (num_servers nc)) arr) ;;
        Some (0, set_num_servers 0 (set_servers None nc))
  | None => Some (0, nc)
  end.

(** [junk] is what the memory of a new slot holds: [parse_server] reads
    [srv->services] and [srv->num_services] of the slot before it writes
    them. *)
Definition network_client_add_server (nc : network_client) (uri_in : string)
           (h : heap) (junk : network_client_server)
  : option (Z * network_client * heap) :=
  let (ok, h) := alloc h in
  if negb ok then Some (-1, set_servers None nc, h)
  else
    let arr := reallocarray junk (servers nc) (num_servers nc + 1) in
    slot <- zth arr (num_servers nc) ;;
    '(rc, srv, h) <- parse_server slot uri_in h ;;
    let nc := set_servers (Some (store arr (Z.to_nat (num_servers nc)) srv)) nc in
    if negb (rc =? 0) then Some (-1, nc, h)
    else Some (0, set_num_servers (num_servers nc + 1) nc, h).

(** ** Endpoint selector *)

(** [&nc->servers[nc->curr_server]], as the index of the slot. *)
Definition get_curr_server (nc : network_client) : option Z :=
  match servers nc with
  | Some _ => Some (curr_server nc)
  | None => None
  end.

(** Reading a field through a server pointer. *)
Definition load_server (nc : network_client) (p : option Z)
  : option network_client_server :=
  match p, servers nc with
  | Some i, Some arr => zth arr i
  | _, _ => None
  end.

(** The outer [option] is definedness, the inner one the returned pointer. *)
Definition get_curr_service (nc : network_client) : option (option string) :=
  match servers nc with
  | Some arr =>
      srv <- zth arr (curr_server nc) ;;
      svcs <- services srv ;;
      s <- zth svcs (curr_service nc) ;;
      Some (Some s)
  | None => Some None
  end.

Definition choose_next_server (nc : network_client)
  : option (option Z * network_client) :=
  let srv := get_curr_server nc in
  more <- match srv with
          | Some _ => s <- load_server nc srv ;;
                      Some (curr_service nc <? num_services s - 1)
          | None => Some false
          end ;;
  let nc :=
    if more then set_curr_service (curr_service nc + 1) nc
    else
      let nc := set_curr_service 0 nc in
      if 1 <? num_servers nc then
        let nc := set_curr_server (curr_server nc + 1) nc in
        if num_servers nc <=? curr_server nc then set_curr_server 0 nc else nc
      else nc in
  Some (get_curr_server nc, nc).

(** [calloc] followed by the constructor's [nc->state = closed]. *)
Definition network_client_new : network_client :=
  mk_client None 0 0 0 None None 0 network_client_closed None 0 None 0 None 0.

(** ** Callback management *)

Definition network_client_set_read_cb (cb : option Z) (arg : Z)
           (nc : network_client) : network_client :=
  mk_client (servers nc) (num_servers nc) (curr_server nc) (curr_service nc)
            (addrinfo nc) (tls nc) (tls_state nc) (state nc) cb arg
            (connect_cb nc) (connect_cb_arg nc) (close_cb nc) (close_cb_arg nc).

Definition network_client_set_connect_cb (cb : option Z) (arg : Z)
           (nc : network_client) : network_client :=
  mk_client (servers nc) (num_servers nc) (curr_server nc) (curr_service nc)
            (addrinfo nc) (tls nc) (tls_state nc) (state nc) (read_cb nc)
            (read_cb_arg nc) cb arg (close_cb nc) (close_cb_arg nc).

Definition network_client_set_close_cb (cb : option Z) (arg : Z)
           (nc : network_client) : network_client :=
  mk_client (servers nc) (num_servers nc) (curr_server nc) (curr_service nc)
            (addrinfo nc) (tls nc) (tls_state nc) (state nc) (read_cb nc)
            (read_cb_arg nc) (connect_cb nc) (connect_cb_arg nc) cb arg.

(** ** What the client does to the outside world *)

Inductive cb_kind := cb_connect | cb_close.

(** A callback event keeps the client as the callback finds it.  The
    callbacks are the owner's code; they are taken not to call back into the
    client while they run. *)
Inductive event :=
| Ev_callback (k : cb_kind) (fn arg : Z) (seen : network_client)
| Ev_uv_getaddrinfo (node service : option string) (datagram : bool) (rc : Z)
| Ev_uv_freeaddrinfo (ai : Z)
| Ev_uv_tcp_connect (ai : Z) (rc : Z)
| Ev_uv_udp_init
| Ev_uv_poll_start (fd : Z)
| Ev_uv_close
| Ev_uv_timer_start (rc : Z)
| Ev_uv_timer_stop
| Ev_tls_client (session : option Z)
| Ev_tls_connect_socket (session : option Z) (rc : Z)
| Ev_tls_free (session : Z).

(** [if (cb) cb(nc, arg)] *)
Definition fire (k : cb_kind) (cb : option Z) (arg : Z) (nc : network_client)
  : list event :=
  match cb with
  | Some f => [Ev_callback k f arg nc]
  | None => []
  end.

(** ** Connection state machine *)

Definition set_closed (nc : network_client) : network_client * list event :=
  let nc := set_state network_client_closed nc in
  let (nc, e1) :=
    match addrinfo nc with
    | Some ai => (set_addrinfo None nc, [Ev_uv_freeaddrinfo ai])
    | None => (nc, [])
    end in
  let (nc, e2) :=
    match tls nc with
    | Some t => (set_tls_state 0 nc, [Ev_tls_free t])
    | None => (nc, [])
    end in
  (nc, e1 ++ e2 ++ fire cb_close (close_cb nc) (close_cb_arg nc) nc).

(** [data] is [handle->data] of the connection handle: the client, once
    [connect_tcp] has stored it there, and [NULL] until then; [set_closed]
    writes through it. *)
Definition on_close (data : option network_client)
  : option (network_client * list event) :=
  nc <- data ;; Some (set_closed nc).

Definition network_client_close (nc : network_client)
  : Z * network_client * list event :=
  if negb (conn_state_eqb (state nc) network_client_connected) then (-1, nc, [])
  else (0, nc, [Ev_uv_close]).

(** [rc] is what [uv_tcp_connect] returns.  The call comes after
    [nc->conn.tcp.data = nc]: from this event on the connection handle
    holds the client (see [absorb]). *)
Definition connect_tcp (rc : Z) (nc : network_client) (ai : Z)
  : Z * network_client * list event :=
  (rc, nc, [Ev_uv_tcp_connect ai rc]).

Definition connect_udp (nc : network_client) (ai : Z)
  : Z * network_client * list event :=
  (0, nc, Ev_uv_udp_init :: fire cb_connect (connect_cb nc) (connect_cb_arg nc) nc).

(** [status] and [ai] come from libuv, [rc] is what [uv_tcp_connect] would
    return.  Both branches read through [srv]. *)
Definition resolving_cb (status ai rc : Z) (nc : network_client)
  : option (network_client * list event) :=
  let srv := get_curr_server nc in
  if status <? 0 then
    _ <- load_server nc srv ;;
    _ <- get_curr_service nc ;;
    Some (set_closed nc)
  else
    let nc := set_addrinfo (Some ai) nc in
    s <- load_server nc srv ;;
    match proto s with
    | network_client_proto_udp =>
        let '(r, nc, ev) := connect_udp nc ai in
        if r =? 0 then Some (set_state network_client_connected nc, ev)
        else let (nc, ev') := set_closed nc in Some (nc, ev ++ ev')
    | network_client_proto_tls
    | network_client_proto_tcp =>
        let '(r, nc, ev) := connect_tcp rc nc ai in
        if r =? 0 then Some (set_state network_client_connecting nc, ev)
        else let (nc, ev') := set_closed nc in Some (nc, ev ++ ev')
    end.

(** [status] comes from libuv; [session] is what [tls_client] returns, [fd]
    the descriptor when [uv_fileno] returns 0, [step] what the first
    [tls_connect_socket] returns. *)
Definition connect_tcp_cb (status : Z) (session : option Z) (fd : option Z)
           (step : Z) (nc : network_client)
  : option (network_client * list event) :=
  let srv := get_curr_server nc in
  if negb (status =? 0) then
    _ <- load_server nc srv ;;
    _ <- get_curr_service nc ;;
    Some (set_closed nc)
  else
    s <- load_server nc srv ;;
    if proto_eqb (proto s) network_client_proto_tcp then
      let nc := set_state network_client_connected nc in
      Some (nc, fire cb_connect (connect_cb nc) (connect_cb_arg nc) nc)
    else
      let nc := set_tls session nc in
      match tls nc with
      | None =>
          let (nc, ev) := set_closed nc in Some (nc, Ev_tls_client None :: ev)
      | Some t =>
          match fd with
          | Some sock =>
              let nc := set_tls_state step nc in
              Some (nc, [Ev_tls_client (Some t);
                         Ev_tls_connect_socket (Some t) step;
                         Ev_uv_poll_start sock])
          | None => Some (nc, [Ev_tls_client (Some t)])
          end
      end.

(** [rc] is what [uv_getaddrinfo] returns; the code does not look at it. *)
Definition reconnect_cb (rc : Z) (nc : network_client)
  : option (network_client * list event) :=
  if negb (conn_state_eqb (state nc) network_client_closed)
     || (num_servers nc =? 0)
  then Some (nc, [])
  else
    '(srv, nc) <- choose_next_server nc ;;
    service <- get_curr_service nc ;;
    s <- load_server nc srv ;;
    let datagram := proto_eqb (proto s) network_client_proto_udp in
    let nc := set_state network_client_resolving nc in
    Some (nc, [Ev_uv_getaddrinfo (host s) service datagram rc]).

(** [init_rc] and [start_rc] are what [uv_timer_init] and [uv_timer_start]
    return. *)
Definition network_client_start (init_rc start_rc : Z) (nc : network_client)
  : Z * network_client * list event :=
  if negb (init_rc =? 0) then (-1, nc, [])
  else (start_rc, nc, [Ev_uv_timer_start start_rc]).

Definition network_client_stop (nc : network_client)
  : Z * network_client * list event :=
  (0, nc, [Ev_uv_timer_stop]).

Section TlsConstants.

(** [tls.h] is not part of the sources: the two retry codes of
    [tls_connect_socket] are parameters of the development. *)
Variables TLS_READ_AGAIN TLS_WRITE_AGAIN : Z.

(** [step] is what [tls_connect_socket] returns if the handler calls it. *)
Definition on_poll (step : Z) (nc : network_client)
  : network_client * list event :=
  if conn_state_eqb (state nc) network_client_connecting then
    if (tls_state nc =? TLS_READ_AGAIN) || (tls_state nc =? TLS_WRITE_AGAIN) then
      let nc := set_tls_state step nc in
      let ev := [Ev_tls_connect_socket (tls nc) step] in
      if tls_state nc =? 0 then (set_state network_client_connected nc, ev)
      else if tls_state nc =? -1 then (nc, ev)     (* logged; the close is commented out *)
      else (nc, ev)
    else (nc, [])
  else (nc, []).

(** ** The client inside its event loop *)

Inductive async_op := op_resolve | op_connect | op_handshake.

Definition async_op_eqb (a b : async_op) : bool :=
  match a, b with
  | op_resolve, op_resolve | op_connect, op_connect
  | op_handshake, op_handshake => true
  | _, _ => false
  end.

(** The client together with what the loop and libtls know about it: the
    requests and watchers whose callback can still come, whether the
    connection handle is closing, whether the reconnect timer is armed, the
    TLS sessions allocated and not yet freed, everything done so far, and
    whether the connection handle's [data] holds the client ([calloc] leaves
    it [NULL]). *)
Record world := mk_world {
  client : network_client;
  inflight : list async_op;
  closing : bool;
  armed : bool;
  live_tls : list Z;
  trace : list event;
  conn_data : bool
}.

Definition with_client (nc : network_client) (w : world) : world :=
  mk_world nc (inflight w) (closing w) (armed w) (live_tls w) (trace w)
           (conn_data w).

Definition retire (op : async_op) (w : world) : world :=
  mk_world (client w)
           (filter (fun o => negb (async_op_eqb o op)) (inflight w))
           (closing w) (armed w) (live_tls w) (trace w) (conn_data w).

Definition issue (op : async_op) (w : world) : world :=
  mk_world (client w) (op :: inflight w) (closing w) (armed w) (live_tls w)
           (trace w) (conn_data w).

(** The loop's and libtls's side of one call.  A request is in flight from
    the accepted call to its callback.  A readiness watcher stays: the code
    starts one per TLS attempt and never stops one, and closing the
    connection handle does not stop another handle.  No init call touches
    the [data] of the connection handle: once [connect_tcp] has run, the
    handle holds the client for good. *)
Definition absorb (w : world) (e : event) : world :=
  let w := mk_world (client w) (inflight w) (closing w) (armed w) (live_tls w)
                    (trace w ++ [e]) (conn_data w) in
  match e with
  | Ev_uv_getaddrinfo _ _ _ rc => if rc =? 0 then issue op_resolve w else w
  | Ev_uv_tcp_connect _ rc =>
      let w := mk_world (client w) (inflight w) (closing w) (armed w)
                        (live_tls w) (trace w) true in
      if rc =? 0 then issue op_connect w else w
  | Ev_uv_poll_start _ => issue op_handshake w
  | Ev_uv_close =>
      mk_world (client w) (inflight w) true (armed w) (live_tls w) (trace w)
               (conn_data w)
  | Ev_uv_timer_start rc =>
      mk_world (client w) (inflight w) (closing w) (rc =? 0) (live_tls w) (trace w)
               (conn_data w)
  | Ev_uv_timer_stop =>
      mk_world (client w) (inflight w) (closing w) false (live_tls w) (trace w)
               (conn_data w)
  | Ev_tls_client (Some t) =>
      mk_world (client w) (inflight w) (closing w) (armed w) (t :: live_tls w)
               (trace w) (conn_data w)
  | Ev_tls_free t =>
      mk_world (client w) (inflight w) (closing w) (armed w)
               (filter (fun x => negb (x =? t)) (live_tls w)) (trace w)
               (conn_data w)
  | _ => w
  end.

Definition emit (ev : list event) (w : world) : world := fold_left absorb ev w.

Definition pending (op : async_op) (w : world) : bool :=
  existsb (async_op_eqb op) (inflight w).

(** What can happen to a client: calls of its owner and callbacks of the
    loop, each with the values the libraries return during it and, for
    [add_server], with what the memory of a new slot holds. *)
Inductive label :=
| L_add_server (uri_in : string) (h : heap) (junk : network_client_server)
| L_remove_servers
| L_set_read_cb (cb : option Z) (arg : Z)
| L_set_connect_cb (cb : option Z) (arg : Z)
| L_set_close_cb (cb : option Z) (arg : Z)
| L_start (init_rc start_rc : Z)
| L_stop
| L_close
| L_timer (rc : Z)
| L_resolved (status ai rc : Z)
| L_connected (status : Z) (session : option Z) (fd : option Z) (step : Z)
| L_readable (step : Z)
| L_closed.

(** One step.  [None]: the loop cannot deliver this callback now, or the
    call runs into undefined behaviour. *)
Definition step (l : label) (w : world) : option world :=
  match l with
  | L_add_server u h junk =>
      '(_, nc, _) <- network_client_add_server (client w) u h junk ;;
      Some (with_client nc w)
  | L_remove_servers =>
      '(_, nc) <- network_client_remove_servers (client w) ;;
      Some (with_client nc w)
  | L_set_read_cb cb arg =>
      Some (with_client (network_client_set_read_cb cb arg (client w)) w)
  | L_set_connect_cb cb arg =>
      Some (with_client (network_client_set_connect_cb cb arg (client w)) w)
  | L_set_close_cb cb arg =>
      Some (with_client (network_client_set_close_cb cb arg (client w)) w)
  | L_start init_rc start_rc =>
      let '(_, nc, ev) := network_client_start init_rc start_rc (client w) in
      Some (emit ev (with_client nc w))
  | L_stop =>
      let '(_, nc, ev) := network_client_stop (client w) in
      Some (emit ev (with_client nc w))
  | L_close =>
      if closing w
         && conn_state_eqb (state (client w)) network_client_connected
      then None                         (* uv_close on a closing handle *)
      else
        let '(_, nc, ev) := network_client_close (client w) in
        Some (emit ev (with_client nc w))
  | L_timer rc =>
      if armed w then
        '(nc, ev) <- reconnect_cb rc (client w) ;;
        Some (emit ev (with_client nc w))
      else None
  | L_resolved status ai rc =>
      if pending op_resolve w then
        '(nc, ev) <- resolving_cb status ai rc (client w) ;;
        Some (emit ev (with_client nc (retire op_resolve w)))
      else None
  | L_connected status session fd stp =>
      if pending op_connect w then
        '(nc, ev) <- connect_tcp_cb status session fd stp (client w) ;;
        Some (emit ev (with_client nc (retire op_connect w)))
      else None
  | L_readable stp =>
      if pending op_handshake w then
        let (nc, ev) := on_poll stp (client w) in
        Some (emit ev (with_client nc w))
      else None
  | L_closed =>
      if closing w then
        '(nc, ev) <- on_close (if conn_data w then Some (client w) else None) ;;
        let w := mk_world nc (inflight w) false (armed w) (live_tls w) (trace w)
                          (conn_data w) in
        Some (emit ev w)
      else None
  end.

Fixpoint run (ls : list label) (w : world) : option world :=
  match ls with
  | [] => Some w
  | l :: ls' => w' <- step l w ;; run ls' w'
  end.

(** A client fresh from the constructor. *)
Definition world0 : world :=
  mk_world network_client_new [] false false [] [] false.

Definition reachable (w : world) : Prop := exists ls, run ls world0 = Some w.


(** ** Vocabulary of the properties *)

(** The registry proper: the slots below [num_servers]. *)
Definition registry (nc : network_client) : list network_client_server :=
  match servers nc with
  | Some arr => firstn (Z.to_nat (num_servers nc)) arr
  | None => []
  end.

Definition cursor (nc : network_client) : Z * Z :=
  (curr_server nc, curr_service nc).

(** The selector's advance operation, keeping only the moved cursor. *)
Definition advance (nc : network_client) : option network_client :=
  '(_, nc') <- choose_next_server nc ;; Some nc'.

(** The cursors selected by [n] successive advances. *)
Fixpoint visits (n : nat) (nc : network_client) : option (list (Z * Z)) :=
  match n with
  | O => Some []
  | S n' =>
      nc' <- advance nc ;;
      rest <- visits n' nc' ;;
      Some (cursor nc' :: rest)
  end.

(** Server-major listing of the (server, service) index pairs of a registry
    whose servers have [cs] services each, numbered from [i]. *)
Fixpoint enum (i : nat) (cs : list nat) : list (nat * nat) :=
  match cs with
  | [] => []
  | c :: r => map (pair i) (seq 0 c) ++ enum (S i) r
  end.

Definition service_counts (nc : network_client) : list nat :=
  map (fun s => Z.to_nat (num_services s)) (registry nc).

Definition endpoint_of (p : nat * nat) : Z * Z :=
  (Z.of_nat (fst p), Z.of_nat (snd p)).

(** Every endpoint of the registry, in registration order. *)
Definition endpoints (nc : network_client) : list (Z * Z) :=
  map endpoint_of (enum 0 (service_counts nc)).

(** A registry as [add_server] builds it: an allocated block holding
    [num_servers] servers, each with at least one service. *)
Definition registry_ok (nc : network_client) : Prop :=
  (exists arr, servers nc = Some arr
               /\ num_servers nc <= Z.of_nat (List.length arr))
  /\ 1 <= num_servers nc
  /\ Forall (fun s => 1 <= num_services s) (registry nc).

(** The cursor designates a service of a registered server. *)
Definition cursor_ok (nc : network_client) : Prop :=
  exists s, zth (registry nc) (curr_server nc) = Some s
            /\ 0 <= curr_service nc < num_services s.

(** Position of an endpoint in the server-major listing. *)
Definition rank (cs : list nat) (p : nat * nat) : nat :=
  list_sum (firstn (fst p) cs) + snd p.

Definition validp (cs : list nat) (p : nat * nat) : Prop :=
  exists c, nth_error cs (fst p) = Some c /\ (snd p < c)%nat.

(** The selector on index pairs. *)
Definition next (cs : list nat) (p : nat * nat) : nat * nat :=
  if (S (snd p) <? nth (fst p) cs 0)%nat then (fst p, S (snd p))
  else if (1 <? List.length cs)%nat
       then (if (List.length cs <=? S (fst p))%nat then 0%nat else S (fst p), 0%nat)
       else (fst p, 0%nat).

Fixpoint orbit {A} (f : A -> A) (n : nat) (x : A) : list A :=
  match n with
  | O => []
  | S n' => f x :: orbit f n' (f x)
  end.

(** The callbacks of one kind among the events. *)
Definition is_callback (k : cb_kind) (e : event) : bool :=
  match e, k with
  | Ev_callback cb_connect _ _ _, cb_connect => true
  | Ev_callback cb_close _ _ _, cb_close => true
  | _, _ => false
  end.

Definition callbacks (k : cb_kind) (ev : list event) : nat :=
  List.length (filter (is_callback k) ev).

(** The connection attempts: target and socket kind of each resolution
    request, oldest first. *)
Definition attempts (ev : list event) : list (option string * option string * bool) :=
  flat_map (fun e => match e with
                     | Ev_uv_getaddrinfo n s d _ => [(n, s, d)]
                     | _ => []
                     end) ev.

(** How often a session was handed to [tls_free]. *)
Definition frees (t : Z) (ev : list event) : nat :=
  List.length (filter (fun e => match e with
                                | Ev_tls_free x => x =? t
                                | _ => false
                                end) ev).

(** The protocol of the server under the cursor, when there is one. *)
Definition current_proto (nc : network_client) : option network_client_proto :=
  option_map proto (load_server nc (get_curr_server nc)).

(** A live TLS session is the one the client points to. *)
Definition held (w : world) : Prop :=
  live_tls w = [] \/ exists t, live_tls w = [t] /\ tls (client w) = Some t.

(** A request completes once; a readiness watcher is no request. *)
Definition is_request (op : async_op) : bool :=
  match op with
  | op_handshake => false
  | _ => true
  end.

(** The requests in flight: resolutions and transport connects. *)
Definition requests (w : world) : list async_op :=
  filter is_request (inflight w).

(** Which request is in flight and which session lives, by state.  Outside
    a handshake [tls_state] is 0. *)
Definition loop_inv (w : world) : Prop :=
  match state (client w) with
  | network_client_closed =>
      requests w = [] /\ closing w = false /\ live_tls w = []
      /\ tls_state (client w) = 0
  | network_client_resolving =>
      (requests w = [] \/ requests w = [op_resolve])
      /\ closing w = false /\ live_tls w = []
      /\ tls_state (client w) = 0
  | network_client_connecting =>
      closing w = false
      /\ ((requests w = [] /\ held w)
          \/ (requests w = [op_connect] /\ live_tls w = []
              /\ tls_state (client w) = 0))
  | network_client_connected =>
      requests w = [] /\ held w /\ tls_state (client w) = 0
  end.

(** The cursor designates a server slot and a service string that can be
    read. *)
Definition has_target (nc : network_client) : Prop :=
  exists s v, load_server nc (get_curr_server nc) = Some s
              /\ get_curr_service nc = Some (Some v).

(** [tls_state] asks for another handshake step. *)
Definition wants_step (nc : network_client) : Prop :=
  tls_state nc = TLS_READ_AGAIN \/ tls_state nc = TLS_WRITE_AGAIN.

(** Register two servers, start, let the first attempt fail, clear the
    registry and register one server again; every new slot reads as
    zeroes. *)
Definition stale_cursor_run : list label :=
  [ L_add_server "a:1" [] server_zero; L_add_server "b:2" [] server_zero;
    L_start 0 0; L_timer 0; L_resolved (-1) 0 0;
    L_remove_servers; L_add_server "c:3" [] server_zero ].

(** The scenario of two servers: [udp://a:53] registered first,
    [tcp://b:80] second on a fresh heap (new memory reads as zeroes), the
    timer started, every attempt failing in name resolution. *)
Definition two_servers_setup : list label :=
  [ L_add_server "udp://a:53" [] server_zero;
    L_add_server "tcp://b:80" [] server_zero; L_start 0 0 ].

Definition failing_round : list label := [ L_timer 0; L_resolved (-1) 0 0 ].

Fixpoint failing_rounds (n : nat) : list label :=
  match n with
  | O => []
  | S n' => failing_round ++ failing_rounds n'
  end.

Definition a53 : option string * option string * bool :=
  (Some "a"%string, Some "53"%string, true).
Definition b80 : option string * option string * bool :=
  (Some "b"%string, Some "80"%string, false).

(** [x; y; x; y; ...], [n] elements. *)
Fixpoint alternate {A} (x y : A) (n : nat) : list A :=
  match n with
  | O => []
  | S n' => x :: alternate y x n'
  end.

Definition server_a : network_client_server :=
  mk_server (Some "udp://a:53"%string) network_client_proto_udp
            (Some "a"%string) (Some ["53"%string]) 1.
Definition server_b : network_client_server :=
  mk_server (Some "tcp://b:80"%string) network_client_proto_tcp
            (Some "b"%string) (Some ["80"%string]) 1.

(** The idle client of the scenario with its cursor on server [cur]. *)
Definition two_servers (cur : Z) : network_client :=
  mk_client (Some [server_a; server_b]) 2 cur 0 None None 0
            network_client_closed None 0 None 0 None 0.

(** The world a run from a fresh client ends in. *)
Definition outcome (ls : list label) : world :=
  match run ls world0 with
  | Some w => w
  | None => world0
  end.

(** A TLS target whose transport connect is still pending ... *)
Definition tls_pending_run : list label :=
  [ L_add_server "tls://h:443" [] server_zero; L_set_connect_cb (Some 1) 10;
    L_set_close_cb (Some 2) 20; L_start 0 0; L_timer 0; L_resolved 0 7 0 ].

(** ... then connected, the first handshake step asking to be retried with
    the code [again] ... *)
Definition tls_handshake_run (again : Z) : list label :=
  tls_pending_run ++ [ L_connected 0 (Some 5) (Some 3) again ].

(** ... then the handshake completed, the connection closed by its owner,
    and one more attempt failing in name resolution. *)
Definition tls_reconnect_run (again : Z) : list label :=
  tls_handshake_run again
  ++ [ L_readable 0; L_close; L_closed; L_timer 0; L_resolved (-1) 0 0 ].


(** A registry of two servers with two and one services, the cursor on the
    second service of the first. *)
Definition three_endpoints : network_client :=
  mk_client
    (Some [ mk_server (Some "udp://10.0.0.5:53,5353"%string)
                      network_client_proto_udp (Some "10.0.0.5"%string)
                      (Some ["53"%string; "5353"%string]) 2;
            mk_server (Some "tls://c2.example.com:443"%string)
                      network_client_proto_tls (Some "c2.example.com"%string)
                      (Some ["443"%string]) 1 ])
    2 0 1 None None 0 network_client_closed None 0 (Some 1) 10 (Some 2) 20.

(** The allocated server block ([[]] behind a [NULL] pointer). *)
Definition block (nc : network_client) : list network_client_server :=
  match servers nc with
  | Some arr => arr
  | None => []
  end.

(** The count fits the block, and the slot past the count, which only a
    failed parse leaves behind, reads as zeroes ([server_free] has cleared
    it). *)
Definition block_ok (nc : network_client) : Prop :=
  0 <= num_servers nc <= Z.of_nat (List.length (block nc))
  /\ Forall (eq server_zero) (skipn (Z.to_nat (num_servers nc)) (block nc)).

(** A server as a successful [parse_server] leaves it. *)
Definition server_ok (s : network_client_server) : Prop :=
  1 <= num_services s
  /\ exists l, services s = Some l /\ num_services s = Z.of_nat (List.length l).

(** Registry and cursor as the selector needs them. *)
Definition selection_ok (nc : network_client) : Prop :=
  block_ok nc
  /\ Forall server_ok (registry nc)
  /\ (num_servers nc = 0 -> cursor nc = (0, 0))
  /\ (1 <= num_servers nc -> cursor_ok nc).

(** A server record in which the service count matches the service block. *)
Definition svc_wf (srv : network_client_server) : Prop :=
  0 <= num_services srv
  /\ match services srv with
     | Some l => num_services srv = Z.of_nat (List.length l)
     | None => num_services srv = 0
     end.

(** Same registry block, count and cursor. *)
Definition same_selection (nc nc' : network_client) : Prop :=
  servers nc' = servers nc /\ num_servers nc' = num_servers nc
  /\ cursor nc' = cursor nc.

(** A new slot that reads as an empty server: no service block, count 0. *)
Definition blank (j : network_client_server) : Prop :=
  services j = None /\ num_services j = 0.

(** [blank], decided. *)
Definition blankb (j : network_client_server) : bool :=
  match services j with
  | None => num_services j =? 0
  | Some _ => false
  end.

(** The steps that neither clear the registry, nor lose the server block to
    a failed [reallocarray], nor parse into a new slot that does not read as
    an empty server. *)
Definition keeps_block (l : label) : bool :=
  match l with
  | L_remove_servers => false
  | L_add_server _ h j => fst (alloc h) && blankb j
  | _ => true
  end.

(** A client whose handshake failed for good: Connecting, [tls_state = -1],
    only the readiness watcher armed. *)
Definition stranded (w : world) : Prop :=
  state (client w) = network_client_connecting
  /\ tls_state (client w) = -1
  /\ inflight w = [op_handshake]
  /\ closing w = false.

(** No event of the list allocates a TLS session. *)
Definition allocates_none (ev : list event) : bool :=
  forallb (fun e => match e with
                    | Ev_tls_client (Some _) => false
                    | _ => true
                    end) ev.

(** [s] with every letter in lower case, as [strcasecmp] compares it. *)
Fixpoint lowercase (s : string) : string :=
  match s with
  | EmptyString => EmptyString
  | String c s' => String (tolower c) (lowercase s')
  end.

Fixpoint has_char (c : ascii) (s : string) : bool :=
  match s with
  | EmptyString => false
  | String x s' => Ascii.eqb x c || has_char c s'
  end.

(** The terminator of a C string; a C string holds none inside. *)
Definition NUL : ascii := Ascii.zero.

(** The tokens put back together with commas between them. *)
Fixpoint join_commas (l : list string) : string :=
  match l with
  | [] => EmptyString
  | t :: ts =>
      match ts with
      | [] => t
      | _ :: _ => (t ++ String ","%char (join_commas ts))%string
      end
  end.

(** The server record a successful parse fills in from the parts of a URI. *)
Definition parsed_server (u proto_s host_s sv : string) : network_client_server :=
  mk_server (Some u) (str_to_proto proto_s) (Some host_s)
            (Some (strsep_all sv)) (Z.of_nat (List.length (strsep_all sv))).

(** The server record a successful parse leaves in a slot that held [slot]:
    the services of the URI come after those of the slot. *)
Definition parsed_into (slot : network_client_server) (u proto_s host_s sv : string)
  : network_client_server :=
  mk_server (Some u) (str_to_proto proto_s) (Some host_s)
            (Some (svc_list slot ++ strsep_all sv))
            (num_services slot + Z.of_nat (List.length (strsep_all sv))).

(** The server a URI with a service list parses to. *)
Definition server_of_uri (u : string) : network_client_server :=
  match split_uri u with
  | (p, h, Some sv) => parsed_server u p h sv
  | (_, _, None) => server_zero
  end.

(** [add_server] for each URI in turn, each with what its new slot holds,
    no allocation failing. *)
Fixpoint add_all (us : list (string * network_client_server))
         (nc : network_client) : option network_client :=
  match us with
  | [] => Some nc
  | (u, junk) :: us' =>
      '(rc, nc', _) <- network_client_add_server nc u [] junk ;;
      if rc =? 0 then add_all us' nc' else None
  end.

(** A URI that [parse_server] accepts: it has a service list. *)
Definition has_services (u : string) : Prop := snd (split_uri u) <> None.

(** A slot that reads as an empty server but still holds the URI and host
    pointers of a server released earlier. *)
Definition used_slot : network_client_server :=
  mk_server (Some "tls://old:1"%string) network_client_proto_tls
            (Some "old"%string) None 0.

(** A URI with a service list, to be parsed into a slot that reads as an
    empty server. *)
Definition clean_add (a : string * network_client_server) : Prop :=
  has_services (fst a) /\ blank (snd a).

(** The world a run from [w] ends in. *)
Definition continue (ls : list label) (w : world) : world :=
  match run ls w with
  | Some w' => w'
  | None => w
  end.

(** * Properties *)

(** ** The round-robin order on index pairs *)

Local Open Scope nat_scope.

Lemma enum_length cs : forall i, List.length (enum i cs) = list_sum cs.
Proof.
  induction cs as [|c r IH]; intros i; simpl; [reflexivity|].
  rewrite length_app, length_map, length_seq, IH. reflexivity.
Qed.

Lemma enum_at cs : forall i0 i j,
  validp cs (i, j) ->
  nth_error (enum i0 cs) (rank cs (i, j)) = Some (i0 + i, j).
Proof.
  induction cs as [|c r IH]; intros i0 i j [c' [Hc Hj]]; simpl in *.
  - destruct i; discriminate.
  - destruct i as [|i]; simpl in *.
    + injection Hc as <-. unfold rank; simpl.
      rewrite nth_error_app1 by (rewrite length_map, length_seq; lia).
      rewrite nth_error_map, nth_error_seq.
      destruct (Nat.ltb_spec j c); [|lia]. simpl. do 2 f_equal. lia.
    + unfold rank; simpl.
      rewrite nth_error_app2 by (rewrite length_map, length_seq; lia).
      rewrite length_map, length_seq.
      replace (c + list_sum (firstn i r) + j - c) with (rank r (i, j))
        by (unfold rank; simpl; lia).
      rewrite (IH (S i0) i j) by (exists c'; auto).
      do 2 f_equal. lia.
Qed.

Lemma rank_onto cs : forall k, k < list_sum cs ->
  exists p, validp cs p /\ rank cs p = k.
Proof.
  induction cs as [|c r IH]; intros k Hk; simpl in *; [lia|].
  destruct (Nat.lt_ge_cases k c) as [Hlt|Hge].
  - exists (0, k). split; [exists c; auto|reflexivity].
  - destruct (IH (k - c)) as [[i j] [[c' [Hc Hj]] Hr]]; [lia|].
    exists (S i, j). split; [exists c'; auto|].
    unfold rank in *; simpl in *. lia.
Qed.

Lemma list_sum_firstn_S cs : forall i c, nth_error cs i = Some c ->
  list_sum (firstn (S i) cs) = list_sum (firstn i cs) + c.
Proof.
  induction cs as [|a r IH]; intros [|i] c H; simpl in *; try discriminate.
  - injection H as <-. lia.
  - rewrite (IH i c H). lia.
Qed.

Lemma list_sum_firstn_le cs : forall i, list_sum (firstn i cs) <= list_sum cs.
Proof.
  induction cs as [|a r IH]; intros [|i]; simpl; try lia.
  specialize (IH i). lia.
Qed.

Lemma rank_bound cs p : validp cs p -> rank cs p < list_sum cs.
Proof.
  destruct p as [i j]. intros [c [Hc Hj]]. unfold rank; simpl in *.
  pose proof (list_sum_firstn_S cs i c Hc).
  pose proof (list_sum_firstn_le cs (S i)). lia.
Qed.

Lemma enum_lookup cs k p :
  nth_error (enum 0 cs) k = Some p -> validp cs p /\ rank cs p = k.
Proof.
  intros H.
  assert (Hk : k < list_sum cs).
  { rewrite <- (enum_length cs 0). apply nth_error_Some. congruence. }
  destruct (rank_onto cs k Hk) as [[i j] [Hv Hr]].
  pose proof (enum_at cs 0 i j Hv) as E. rewrite Hr in E. simpl in E.
  rewrite E in H. injection H as <-. auto.
Qed.

Lemma enum_NoDup cs : NoDup (enum 0 cs).
Proof.
  apply NoDup_nth_error. intros a b Ha E.
  destruct (nth_error (enum 0 cs) a) as [p|] eqn:Ea.
  - symmetry in E. apply enum_lookup in Ea, E. destruct Ea, E. congruence.
  - apply nth_error_None in Ea. lia.
Qed.

Lemma enum_In cs p : In p (enum 0 cs) <-> validp cs p.
Proof.
  split.
  - intros H. apply In_nth_error in H as [k H]. apply (enum_lookup _ _ _ H).
  - intros H. destruct p as [i j]. apply (nth_error_In _ (rank cs (i, j))).
    apply (enum_at cs 0 i j H).
Qed.

Lemma next_rank cs p :
  Forall (fun c => 1 <= c) cs -> validp cs p ->
  validp cs (next cs p) /\
  rank cs (next cs p) =
    if S (rank cs p) <? list_sum cs then S (rank cs p) else 0.
Proof.
  intros Hpos Hv. pose proof (rank_bound cs p Hv) as Hb.
  destruct p as [i j]. destruct Hv as [c [Hc Hj]]. simpl in *.
  unfold next; simpl. rewrite (nth_error_nth _ _ 0 Hc).
  assert (Hi : i < List.length cs) by (apply nth_error_Some; congruence).
  pose proof (list_sum_firstn_S cs i c Hc) as HS.
  pose proof (list_sum_firstn_le cs (S i)) as Hle.
  destruct (Nat.ltb_spec (S j) c) as [Hlt|Hge].
  - split; [exists c; auto|]. unfold rank in *; simpl in *.
    destruct (Nat.ltb_spec (S (list_sum (firstn i cs) + j)) (list_sum cs)); lia.
  - assert (j = c - 1) by lia. subst j.
    destruct (Nat.ltb_spec 1 (List.length cs)) as [Hn|Hn].
    + destruct (Nat.leb_spec (List.length cs) (S i)) as [Hw|Hw].
      * assert (HN : S i = List.length cs) by lia.
        rewrite HN, firstn_all in HS.
        destruct cs as [|c0 r]; [simpl in *; lia|].
        inversion Hpos; subst.
        split; [exists c0; simpl; split; [reflexivity|lia]|].
        unfold rank in *; simpl fst in *; simpl snd in *.
        destruct (Nat.ltb_spec (S (list_sum (firstn i (c0 :: r)) + (c - 1)))
                               (list_sum (c0 :: r))); [lia|reflexivity].
      * destruct (nth_error cs (S i)) as [c1|] eqn:Hc1;
          [|apply nth_error_None in Hc1; lia].
        assert (1 <= c1).
        { rewrite Forall_forall in Hpos. apply Hpos.
          apply (nth_error_In _ _ Hc1). }
        assert (Hv' : validp cs (S i, 0)) by (exists c1; simpl; split; [auto|lia]).
        split; [exact Hv'|].
        pose proof (rank_bound cs _ Hv') as Hb'.
        unfold rank in *; simpl fst in *; simpl snd in *.
        destruct (Nat.ltb_spec (S (list_sum (firstn i cs) + (c - 1)))
                               (list_sum cs)); lia.
    + assert (i = 0) by lia. subst i.
      destruct cs as [|c0 [|c1 r]]; simpl in *; try lia.
      injection Hc as <-.
      split; [exists c0; simpl; split; [reflexivity|lia]|].
      unfold rank; simpl.
      destruct (Nat.ltb_spec (S (c0 - 1)) (c0 + 0)); lia.
Qed.

Lemma skipn_cons_nth {A} (l : list A) : forall a d, a < List.length l ->
  skipn a l = nth a l d :: skipn (S a) l.
Proof.
  induction l as [|x l IH]; intros [|a] d H; simpl in *; try lia; auto.
  apply IH. lia.
Qed.

Lemma orbit_chain {A} (f : A -> A) (l : list A) (d : A) :
  (forall k, S k < List.length l -> f (nth k l d) = nth (S k) l d) ->
  forall n k, k + n < List.length l ->
    orbit f n (nth k l d) = firstn n (skipn (S k) l).
Proof.
  intros Hf. induction n as [|n IH]; intros k Hk; cbn [orbit]; [reflexivity|].
  rewrite Hf by lia. rewrite (IH (S k)) by lia.
  rewrite (skipn_cons_nth l (S k) d) by lia. reflexivity.
Qed.

Lemma orbit_rotation {A} (f : A -> A) (l : list A) (d : A) :
  (forall k, S k < List.length l -> f (nth k l d) = nth (S k) l d) ->
  f (nth (List.length l - 1) l d) = nth 0 l d ->
  forall k, k < List.length l ->
    orbit f (List.length l) (nth k l d) = skipn (S k) l ++ firstn (S k) l.
Proof.
  intros Hf Hw k Hk.
  assert (Hll : forall m, S m < List.length (l ++ l) ->
             f (nth m (l ++ l) d) = nth (S m) (l ++ l) d).
  { intros m Hm. rewrite length_app in Hm.
    destruct (Nat.lt_ge_cases (S m) (List.length l)) as [H1|H1].
    - rewrite !app_nth1 by lia. apply Hf; lia.
    - destruct (Nat.eq_dec (S m) (List.length l)) as [H2|H2].
      + rewrite app_nth1 by lia. rewrite app_nth2 by lia.
        replace m with (List.length l - 1) by lia.
        replace (S (List.length l - 1) - List.length l) with 0 by lia. exact Hw.
      + rewrite !app_nth2 by lia.
        replace (S m - List.length l) with (S (m - List.length l)) by lia.
        apply Hf. lia. }
  pose proof (orbit_chain f (l ++ l) d Hll (List.length l) k) as E.
  rewrite app_nth1 in E by lia. rewrite E by (rewrite length_app; lia).
  rewrite skipn_app.
  replace (skipn (S k - List.length l) l) with l
    by (replace (S k - List.length l) with 0 by lia; reflexivity).
  rewrite firstn_app, length_skipn.
  rewrite firstn_all2 by (rewrite length_skipn; lia).
  replace (List.length l - (List.length l - S k)) with (S k) by lia. reflexivity.
Qed.

Lemma next_orbit cs p :
  Forall (fun c => 1 <= c) cs -> validp cs p ->
  orbit (next cs) (list_sum cs) p =
    skipn (S (rank cs p)) (enum 0 cs) ++ firstn (S (rank cs p)) (enum 0 cs).
Proof.
  intros Hpos Hv.
  pose proof (rank_bound cs p Hv) as Hb.
  assert (Hat : forall k, k < list_sum cs ->
            exists q, validp cs q /\ rank cs q = k /\ nth k (enum 0 cs) (0, 0) = q).
  { intros k Hk. destruct (rank_onto cs k Hk) as [[i j] [Hq Hr]].
    exists (i, j). repeat split; auto.
    apply nth_error_nth. rewrite <- Hr. apply (enum_at cs 0 i j Hq). }
  assert (Hnth : forall q, validp cs q -> nth (rank cs q) (enum 0 cs) (0, 0) = q).
  { intros [i j] Hq. apply nth_error_nth. apply (enum_at cs 0 i j Hq). }
  rewrite <- (Hnth p Hv) at 1. rewrite <- (enum_length cs 0).
  apply orbit_rotation.
  - rewrite enum_length. intros k Hk.
    destruct (Hat k) as [q [Hq [Hr Hn]]]; [lia|]. rewrite Hn.
    destruct (next_rank cs q Hpos Hq) as [Hv' Hr'].
    rewrite Hr in Hr'. destruct (Nat.ltb_spec (S k) (list_sum cs)); [|lia].
    transitivity (nth (rank cs (next cs q)) (enum 0 cs) (0, 0));
      [symmetry; apply Hnth, Hv' | rewrite Hr'; reflexivity].
  - rewrite enum_length.
    destruct (Hat (list_sum cs - 1)) as [q [Hq [Hr Hn]]]; [lia|]. rewrite Hn.
    destruct (next_rank cs q Hpos Hq) as [Hv' Hr'].
    rewrite Hr in Hr'.
    destruct (Nat.ltb_spec (S (list_sum cs - 1)) (list_sum cs)); [lia|].
    transitivity (nth (rank cs (next cs q)) (enum 0 cs) (0, 0));
      [symmetry; apply Hnth, Hv' | rewrite Hr'; reflexivity].
  - rewrite enum_length. exact Hb.
Qed.

Local Close Scope nat_scope.

(** ** The selector follows the round-robin order *)

Lemma registry_length nc :
  registry_ok nc -> List.length (registry nc) = Z.to_nat (num_servers nc).
Proof.
  intros [[arr [Hs Hn]] [Hpos _]]. unfold registry. rewrite Hs.
  apply firstn_length_le. lia.
Qed.

Lemma service_counts_length nc :
  registry_ok nc -> List.length (service_counts nc) = Z.to_nat (num_servers nc).
Proof.
  intros H. unfold service_counts. rewrite length_map. now apply registry_length.
Qed.

Lemma service_counts_pos nc :
  registry_ok nc -> Forall (fun c => (1 <= c)%nat) (service_counts nc).
Proof.
  intros [_ [_ H]]. unfold service_counts. apply Forall_map.
  eapply Forall_impl; [|exact H]. cbn. intros s Hs. lia.
Qed.

Lemma service_counts_nth nc i c :
  nth_error (service_counts nc) i = Some c ->
  exists s, nth_error (registry nc) i = Some s /\ c = Z.to_nat (num_services s).
Proof.
  unfold service_counts. rewrite nth_error_map.
  destruct (nth_error (registry nc) i) as [s|]; [|discriminate].
  cbn. intros [= <-]. eauto.
Qed.

Lemma registry_nth nc arr i s :
  servers nc = Some arr -> nth_error (registry nc) i = Some s ->
  nth_error arr i = Some s /\ (i < Z.to_nat (num_servers nc))%nat.
Proof.
  intros Hs. unfold registry. rewrite Hs, nth_error_firstn.
  destruct (Nat.ltb_spec i (Z.to_nat (num_servers nc))); [auto|discriminate].
Qed.

Lemma cursor_ok_validp nc :
  cursor_ok nc ->
  let p := (Z.to_nat (curr_server nc), Z.to_nat (curr_service nc)) in
  cursor nc = endpoint_of p /\ validp (service_counts nc) p.
Proof.
  intros [s [Hl Hj]]. unfold zth in Hl.
  destruct (Z.ltb_spec (curr_server nc) 0); [discriminate|].
  split.
  - unfold cursor, endpoint_of. cbn. f_equal; lia.
  - exists (Z.to_nat (num_services s)). cbn. split; [|lia].
    unfold service_counts.
    now apply (map_nth_error (fun s => Z.to_nat (num_services s))).
Qed.

Lemma validp_cursor_ok nc p :
  cursor nc = endpoint_of p -> validp (service_counts nc) p -> cursor_ok nc.
Proof.
  destruct p as [i j]. unfold cursor, endpoint_of. cbn. intros [= Hi Hj] [c [Hc Hlt]].
  cbn in Hc, Hlt. apply service_counts_nth in Hc as [s [Hs ->]].
  exists s. unfold zth. rewrite Hi, Hj.
  destruct (Z.ltb_spec (Z.of_nat i) 0); [lia|].
  rewrite Nat2Z.id. split; [exact Hs|lia].
Qed.

Lemma choose_next_server_next nc p :
  registry_ok nc -> cursor nc = endpoint_of p ->
  validp (service_counts nc) p ->
  exists r nc',
    choose_next_server nc = Some (r, nc')
    /\ servers nc' = servers nc /\ num_servers nc' = num_servers nc
    /\ cursor nc' = endpoint_of (next (service_counts nc) p).
Proof.
  intros Hok Hcur Hv.
  pose proof (service_counts_length nc Hok) as Hlen.
  destruct Hok as [[arr [Hs Hcap]] [Hpos _]].
  destruct p as [i j]. destruct Hv as [c [Hc Hj]]. cbn in Hc, Hj.
  unfold cursor, endpoint_of in Hcur. cbn in Hcur. injection Hcur as Hi Hj'.
  pose proof (nth_error_nth _ _ 0%nat Hc) as Hnth.
  apply service_counts_nth in Hc as [s [Hr ->]].
  destruct (registry_nth nc arr i s Hs Hr) as [Harr Hlt].
  unfold choose_next_server, get_curr_server, load_server. rewrite Hs.
  unfold zth. rewrite Hi.
  destruct (Z.ltb_spec (Z.of_nat i) 0); [lia|]. rewrite Nat2Z.id, Harr.
  unfold next. cbn [fst snd]. rewrite Hnth, Hlen.
  cbn [servers num_servers curr_server curr_service
       set_curr_server set_curr_service].
  destruct (Z.ltb_spec (curr_service nc) (num_services s - 1)) as [Hm|Hm];
    destruct (Nat.ltb_spec (S j) (Z.to_nat (num_services s))) as [Hm'|Hm'];
    try lia.
  - eexists _, _. split; [reflexivity|]. cbn. split; [exact Hs|split; [reflexivity|]].
    unfold cursor, endpoint_of. cbn. f_equal; lia.
  - destruct (Z.ltb_spec 1 (num_servers nc)) as [Hn|Hn];
      destruct (Nat.ltb_spec 1 (Z.to_nat (num_servers nc))) as [Hn'|Hn'];
      try lia.
    + cbn [curr_server set_curr_server set_curr_service num_servers].
      destruct (Z.leb_spec (num_servers nc) (curr_server nc + 1)) as [Hw|Hw];
        destruct (Nat.leb_spec (Z.to_nat (num_servers nc)) (S i)) as [Hw'|Hw'];
        try lia;
        (eexists _, _; split; [reflexivity|]; cbn; split; [exact Hs|split; [reflexivity|]];
         unfold cursor, endpoint_of; cbn; f_equal; lia).
    + eexists _, _. split; [reflexivity|]. cbn. split; [exact Hs|split; [reflexivity|]].
      unfold cursor, endpoint_of. cbn. f_equal; lia.
Qed.

Lemma same_registry nc nc' :
  servers nc' = servers nc -> num_servers nc' = num_servers nc ->
  registry nc' = registry nc /\ service_counts nc' = service_counts nc
  /\ (registry_ok nc -> registry_ok nc').
Proof.
  intros Hs Hn.
  assert (E : registry nc' = registry nc) by (unfold registry; now rewrite Hs, Hn).
  split; [exact E|split; [unfold service_counts; now rewrite E|]].
  unfold registry_ok. now rewrite Hs, Hn, E.
Qed.

Lemma visits_orbit n : forall nc p,
  registry_ok nc -> cursor nc = endpoint_of p ->
  validp (service_counts nc) p ->
  visits n nc = Some (map endpoint_of (orbit (next (service_counts nc)) n p)).
Proof.
  induction n as [|n IH]; intros nc p Hok Hcur Hv; [reflexivity|].
  destruct (choose_next_server_next nc p Hok Hcur Hv)
    as [r [nc' [Hch [Hs [Hn Hc']]]]].
  destruct (same_registry nc nc' Hs Hn) as [_ [Ecs Hok']].
  destruct (next_rank _ p (service_counts_pos nc Hok) Hv) as [Hv' _].
  cbn [visits orbit map]. unfold advance. rewrite Hch.
  rewrite (IH nc' (next (service_counts nc) p)); rewrite ?Ecs; auto.
  now rewrite Hc'.
Qed.

Lemma endpoint_of_inj p q : endpoint_of p = endpoint_of q -> p = q.
Proof.
  destruct p, q. unfold endpoint_of. cbn. intros [= H1 H2].
  f_equal; lia.
Qed.

Lemma endpoints_NoDup nc : NoDup (endpoints nc).
Proof.
  unfold endpoints. apply NoDup_map_NoDup_ForallPairs; [|apply enum_NoDup].
  intros p q _ _. apply endpoint_of_inj.
Qed.

(** [endpoints] lists exactly the index pairs of the registry. *)
Lemma endpoints_spec nc i j :
  In (i, j) (endpoints nc) <->
  exists s, zth (registry nc) i = Some s /\ 0 <= j < num_services s.
Proof.
  unfold endpoints. rewrite in_map_iff. split.
  - intros [[a b] [E Hin]]. unfold endpoint_of in E. cbn in E.
    injection E as <- <-. apply enum_In in Hin as [c [Hc Hb]]. cbn in Hc, Hb.
    apply service_counts_nth in Hc as [s [Hs ->]].
    exists s. unfold zth. destruct (Z.ltb_spec (Z.of_nat a) 0); [lia|].
    rewrite Nat2Z.id. split; [exact Hs|lia].
  - intros [s [Hs Hj]]. unfold zth in Hs.
    destruct (Z.ltb_spec i 0); [discriminate|].
    exists (Z.to_nat i, Z.to_nat j). split.
    + unfold endpoint_of. cbn. f_equal; lia.
    + apply enum_In. exists (Z.to_nat (num_services s)). cbn. split; [|lia].
      unfold service_counts.
    now apply (map_nth_error (fun s => Z.to_nat (num_services s))).
Qed.

Lemma rotation_perm {A} (l : list A) k :
  Permutation (skipn k l ++ firstn k l) l.
Proof.
  rewrite <- (firstn_skipn k l) at 3. apply Permutation_app_comm.
Qed.

(** C7. On a registry of N servers with c1..cN services (each at least one)
    and from any cursor into it, c1+..+cN successive calls of
    [choose_next_server] select every (server, service) pair exactly once:
    the selected cursors are the server-major listing of the registry,
    rotated to start just after the starting cursor, so each server's
    services are exhausted before the next server is entered; with a single
    server the server index stays put. *)
Theorem choose_next_server_full_cycle (nc : network_client) :
  registry_ok nc -> cursor_ok nc ->
  exists k vs,
    nth_error (endpoints nc) k = Some (cursor nc)
    /\ List.length (endpoints nc) = list_sum (service_counts nc)
    /\ visits (list_sum (service_counts nc)) nc = Some vs
    /\ vs = skipn (S k) (endpoints nc) ++ firstn (S k) (endpoints nc)
    /\ NoDup vs
    /\ (forall i j, In (i, j) vs <->
          exists s, zth (registry nc) i = Some s /\ 0 <= j < num_services s)
    /\ (num_servers nc = 1 -> forall p, In p vs -> fst p = curr_server nc).
Proof.
  intros Hok Hcur.
  destruct (cursor_ok_validp nc Hcur) as [Hc Hv].
  set (p := (Z.to_nat (curr_server nc), Z.to_nat (curr_service nc))) in *.
  set (cs := service_counts nc) in *.
  pose proof (service_counts_pos nc Hok) as Hpos. fold cs in Hpos.
  exists (rank cs p), (skipn (S (rank cs p)) (endpoints nc)
                       ++ firstn (S (rank cs p)) (endpoints nc)).
  assert (Hperm : Permutation
            (skipn (S (rank cs p)) (endpoints nc)
             ++ firstn (S (rank cs p)) (endpoints nc)) (endpoints nc))
    by apply rotation_perm.
  assert (Hin : forall i j,
            In (i, j) (skipn (S (rank cs p)) (endpoints nc)
                       ++ firstn (S (rank cs p)) (endpoints nc)) <->
            exists s, zth (registry nc) i = Some s /\ 0 <= j < num_services s).
  { intros i j. rewrite <- endpoints_spec. split; intros H.
    - eapply Permutation_in; [exact Hperm|exact H].
    - eapply Permutation_in; [symmetry; exact Hperm|exact H]. }
  repeat split.
  - rewrite Hc. unfold endpoints. fold cs. apply map_nth_error.
    destruct p as [i j]. apply (enum_at cs 0 i j Hv).
  - unfold endpoints. now rewrite length_map, enum_length.
  - rewrite (visits_orbit _ nc p Hok Hc Hv). fold cs.
    rewrite (next_orbit cs p Hpos Hv). unfold endpoints. fold cs.
    now rewrite map_app, skipn_map, firstn_map.
  - eapply Permutation_NoDup; [symmetry; exact Hperm|apply endpoints_NoDup].
  - apply Hin.
  - apply Hin.
  - intros H1 [i j] Hp. apply Hin in Hp as [s [Hs _]]. cbn.
    destruct Hcur as [s' [Hs' _]]. unfold zth in Hs, Hs'.
    destruct (Z.ltb_spec i 0); [discriminate|].
    destruct (Z.ltb_spec (curr_server nc) 0); [discriminate|].
    pose proof (registry_length nc Hok) as Hl. rewrite H1 in Hl.
    change (Z.to_nat 1) with 1%nat in Hl.
    assert (Z.to_nat i < 1)%nat
      by (rewrite <- Hl; apply nth_error_Some; congruence).
    assert (Z.to_nat (curr_server nc) < 1)%nat
      by (rewrite <- Hl; apply nth_error_Some; congruence).
    lia.
Qed.

(** ** The loop invariant *)

Lemma absorb_client w e : client (absorb w e) = client w.
Proof.
  destruct e; cbn; try reflexivity.
  - destruct (rc =? 0); reflexivity.
  - destruct (rc =? 0); reflexivity.
  - destruct session; reflexivity.
Qed.

Lemma emit_client ev : forall w, client (emit ev w) = client w.
Proof.
  induction ev as [|e ev IH]; intros w; cbn; [reflexivity|].
  unfold emit in IH. now rewrite IH, absorb_client.
Qed.

Lemma emit_app ev1 ev2 w : emit (ev1 ++ ev2) w = emit ev2 (emit ev1 w).
Proof. unfold emit. apply fold_left_app. Qed.

Lemma trace_absorb w e : trace (absorb w e) = trace w ++ [e].
Proof.
  destruct e; cbn; try reflexivity.
  - destruct (rc =? 0); reflexivity.
  - destruct (rc =? 0); reflexivity.
  - destruct session; reflexivity.
Qed.

Lemma trace_emit ev : forall w, trace (emit ev w) = trace w ++ ev.
Proof.
  induction ev as [|e ev IH]; intros w; cbn.
  - now rewrite app_nil_r.
  - unfold emit in IH. rewrite IH, trace_absorb, <- app_assoc. reflexivity.
Qed.

(** Retiring an operation and leaving the watchers out commute. *)
Lemma filter_retire_requests op fl :
  filter is_request (filter (fun o => negb (async_op_eqb o op)) fl)
  = filter (fun o => negb (async_op_eqb o op)) (filter is_request fl).
Proof.
  induction fl as [|o fl IH]; cbn; [reflexivity|].
  destruct o, op; cbn; rewrite ?IH; reflexivity.
Qed.

Lemma requests_retire op w :
  requests (retire op w)
  = filter (fun o => negb (async_op_eqb o op)) (requests w).
Proof. apply filter_retire_requests. Qed.

Lemma pending_requests op w :
  is_request op = true ->
  pending op w = existsb (async_op_eqb op) (requests w).
Proof.
  intros H. unfold pending, requests.
  induction (inflight w) as [|o fl IH]; cbn; [reflexivity|].
  destruct o, op; cbn in *; try discriminate; rewrite ?IH; reflexivity.
Qed.

(** What closing a connection does to the loop's books. *)
Lemma set_closed_world nc w :
  (live_tls w = [] \/ exists t, live_tls w = [t] /\ tls nc = Some t) ->
  exists nc' ev,
    set_closed nc = (nc', ev)
    /\ state nc' = network_client_closed /\ tls nc' = tls nc
    /\ (tls_state nc = 0 -> tls_state nc' = 0)
    /\ inflight (emit ev (with_client nc' w)) = inflight w
    /\ closing (emit ev (with_client nc' w)) = closing w
    /\ live_tls (emit ev (with_client nc' w)) = []
    /\ conn_data (emit ev (with_client nc' w)) = conn_data w.
Proof.
  intros Hl. destruct w as [c fl cl ar lv tr cd]. cbn in Hl.
  destruct nc as [sv ns cs cv ai tl ts st rcb ra ccb ca xcb xa].
  unfold set_closed. cbn.
  destruct ai, tl, xcb; cbn;
    (eexists _, _; split; [reflexivity|]; cbn; repeat split; auto;
     destruct Hl as [->|[t [-> E]]]; cbn; auto;
     try (injection E as ->; now rewrite Z.eqb_refl); try discriminate).
Qed.

(** Closing from a state with no request in flight ends in a state of the
    invariant. *)
Lemma set_closed_inv nc w nc' ev :
  (live_tls w = [] \/ exists t, live_tls w = [t] /\ tls nc = Some t) ->
  tls_state nc = 0 -> requests w = [] -> closing w = false ->
  set_closed nc = (nc', ev) ->
  loop_inv (emit ev (with_client nc' w)).
Proof.
  intros Hl Hts Hrq Hcl E.
  destruct (set_closed_world nc w Hl)
    as [nc1 [ev1 [E1 [Hs [_ [Ht [Hf [Hc [Hlv _]]]]]]]]].
  rewrite E in E1. injection E1 as <- <-.
  unfold loop_inv, requests. rewrite emit_client. cbn [client with_client].
  rewrite Hs, Hf, Hc, Hlv. auto.
Qed.

Lemma pending_resolve_inv w :
  loop_inv w -> pending op_resolve w = true ->
  state (client w) = network_client_resolving
  /\ requests w = [op_resolve] /\ closing w = false /\ live_tls w = []
  /\ tls_state (client w) = 0.
Proof.
  rewrite (pending_requests op_resolve) by reflexivity.
  unfold loop_inv. destruct (state (client w)); intros H Hp;
    repeat match goal with
           | H : _ /\ _ |- _ => destruct H
           | H : _ \/ _ |- _ => destruct H
           end;
    match goal with H : requests w = _ |- _ => rewrite H in Hp end;
    cbn in Hp; try discriminate; auto.
Qed.

Lemma pending_connect_inv w :
  loop_inv w -> pending op_connect w = true ->
  state (client w) = network_client_connecting
  /\ requests w = [op_connect] /\ closing w = false /\ live_tls w = []
  /\ tls_state (client w) = 0.
Proof.
  rewrite (pending_requests op_connect) by reflexivity.
  unfold loop_inv. destruct (state (client w)); intros H Hp;
    repeat match goal with
           | H : _ /\ _ |- _ => destruct H
           | H : _ \/ _ |- _ => destruct H
           end;
    match goal with H : requests w = _ |- _ => rewrite H in Hp end;
    cbn in Hp; try discriminate; auto.
Qed.

Lemma closing_inv w :
  loop_inv w -> closing w = true ->
  state (client w) = network_client_connected
  /\ requests w = [] /\ held w /\ tls_state (client w) = 0.
Proof.
  unfold loop_inv. destruct (state (client w)); intros H Hc;
    repeat match goal with
           | H : _ /\ _ |- _ => destruct H
           end; try congruence; auto.
Qed.

(** A call that leaves the state, the session pointer and [tls_state] alone
    and has no effect outside the client keeps the invariant. *)
Lemma with_client_inv nc w :
  state nc = state (client w) -> tls nc = tls (client w) ->
  tls_state nc = tls_state (client w) ->
  loop_inv w -> loop_inv (with_client nc w).
Proof.
  intros Hs Ht Hts. unfold loop_inv, held, requests. cbn.
  now rewrite Hs, Ht, Hts.
Qed.

Lemma add_server_frame nc u h j rc nc' h' :
  network_client_add_server nc u h j = Some (rc, nc', h') ->
  state nc' = state nc /\ tls nc' = tls nc
  /\ cursor nc' = cursor nc /\ close_cb nc' = close_cb nc
  /\ connect_cb nc' = connect_cb nc.
Proof.
  unfold network_client_add_server.
  destruct (alloc h) as [ok h1]. destruct ok; cbn [negb].
  - destruct (zth _ _) as [slot|]; [|discriminate].
    destruct (parse_server slot u h1) as [[[r srv] h2]|]; [|discriminate].
    destruct (negb (r =? 0)); intros [= <- <- <-]; cbn; auto 6.
  - intros [= <- <- <-]. cbn. auto 6.
Qed.

Lemma add_server_tls_state nc u h j rc nc' h' :
  network_client_add_server nc u h j = Some (rc, nc', h') ->
  tls_state nc' = tls_state nc.
Proof.
  unfold network_client_add_server.
  destruct (alloc h) as [ok h1]. destruct ok; cbn [negb].
  - destruct (zth _ _) as [slot|]; [|discriminate].
    destruct (parse_server slot u h1) as [[[r srv] h2]|]; [|discriminate].
    destruct (negb (r =? 0)); intros [= <- <- <-]; reflexivity.
  - intros [= <- <- <-]. reflexivity.
Qed.

Lemma remove_servers_frame nc rc nc' :
  network_client_remove_servers nc = Some (rc, nc') ->
  state nc' = state nc /\ tls nc' = tls nc
  /\ cursor nc' = cursor nc /\ servers nc' = None /\ rc = 0
  /\ (servers nc = None \/ num_servers nc' = 0).
Proof.
  unfold network_client_remove_servers.
  destruct (servers nc) as [arr|] eqn:Hs.
  - destruct (_ <? _); [discriminate|].
    destruct (servers_free _); [|discriminate].
    intros [= <- <-]. cbn. auto 8.
  - intros [= <- <-]. auto 8.
Qed.

Lemma remove_servers_tls_state nc rc nc' :
  network_client_remove_servers nc = Some (rc, nc') ->
  tls_state nc' = tls_state nc.
Proof.
  unfold network_client_remove_servers.
  destruct (servers nc) as [arr|].
  - destruct (_ <? _); [discriminate|].
    destruct (servers_free _); [|discriminate].
    intros [= <- <-]. reflexivity.
  - intros [= <- <-]. reflexivity.
Qed.

Lemma choose_next_server_frame nc r nc' :
  choose_next_server nc = Some (r, nc') ->
  state nc' = state nc /\ tls nc' = tls nc /\ servers nc' = servers nc
  /\ num_servers nc' = num_servers nc /\ r = get_curr_server nc'.
Proof.
  unfold choose_next_server.
  destruct (match get_curr_server nc with Some _ => _ | None => _ end)
    as [more|]; [|discriminate].
  destruct more; [intros [= <- <-]; cbn; auto 6|].
  cbn [num_servers set_curr_service set_curr_server curr_server].
  destruct (1 <? num_servers nc); [|intros [= <- <-]; cbn; auto 6].
  destruct (num_servers nc <=? curr_server nc + 1);
    intros [= <- <-]; cbn; auto 6.
Qed.

Lemma choose_next_server_tls_state nc r nc' :
  choose_next_server nc = Some (r, nc') -> tls_state nc' = tls_state nc.
Proof.
  unfold choose_next_server.
  destruct (match get_curr_server nc with Some _ => _ | None => _ end)
    as [more|]; [|discriminate].
  destruct more; [intros [= <- <-]; reflexivity|].
  cbn [num_servers set_curr_service set_curr_server curr_server].
  destruct (1 <? num_servers nc); [|intros [= <- <-]; reflexivity].
  destruct (num_servers nc <=? curr_server nc + 1);
    intros [= <- <-]; reflexivity.
Qed.

(** ** TLS session ownership: which steps allocate *)

Lemma live_emit ev : forall w,
  allocates_none ev = true ->
  forall t, In t (live_tls (emit ev w)) -> In t (live_tls w).
Proof.
  induction ev as [|e ev IH]; intros w Hq t; cbn; [auto|].
  cbn in Hq. apply andb_true_iff in Hq as [He Hq].
  intros Hin. apply (IH _ Hq) in Hin. revert Hin.
  destruct e; cbn; auto.
  - destruct (rc =? 0); cbn; auto.
  - destruct (rc =? 0); cbn; auto.
  - destruct session; [discriminate|auto].
  - intros Hin. apply filter_In in Hin. tauto.
Qed.

Lemma set_closed_allocates_none nc : allocates_none (snd (set_closed nc)) = true.
Proof.
  destruct nc as [sv ns cs cv ai tl ts st rcb ra ccb ca xcb xa].
  unfold set_closed. cbn. destruct ai, tl, xcb; reflexivity.
Qed.

Lemma allocates_none_app ev1 ev2 :
  allocates_none (ev1 ++ ev2) = allocates_none ev1 && allocates_none ev2.
Proof. unfold allocates_none. apply forallb_app. Qed.

Lemma resolving_cb_allocates_none status ai rc nc nc' ev :
  resolving_cb status ai rc nc = Some (nc', ev) -> allocates_none ev = true.
Proof.
  unfold resolving_cb. destruct (status <? 0).
  - destruct (load_server _ _); [|discriminate].
    destruct (get_curr_service _); [|discriminate].
    intros [= E]. pose proof (set_closed_allocates_none nc) as H.
    now rewrite E in H.
  - destruct (load_server _ _) as [s|]; [|discriminate].
    destruct (proto s); cbn [connect_udp connect_tcp].
    + cbn. intros [= _ <-]. unfold fire. destruct (connect_cb nc); reflexivity.
    + destruct (rc =? 0); [intros [= _ <-]; reflexivity|].
      pose proof (set_closed_allocates_none (set_addrinfo (Some ai) nc)) as H.
      destruct (set_closed _) as [a b]. intros [= _ <-]. exact H.
    + destruct (rc =? 0); [intros [= _ <-]; reflexivity|].
      pose proof (set_closed_allocates_none (set_addrinfo (Some ai) nc)) as H.
      destruct (set_closed _) as [a b]. intros [= _ <-]. exact H.
Qed.

(** Only the callback of a successful transport connect to a server whose
    protocol is not TCP adds a live session. *)
Lemma step_allocates l w w' :
  step l w = Some w' ->
  (forall t, In t (live_tls w') -> In t (live_tls w))
  \/ exists session fd stp p,
       l = L_connected 0 session fd stp
       /\ current_proto (client w) = Some p /\ p <> network_client_proto_tcp.
Proof.
  destruct l; cbn [step].
  - destruct (network_client_add_server _ _ _ _) as [[[rc nc] h']|];
      [|discriminate]. intros [= <-]. left. auto.
  - destruct (network_client_remove_servers _) as [[rc nc]|];
      [|discriminate]. intros [= <-]. left. auto.
  - intros [= <-]. left. auto.
  - intros [= <-]. left. auto.
  - intros [= <-]. left. auto.
  - unfold network_client_start. destruct (negb _); intros [= <-]; left; auto.
  - intros [= <-]. left. auto.
  - destruct (_ && _); [discriminate|]. unfold network_client_close.
    destruct (negb _); intros [= <-]; left; cbn; auto.
  - destruct (armed w); [|discriminate]. unfold reconnect_cb.
    destruct (_ || _); [intros [= <-]; left; auto|].
    destruct (choose_next_server _) as [[srv nc]|]; [|discriminate].
    destruct (get_curr_service nc); [|discriminate].
    destruct (load_server nc srv); [|discriminate].
    intros [= <-]. left. cbn. destruct (rc =? 0); auto.
  - destruct (pending op_resolve w); [|discriminate].
    destruct (resolving_cb _ _ _ _) as [[nc ev]|] eqn:E; [|discriminate].
    intros [= <-]. left. intros t Hin.
    apply (live_emit ev _ (resolving_cb_allocates_none _ _ _ _ _ _ E)) in Hin.
    exact Hin.
  - destruct (pending op_connect w); [|discriminate].
    unfold connect_tcp_cb, current_proto.
    destruct (Z.eqb_spec status 0) as [->|Hne]; cbn [negb].
    + destruct (load_server _ _) as [s|]; [|discriminate].
      destruct (proto s) eqn:Hp; cbn [proto_eqb option_map].
      * intros _. right. exists session, fd, step0, network_client_proto_udp.
        rewrite Hp. repeat split. discriminate.
      * intros [= <-]. left. intros t Hin.
        apply live_emit in Hin; [exact Hin|].
        unfold fire. destruct (connect_cb _); reflexivity.
      * intros _. right. exists session, fd, step0, network_client_proto_tls.
        rewrite Hp. repeat split. discriminate.
    + destruct (load_server _ _); [|discriminate].
      destruct (get_curr_service _); [|discriminate].
      pose proof (set_closed_allocates_none (client w)) as H.
      destruct (set_closed (client w)) as [a b]. intros [= <-]. left.
      intros t Hin. apply (live_emit _ _ H) in Hin. exact Hin.
  - destruct (pending op_handshake w); [|discriminate].
    unfold on_poll.
    destruct (conn_state_eqb _ _); [|intros [= <-]; left; auto].
    destruct (_ || _); [|intros [= <-]; left; auto].
    cbn [tls_state set_tls_state].
    destruct (step0 =? 0); [|destruct (step0 =? -1)];
      intros [= <-]; left; auto.
  - destruct (closing w); [|discriminate]. unfold on_close.
    destruct (conn_data w); [|discriminate].
    pose proof (set_closed_allocates_none (client w)) as H.
    destruct (set_closed (client w)) as [a b]. intros [= <-]. left.
    intros t Hin. apply (live_emit _ _ H) in Hin. exact Hin.
Qed.

(** ** States reached from construction *)

Section RetryCodes.

(** A completed handshake step returns 0: the retry codes differ from it.
    A watcher left over from an earlier attempt can fire in any state;
    outside a handshake [tls_state] is 0, which the readiness handler takes
    for a request to step only when 0 is a retry code. *)
Hypothesis read_again_nonzero : TLS_READ_AGAIN <> 0.
Hypothesis write_again_nonzero : TLS_WRITE_AGAIN <> 0.

(** With [tls_state] at 0 the readiness handler does nothing, whichever
    watcher calls it. *)
Lemma on_poll_idle stp nc : tls_state nc = 0 -> on_poll stp nc = (nc, []).
Proof.
  intros Hts. unfold on_poll. rewrite Hts.
  destruct (conn_state_eqb _ _); [|reflexivity].
  destruct (Z.eqb_spec 0 TLS_READ_AGAIN); [congruence|].
  destruct (Z.eqb_spec 0 TLS_WRITE_AGAIN); [congruence|].
  reflexivity.
Qed.

Lemma step_inv l w w' : loop_inv w -> step l w = Some w' -> loop_inv w'.
Proof.
  intros Hinv. destruct l; cbn [step].
  - (* add_server *)
    destruct (network_client_add_server _ _ _ _) as [[[rc nc] h']|] eqn:E;
      [|discriminate].
    intros [= <-]. pose proof (add_server_tls_state _ _ _ _ _ _ _ E).
    apply add_server_frame in E as [Hs [Ht _]].
    now apply with_client_inv.
  - (* remove_servers *)
    destruct (network_client_remove_servers _) as [[rc nc]|] eqn:E;
      [|discriminate].
    intros [= <-]. pose proof (remove_servers_tls_state _ _ _ E).
    apply remove_servers_frame in E as [Hs [Ht _]].
    now apply with_client_inv.
  - intros [= <-]. now apply with_client_inv.
  - intros [= <-]. now apply with_client_inv.
  - intros [= <-]. now apply with_client_inv.
  - (* start *)
    unfold network_client_start. destruct (negb (init_rc =? 0)); intros [= <-].
    + now apply with_client_inv.
    + destruct w. exact Hinv.
  - (* stop *)
    intros [= <-]. destruct w. exact Hinv.
  - (* close *)
    destruct (closing w && _) eqn:Hc; [discriminate|].
    unfold network_client_close.
    destruct (state (client w)) eqn:Hst; cbn [conn_state_eqb negb];
      intros [= <-]; try (destruct w; exact Hinv).
    destruct w as [nc fl cl ar lv tr cd]. unfold loop_inv, held, requests in *.
    cbn in *. rewrite Hst in *. exact Hinv.
  - (* timer *)
    destruct (armed w); [|discriminate].
    unfold reconnect_cb.
    destruct (negb (conn_state_eqb (state (client w)) network_client_closed)
              || (num_servers (client w) =? 0)) eqn:Hg.
    + intros [= <-]. destruct w; exact Hinv.
    + destruct (choose_next_server (client w)) as [[srv nc]|] eqn:E;
        [|discriminate].
      destruct (get_curr_service nc); [|discriminate].
      destruct (load_server nc srv); [|discriminate].
      intros [= <-].
      pose proof (choose_next_server_tls_state _ _ _ E) as Hts.
      apply choose_next_server_frame in E as [Hs [Ht _]].
      apply orb_false_iff in Hg as [Hg _].
      destruct w as [c fl cl ar lv tr cd]. unfold loop_inv, requests in *.
      cbn in *.
      destruct (state c); try discriminate.
      destruct Hinv as [Hrq [-> [-> Hz]]].
      destruct (rc =? 0); cbn; rewrite Hrq; repeat split; auto; congruence.
  - (* resolved *)
    destruct (pending op_resolve w) eqn:Hp; [|discriminate].
    destruct (pending_resolve_inv w Hinv Hp) as [Hst [Hrq [Hcl [Hlv Hts]]]].
    assert (Hrq0 : requests (retire op_resolve w) = [])
      by (rewrite requests_retire, Hrq; reflexivity).
    unfold resolving_cb.
    destruct (status <? 0).
    + destruct (load_server _ _); [|discriminate].
      destruct (get_curr_service _); [|discriminate].
      destruct (set_closed (client w)) as [nc' ev] eqn:E. intros [= <-].
      apply (set_closed_inv (client w)); auto.
    + destruct (load_server _ _) as [s|]; [|discriminate].
      destruct (proto s); cbn [connect_udp connect_tcp].
      * (* udp *)
        cbn. intros [= <-]. unfold loop_inv, held, requests in *.
        rewrite emit_client. cbn [client with_client state set_state].
        destruct w as [c fl cl ar lv tr cd]. cbn in *. subst.
        destruct (connect_cb c); cbn; rewrite Hrq0; auto.
      * (* tcp *)
        destruct (rc =? 0) eqn:Hrc.
        -- intros [= <-]. destruct w as [c fl cl ar lv tr cd].
           unfold loop_inv, requests in *. cbn in *. subst.
           rewrite Hrc. cbn. rewrite Hrq0. auto 6.
        -- destruct (set_closed (set_addrinfo (Some ai) (client w)))
             as [nc' ev] eqn:E. intros [= <-]. rewrite Hrc.
           eapply (set_closed_inv _ (mk_world (client w) _ _ _ _ _ _));
             [| | | |exact E]; cbn; auto.
      * (* tls *)
        destruct (rc =? 0) eqn:Hrc.
        -- intros [= <-]. destruct w as [c fl cl ar lv tr cd].
           unfold loop_inv, requests in *. cbn in *. subst.
           rewrite Hrc. cbn. rewrite Hrq0. auto 6.
        -- destruct (set_closed (set_addrinfo (Some ai) (client w)))
             as [nc' ev] eqn:E. intros [= <-]. rewrite Hrc.
           eapply (set_closed_inv _ (mk_world (client w) _ _ _ _ _ _));
             [| | | |exact E]; cbn; auto.
  - (* connected *)
    destruct (pending op_connect w) eqn:Hp; [|discriminate].
    destruct (pending_connect_inv w Hinv Hp) as [Hst [Hrq [Hcl [Hlv Hts]]]].
    assert (Hrq0 : requests (retire op_connect w) = [])
      by (rewrite requests_retire, Hrq; reflexivity).
    unfold connect_tcp_cb.
    destruct (negb (status =? 0)).
    + destruct (load_server _ _); [|discriminate].
      destruct (get_curr_service _); [|discriminate].
      destruct (set_closed (client w)) as [nc' ev] eqn:E. intros [= <-].
      apply (set_closed_inv (client w)); auto.
    + destruct (load_server _ _) as [s|]; [|discriminate].
      destruct (proto_eqb (proto s) network_client_proto_tcp).
      * intros [= <-]. unfold loop_inv, held, requests in *.
        rewrite emit_client. cbn [client with_client state set_state].
        destruct w as [c fl cl ar lv tr cd]. cbn in *. subst.
        destruct (connect_cb c); cbn; rewrite Hrq0; auto.
      * cbn [tls set_tls]. destruct session as [t|].
        -- destruct fd as [sock|]; intros [= <-];
             destruct w as [c fl cl ar lv tr cd];
             unfold loop_inv, held, requests in *; cbn in *; subst;
             rewrite Hst, Hrq0; eauto 8.
        -- destruct (set_closed (set_tls None (client w))) as [nc' ev] eqn:E.
           intros [= <-].
           eapply (set_closed_inv _ (mk_world (client w) _ _ _ _ _ _));
             [| | | |exact E]; cbn; auto.
  - (* readable *)
    destruct (pending op_handshake w) eqn:Hp; [|discriminate].
    destruct (on_poll step0 (client w)) as [nc ev] eqn:E. intros [= <-].
    assert (Hsame : (nc, ev) = (client w, []) ->
                    loop_inv (emit ev (with_client nc w))).
    { intros [= -> ->]. destruct w; exact Hinv. }
    unfold loop_inv in Hinv.
    destruct (state (client w)) eqn:Hst.
    + apply Hsame. rewrite <- E. apply on_poll_idle. tauto.
    + apply Hsame. rewrite <- E. apply on_poll_idle. tauto.
    + destruct Hinv as [Hcl [[Hrq Hh]|[Hrq [Hlv Hts]]]].
      * revert E. unfold on_poll. rewrite Hst. cbn [conn_state_eqb].
        destruct ((tls_state (client w) =? TLS_READ_AGAIN)
                  || (tls_state (client w) =? TLS_WRITE_AGAIN));
          [|intros [= <- <-]; apply Hsame; reflexivity].
        cbn [tls_state set_tls_state tls].
        destruct w as [c fl cl ar lv tr cd]. unfold held, requests in *.
        cbn in *. subst.
        destruct (Z.eqb_spec step0 0) as [->|Hne]; [|destruct (step0 =? -1)];
          intros [= <- <-]; unfold loop_inv, held, requests; cbn;
          rewrite ?Hst; auto.
      * apply Hsame. rewrite <- E. apply on_poll_idle. exact Hts.
    + apply Hsame. rewrite <- E. apply on_poll_idle. tauto.
  - (* closed *)
    destruct (closing w) eqn:Hc; [|discriminate].
    destruct (closing_inv w Hinv Hc) as [Hst [Hrq [Hh Hts]]].
    unfold on_close. destruct (conn_data w); [|discriminate].
    destruct (set_closed (client w)) as [nc' ev] eqn:E. intros [= <-].
    change (mk_world nc' (inflight w) false (armed w) (live_tls w) (trace w) true)
      with (with_client nc'
              (mk_world (client w) (inflight w) false (armed w) (live_tls w)
                        (trace w) true)).
    apply (set_closed_inv (client w)); auto.
Qed.

Lemma run_inv ls : forall w w', loop_inv w -> run ls w = Some w' -> loop_inv w'.
Proof.
  induction ls as [|l ls IH]; intros w w' Hinv; cbn.
  - now intros [= <-].
  - destruct (step l w) as [w1|] eqn:E; [|discriminate].
    apply IH. eapply step_inv; eauto.
Qed.

Lemma reachable_inv w : reachable w -> loop_inv w.
Proof.
  intros [ls H]. eapply run_inv; [|exact H]. cbn. auto.
Qed.

(** ** Reconnect scheduler *)


(** ** TLS session ownership *)

(** C5 (amended). In every state a client reaches from construction, a
    live TLS session is held only while the state is Connecting or
    Connected, at most one is live and it is the one the client points to,
    and none is live in Closed; the only step that adds a live session is
    the callback of a successful transport connect to a server whose
    protocol is not TCP. *)
Theorem tls_session_scope (ls : list label) (w : world) :
  run ls world0 = Some w ->
  (live_tls w <> [] ->
     state (client w) = network_client_connecting
     \/ state (client w) = network_client_connected)
  /\ (state (client w) = network_client_closed -> live_tls w = [])
  /\ (List.length (live_tls w) <= 1)%nat
  /\ (forall t, In t (live_tls w) -> tls (client w) = Some t)
  /\ (forall l w',
        step l w = Some w' ->
        (forall t, In t (live_tls w') -> In t (live_tls w))
        \/ exists session fd stp p,
             l = L_connected 0 session fd stp
             /\ current_proto (client w) = Some p
             /\ p <> network_client_proto_tcp).
Proof.
  intros Hrun.
  assert (Hinv : loop_inv w) by (apply reachable_inv; now exists ls).
  unfold loop_inv, held in Hinv.
  split; [|split; [|split; [|split]]].
  - intros Hl. destruct (state (client w)); auto;
      destruct Hinv as [_ [_ [E _]]]; congruence.
  - intros E. rewrite E in Hinv. tauto.
  - destruct (state (client w));
      repeat match goal with
             | H : _ /\ _ |- _ => destruct H
             | H : _ \/ _ |- _ => destruct H
             | H : exists _, _ |- _ => destruct H
             end;
      match goal with H : live_tls w = _ |- _ => rewrite H end; cbn; lia.
  - intros t Hin. destruct (state (client w));
      repeat match goal with
             | H : _ /\ _ |- _ => destruct H
             | H : _ \/ _ |- _ => destruct H
             | H : exists _, _ |- _ => destruct H
             end;
      match goal with H : live_tls w = _ |- _ => rewrite H in Hin end;
      cbn in Hin; try tauto;
      destruct Hin as [<-|[]]; assumption.
  - intros l w'. apply step_allocates.
Qed.

End RetryCodes.

(** ** Resolution and connect callbacks *)

Lemma set_closed_callbacks nc :
  state (fst (set_closed nc)) = network_client_closed
  /\ callbacks cb_connect (snd (set_closed nc)) = 0%nat
  /\ callbacks cb_close (snd (set_closed nc))
     = match close_cb nc with Some _ => 1%nat | None => 0%nat end.
Proof.
  destruct nc as [sv ns cs cv ai tl ts st rcb ra ccb ca xcb xa].
  unfold set_closed, callbacks. cbn.
  destruct ai, tl, xcb; cbn; auto.
Qed.

Lemma resolution_failure_closes_any nc status ai rc :
  has_target nc -> status < 0 ->
  exists nc' ev,
    resolving_cb status ai rc nc = Some (nc', ev)
    /\ state nc' = network_client_closed
    /\ callbacks cb_connect ev = 0%nat
    /\ callbacks cb_close ev
       = match close_cb nc with Some _ => 1%nat | None => 0%nat end.
Proof.
  intros [s [v [Hs Hv]]] Hneg. unfold resolving_cb.
  destruct (Z.ltb_spec status 0); [|lia]. rewrite Hs, Hv.
  exists (fst (set_closed nc)), (snd (set_closed nc)).
  split; [now destruct (set_closed nc)|]. apply set_closed_callbacks.
Qed.

(** C9. When name resolution fails for the current target, the state
    becomes Closed, the connect callback is not invoked, and the close
    callback is invoked exactly once (when one is registered). *)
Theorem resolution_failure_closes (nc : network_client) (status ai rc : Z) :
  has_target nc -> status < 0 ->
  exists nc' ev,
    resolving_cb status ai rc nc = Some (nc', ev)
    /\ state nc' = network_client_closed
    /\ callbacks cb_connect ev = 0%nat
    /\ callbacks cb_close ev
       = match close_cb nc with Some _ => 1%nat | None => 0%nat end.
Proof. exact (resolution_failure_closes_any nc status ai rc). Qed.

(** C10. For a UDP target, a successful resolution invokes the connect
    callback on a client still in Resolving and sets Connected after it;
    for a TCP target, a successful transport connect sets Connected and
    then invokes the connect callback. *)
Theorem connect_cb_order (nc : network_client) (s : network_client_server)
        (f : Z) :
  load_server nc (get_curr_server nc) = Some s ->
  connect_cb nc = Some f ->
  (proto s = network_client_proto_udp ->
   state nc = network_client_resolving ->
   forall status ai rc, 0 <= status ->
   exists nc' seen,
     resolving_cb status ai rc nc
       = Some (nc', [Ev_uv_udp_init; Ev_callback cb_connect f (connect_cb_arg nc) seen])
     /\ state seen = network_client_resolving
     /\ state nc' = network_client_connected)
  /\ (proto s = network_client_proto_tcp ->
      forall session fd stp,
      exists nc' seen,
        connect_tcp_cb 0 session fd stp nc
          = Some (nc', [Ev_callback cb_connect f (connect_cb_arg nc) seen])
        /\ state seen = network_client_connected
        /\ state nc' = network_client_connected).
Proof.
  intros Hs Hcb. split.
  - intros Hp Hst status ai rc Hok. unfold resolving_cb.
    destruct (Z.ltb_spec status 0); [lia|].
    assert (E : load_server (set_addrinfo (Some ai) nc)
                  (get_curr_server nc) = Some s) by exact Hs.
    rewrite E, Hp. cbn. rewrite Hcb. cbn.
    eexists _, _. split; [reflexivity|]. cbn. auto.
  - intros Hp session fd stp. unfold connect_tcp_cb. cbn [Z.eqb negb].
    rewrite Hs, Hp. cbn. rewrite Hcb. cbn.
    eexists _, _. split; [reflexivity|]. cbn. auto.
Qed.

(** ** TLS handshake driver *)

(** C1 (what the code does). A handshake step that reports success moves
    the client from Connecting to Connected, and nothing but the handshake
    call happens: the connect callback is not invoked, whether one is
    registered or not. *)
Theorem handshake_success_skips_connect_cb (nc : network_client) :
  state nc = network_client_connecting -> wants_step nc ->
  exists nc',
    on_poll 0 nc = (nc', [Ev_tls_connect_socket (tls nc) 0])
    /\ state nc' = network_client_connected
    /\ connect_cb nc' = connect_cb nc
    /\ callbacks cb_connect (snd (on_poll 0 nc)) = 0%nat.
Proof.
  intros Hst Hw. unfold on_poll. rewrite Hst. cbn [conn_state_eqb].
  assert (E : (tls_state nc =? TLS_READ_AGAIN)
              || (tls_state nc =? TLS_WRITE_AGAIN) = true).
  { destruct Hw as [->| ->]; rewrite Z.eqb_refl; cbn; auto using orb_true_r. }
  rewrite E. cbn. eexists. split; [reflexivity|]. cbn. auto.
Qed.

(** C2 (what the code does). A handshake step that fails for good (-1)
    leaves the client in Connecting: nothing is closed and no callback is
    invoked. *)
Theorem fatal_handshake_stays_connecting (nc : network_client) :
  state nc = network_client_connecting -> wants_step nc ->
  exists nc',
    on_poll (-1) nc = (nc', [Ev_tls_connect_socket (tls nc) (-1)])
    /\ state nc' = network_client_connecting
    /\ tls_state nc' = -1.
Proof.
  intros Hst Hw. unfold on_poll. rewrite Hst. cbn [conn_state_eqb].
  assert (E : (tls_state nc =? TLS_READ_AGAIN)
              || (tls_state nc =? TLS_WRITE_AGAIN) = true).
  { destruct Hw as [->| ->]; rewrite Z.eqb_refl; cbn; auto using orb_true_r. }
  rewrite E. cbn. eexists. split; [reflexivity|]. cbn. auto.
Qed.

(** ** Registry updates *)

(** C3 (what the code does). When the [reallocarray] of the server block
    fails, [add_server] reports -1 but has already overwritten
    [nc->servers] with [NULL]: the count is unchanged and every registered
    server is lost. *)
Theorem add_server_alloc_failure_drops_registry
        (nc : network_client) (u : string) (h : heap)
        (junk : network_client_server) :
  exists nc',
    network_client_add_server nc u (false :: h) junk = Some (-1, nc', h)
    /\ num_servers nc' = num_servers nc
    /\ servers nc' = None
    /\ registry nc' = [].
Proof.
  eexists. split; [reflexivity|]. cbn. auto.
Qed.

(** C6 (what the code does). Clearing the registry keeps the cursor: after
    [stale_cursor_run] one server is registered, the cursor's server index
    is 1, and the next timer firing reads outside the server block. *)
Theorem cursor_stale_after_clear :
  exists w,
    run stale_cursor_run world0 = Some w
    /\ num_servers (client w) = 1
    /\ curr_server (client w) = 1
    /\ state (client w) = network_client_closed
    /\ ~ cursor_ok (client w)
    /\ reconnect_cb 0 (client w) = None.
Proof.
  eexists. split; [vm_compute; reflexivity|].
  repeat split.
  intros [s [Hs _]]. vm_compute in Hs. discriminate.
Qed.

(** ** The two-server scenario *)

Lemma run_app ls1 : forall ls2 w,
  run (ls1 ++ ls2) w = (w' <- run ls1 w ;; run ls2 w').
Proof.
  induction ls1 as [|l ls1 IH]; intros ls2 w; cbn; [reflexivity|].
  destruct (step l w); [apply IH|reflexivity].
Qed.

Lemma attempts_app ev1 ev2 : attempts (ev1 ++ ev2) = attempts ev1 ++ attempts ev2.
Proof. unfold attempts. apply flat_map_app. Qed.

Lemma two_servers_setup_run :
  run two_servers_setup world0
  = Some (mk_world (two_servers 0) [] false true [] [Ev_uv_timer_start 0] false).
Proof. vm_compute. reflexivity. Qed.

Lemma failing_round_from_a cl lv tr cd :
  run failing_round (mk_world (two_servers 0) [] cl true lv tr cd)
  = Some (mk_world (two_servers 1) [] cl true lv
                   (tr ++ [Ev_uv_getaddrinfo (Some "b"%string) (Some "80"%string) false 0])
                   cd).
Proof. reflexivity. Qed.

Lemma failing_round_from_b cl lv tr cd :
  run failing_round (mk_world (two_servers 1) [] cl true lv tr cd)
  = Some (mk_world (two_servers 0) [] cl true lv
                   (tr ++ [Ev_uv_getaddrinfo (Some "a"%string) (Some "53"%string) true 0])
                   cd).
Proof. reflexivity. Qed.

Lemma failing_rounds_alternate n : forall cl lv tr cd,
  (exists w, run (failing_rounds n) (mk_world (two_servers 0) [] cl true lv tr cd) = Some w
             /\ attempts (trace w) = attempts tr ++ alternate b80 a53 n)
  /\ (exists w, run (failing_rounds n) (mk_world (two_servers 1) [] cl true lv tr cd) = Some w
                /\ attempts (trace w) = attempts tr ++ alternate a53 b80 n).
Proof.
  induction n as [|n IH]; intros cl lv tr cd.
  - split; eexists; (split; [reflexivity|]); cbn; now rewrite app_nil_r.
  - split; cbn [failing_rounds]; rewrite run_app.
    + rewrite failing_round_from_a.
      destruct (IH cl lv (tr ++ [Ev_uv_getaddrinfo (Some "b"%string) (Some "80"%string) false 0]) cd)
        as [_ [w [Hw Ha]]].
      exists w. split; [exact Hw|]. rewrite Ha, attempts_app, <- app_assoc.
      reflexivity.
    + rewrite failing_round_from_b.
      destruct (IH cl lv (tr ++ [Ev_uv_getaddrinfo (Some "a"%string) (Some "53"%string) true 0]) cd)
        as [[w [Hw Ha]] _].
      exists w. split; [exact Hw|]. rewrite Ha, attempts_app, <- app_assoc.
      reflexivity.
Qed.

(** C4 (amended). With [udp://a:53] registered first and [tcp://b:80]
    second on a fresh client, the attempts of successive timer firings, each
    failing, go to b/80, a/53, b/80, a/53, ...: the selector advances before
    the first attempt, so that one targets the second endpoint, and the
    cycle has length 2. *)
Theorem two_servers_attempt_order (n : nat) :
  exists w,
    run (two_servers_setup ++ failing_rounds n) world0 = Some w
    /\ attempts (trace w) = alternate b80 a53 n.
Proof.
  rewrite run_app, two_servers_setup_run.
  destruct (failing_rounds_alternate n false [] [Ev_uv_timer_start 0] false)
    as [[w [Hw Ha]] _].
  exists w. split; [exact Hw|exact Ha].
Qed.

(** ** Registry updates: what a failed parse leaves *)

Lemma store_length {A} (l : list A) : forall n x,
  List.length (store l n x) = List.length l.
Proof.
  induction l as [|a l IH]; intros [|n] x; cbn; auto.
Qed.

Lemma firstn_store {A} (l : list A) : forall n x,
  firstn n (store l n x) = firstn n l.
Proof.
  induction l as [|a l IH]; intros [|n] x; cbn; auto. now rewrite IH.
Qed.

Lemma firstn_S_store {A} (l : list A) : forall n x,
  (n < List.length l)%nat -> firstn (S n) (store l n x) = firstn n l ++ [x].
Proof.
  induction l as [|a l IH]; intros [|n] x H; cbn in *; try lia.
  - reflexivity.
  - f_equal. apply IH. lia.
Qed.

Lemma skipn_S_store {A} (l : list A) : forall n x,
  skipn (S n) (store l n x) = skipn (S n) l.
Proof.
  induction l as [|a l IH]; intros [|n] x; cbn; auto. apply (IH n x).
Qed.

Lemma skipn_store {A} (l : list A) : forall n x,
  (n < List.length l)%nat -> skipn n (store l n x) = x :: skipn (S n) l.
Proof.
  induction l as [|a l IH]; intros [|n] x H; cbn in *; try lia.
  - reflexivity.
  - apply IH. lia.
Qed.

Lemma reallocarray_length {A} (junk : A) old n :
  List.length (reallocarray junk old n) = Z.to_nat n.
Proof.
  unfold reallocarray. apply firstn_length_le.
  rewrite length_app, repeat_length. lia.
Qed.

Lemma reallocarray_firstn {A} (junk : A) old n k :
  let blk := match old with Some l => l | None => [] end in
  (k <= List.length blk)%nat -> (k <= Z.to_nat n)%nat ->
  firstn k (reallocarray junk old n) = firstn k blk.
Proof.
  intros blk Hk Hn. unfold reallocarray. fold blk.
  rewrite firstn_firstn. replace (Init.Nat.min k (Z.to_nat n)) with k by lia.
  rewrite firstn_app. replace (k - List.length blk)%nat with 0%nat by lia.
  cbn. now rewrite app_nil_r.
Qed.

Lemma parse_out_failure rc srv h rc' srv' h' :
  parse_out rc srv h = Some (rc', srv', h') -> rc' <> 0 ->
  rc' = rc /\ srv' = server_zero.
Proof.
  unfold parse_out. destruct (Z.eqb_spec rc 0) as [->|Hne].
  - intros [= <- <- <-] H. congruence.
  - unfold server_free.
    destruct (num_services srv <=? 0); [intros [= <- <- <-]; auto|].
    destruct (services srv) as [l|]; [|discriminate].
    destruct (num_services srv <=? _); [intros [= <- <- <-]; auto|discriminate].
Qed.

Lemma add_services_rc tokens : forall srv h rc srv' h',
  add_services srv tokens h = Some (rc, srv', h') -> rc = 0 \/ rc = -1.
Proof.
  induction tokens as [|t ts IH]; intros srv h rc srv' h'; cbn.
  - intros [= <- <- <-]. auto.
  - destruct (add_server_service srv t h) as [[[r s1] h1]|]; [|discriminate].
    destruct (r =? 0); [apply IH|intros [= <- <- <-]; auto].
Qed.

Lemma parse_server_failure srv u h rc srv' h' :
  parse_server srv u h = Some (rc, srv', h') -> rc <> 0 ->
  rc = -1 /\ srv' = server_zero.
Proof.
  unfold parse_server.
  destruct (alloc h) as [ok1 h1]. destruct ok1; cbn [negb]; [|discriminate].
  destruct (alloc h1) as [ok2 h2]. destruct ok2; cbn [negb].
  - destruct (split_uri u) as [[ps hs] [sv|]].
    + destruct (alloc h2) as [ok3 h3]. destruct (alloc h3) as [ok4 h4].
      destruct ok4; cbn [negb].
      * destruct (add_services _ _ _) as [[[r s1] h5]|] eqn:E; [|discriminate].
        intros Hp Hne. destruct (parse_out_failure _ _ _ _ _ _ Hp Hne) as [-> ->].
        apply add_services_rc in E as [->| ->]; [congruence|auto].
      * intros Hp Hne. now destruct (parse_out_failure _ _ _ _ _ _ Hp Hne).
    + destruct (alloc h2) as [ok3 h3].
      intros Hp Hne. now destruct (parse_out_failure _ _ _ _ _ _ Hp Hne).
  - intros Hp Hne. now destruct (parse_out_failure _ _ _ _ _ _ Hp Hne).
Qed.

Lemma add_server_failure_frame
        (nc : network_client) (u : string) (h : heap)
        (j : network_client_server) rc nc' h' :
  block_ok nc -> fst (alloc h) = true ->
  network_client_add_server nc u h j = Some (rc, nc', h') -> rc <> 0 ->
  rc = -1 /\ num_servers nc' = num_servers nc /\ registry nc' = registry nc
  /\ block_ok nc'.
Proof.
  intros [Hb Hz] Hok. unfold network_client_add_server.
  destruct (alloc h) as [ok h1]. cbn in Hok. subst ok. cbn [negb].
  destruct (zth _ _) as [slot|] eqn:Hslot; [|discriminate].
  destruct (parse_server slot u h1) as [[[r srv] h2]|] eqn:Hp; [|discriminate].
  destruct (Z.eqb_spec r 0) as [->|Hne]; cbn [negb].
  - intros [= <- <- <-] H. congruence.
  - intros [= <- <- <-] _.
    destruct (parse_server_failure _ _ _ _ _ _ Hp Hne) as [-> ->].
    split; [reflexivity|]. split; [reflexivity|].
    assert (Hreg : firstn (Z.to_nat (num_servers nc))
                     (store (reallocarray j (servers nc) (num_servers nc + 1))
                            (Z.to_nat (num_servers nc)) server_zero)
                   = firstn (Z.to_nat (num_servers nc)) (block nc)).
    { rewrite firstn_store. apply reallocarray_firstn; unfold block in *; lia. }
    split.
    + unfold registry at 1. cbn. rewrite Hreg. unfold registry, block.
      destruct (servers nc); [reflexivity|]. now rewrite firstn_nil.
    + unfold block_ok, block. cbn.
      rewrite store_length, reallocarray_length. split; [lia|].
      rewrite skipn_store by (rewrite reallocarray_length; lia).
      constructor; [reflexivity|].
      rewrite skipn_all2 by (rewrite reallocarray_length; lia). constructor.
Qed.


(** The slot handed to [parse_server] is the spare slot a failed parse left
    zeroed, or new memory. *)
Lemma new_slot nc j :
  block_ok nc ->
  exists slot,
    zth (reallocarray j (servers nc) (num_servers nc + 1)) (num_servers nc)
    = Some slot
    /\ (slot = server_zero
        \/ (slot = j /\ (List.length (block nc) <= Z.to_nat (num_servers nc))%nat)).
Proof.
  intros [Hb Hz]. unfold zth, reallocarray. fold (block nc).
  destruct (Z.ltb_spec (num_servers nc) 0); [lia|].
  rewrite nth_error_firstn.
  destruct (Nat.ltb_spec (Z.to_nat (num_servers nc))
                         (Z.to_nat (num_servers nc + 1))); [|lia].
  destruct (Nat.lt_ge_cases (Z.to_nat (num_servers nc)) (List.length (block nc)))
    as [Hlt|Hge].
  - rewrite nth_error_app1 by exact Hlt.
    destruct (nth_error (block nc) (Z.to_nat (num_servers nc))) as [s|] eqn:E;
      [|apply nth_error_None in E; lia].
    exists s. split; [reflexivity|]. left.
    rewrite Forall_forall in Hz. symmetry. apply Hz.
    rewrite <- (firstn_skipn (Z.to_nat (num_servers nc)) (block nc)) in E.
    rewrite nth_error_app2 in E by (rewrite length_firstn; lia).
    eapply nth_error_In. exact E.
  - rewrite nth_error_app2 by exact Hge.
    exists j. split; [apply nth_error_repeat; lia|]. auto.
Qed.

(** Without a spare slot the parse goes into new memory. *)
Lemma new_slot_junk nc j :
  0 <= num_servers nc ->
  (List.length (block nc) <= Z.to_nat (num_servers nc))%nat ->
  zth (reallocarray j (servers nc) (num_servers nc + 1)) (num_servers nc)
  = Some j.
Proof.
  intros Hn Hge. unfold zth, reallocarray. fold (block nc).
  destruct (Z.ltb_spec (num_servers nc) 0); [lia|].
  rewrite nth_error_firstn.
  destruct (Nat.ltb_spec (Z.to_nat (num_servers nc))
                         (Z.to_nat (num_servers nc + 1))); [|lia].
  rewrite nth_error_app2 by exact Hge.
  apply nth_error_repeat. lia.
Qed.

Lemma parse_server_no_service slot u :
  snd (split_uri u) = None -> num_services slot <= 0 ->
  parse_server slot u [] = Some (-1, server_zero, []).
Proof.
  intros Hu Hn. unfold parse_server. cbn [alloc negb].
  destruct (split_uri u) as [[ps hs] sv]. cbn in Hu. subst sv.
  unfold parse_out, server_free. cbn [Z.eqb num_services].
  destruct (Z.leb_spec (num_services slot) 0); [reflexivity|lia].
Qed.

(** A URI without a service list is refused and the registry stays, when
    the new slot reads a [NULL] service pointer and a count that is not
    positive: the clean-up of the failed parse then frees no service. *)
Theorem add_server_without_service
        (nc : network_client) (u : string) (junk : network_client_server) :
  block_ok nc -> snd (split_uri u) = None ->
  services junk = None -> num_services junk <= 0 ->
  exists nc',
    network_client_add_server nc u [] junk = Some (-1, nc', [])
    /\ num_servers nc' = num_servers nc /\ registry nc' = registry nc.
Proof.
  intros Hb Hu _ Hj.
  destruct (new_slot nc junk Hb) as [slot [Hslot Hs]].
  assert (Hn : num_services slot <= 0)
    by (destruct Hs as [->|[-> _]]; [cbn; lia|exact Hj]).
  assert (E : network_client_add_server nc u [] junk
              = Some (-1, set_servers
                            (Some (store (reallocarray junk (servers nc)
                                                       (num_servers nc + 1))
                                         (Z.to_nat (num_servers nc)) server_zero))
                            nc, [])).
  { unfold network_client_add_server. cbn [alloc negb].
    rewrite Hslot, (parse_server_no_service slot u Hu Hn). reflexivity. }
  eexists. split; [exact E|].
  destruct (add_server_failure_frame nc u [] junk _ _ _ Hb eq_refl E)
    as [_ [Hn' [Hr _]]]; [lia|]. auto.
Qed.

(** When the new slot reads a positive count behind a [NULL] service
    pointer, the clean-up of the failed parse frees [services[0]] through
    [NULL]. *)
Theorem add_server_junk_count_undefined
        (nc : network_client) (u : string) (junk : network_client_server) :
  0 <= num_servers nc ->
  (List.length (block nc) <= Z.to_nat (num_servers nc))%nat ->
  snd (split_uri u) = None ->
  services junk = None -> 0 < num_services junk ->
  network_client_add_server nc u [] junk = None.
Proof.
  intros Hn Hge Hu Hs Hc. unfold network_client_add_server. cbn [alloc negb].
  rewrite (new_slot_junk nc junk Hn Hge).
  unfold parse_server. cbn [alloc negb].
  destruct (split_uri u) as [[ps hs] sv]. cbn in Hu. subst sv.
  unfold parse_out, server_free. cbn [Z.eqb num_services services]. rewrite Hs.
  destruct (Z.leb_spec (num_services junk) 0); [lia|reflexivity].
Qed.

(** ** The cursor stays valid while the registry only grows *)

Lemma blankb_wf j : blankb j = true -> svc_wf j.
Proof.
  unfold blankb, svc_wf. destruct (services j); [discriminate|].
  intros H. apply Z.eqb_eq in H. lia.
Qed.

Lemma svc_wf_length srv :
  svc_wf srv -> num_services srv = Z.of_nat (List.length (svc_list srv)).
Proof.
  intros [_ H]. unfold svc_list. destruct (services srv); cbn; lia.
Qed.

Lemma add_server_service_ok srv t h srv' h' :
  svc_wf srv -> add_server_service srv t h = Some (0, srv', h') ->
  svc_wf srv' /\ num_services srv' = num_services srv + 1
  /\ exists l, services srv' = Some l.
Proof.
  intros Hwf. pose proof (svc_wf_length srv Hwf) as Hlen.
  destruct Hwf as [Hn _]. unfold add_server_service.
  destruct (alloc h) as [ok1 h1]. destruct ok1; cbn [negb]; [|discriminate].
  destruct (alloc h1) as [ok2 h2]. destruct ok2; cbn [negb orb]; [|discriminate].
  destruct (Z.ltb_spec (num_services srv + 1) 0); [discriminate|].
  destruct (Z.ltb_spec (num_services srv) 0); [lia|].
  destruct (Nat.ltb_spec (List.length (svc_list srv))
                         (Z.to_nat (num_services srv))); [discriminate|].
  intros [= <- <-]. unfold svc_wf. cbn.
  rewrite length_app, firstn_all2 by lia. cbn.
  repeat split; try lia. eauto.
Qed.

Lemma add_services_ok tokens : forall srv h srv' h',
  svc_wf srv -> add_services srv tokens h = Some (0, srv', h') ->
  svc_wf srv'
  /\ num_services srv' = num_services srv + Z.of_nat (List.length tokens)
  /\ (tokens <> [] -> exists l, services srv' = Some l).
Proof.
  induction tokens as [|t ts IH]; intros srv h srv' h' Hwf; cbn [add_services].
  - intros [= <- <-]. repeat split; [apply Hwf|apply Hwf|cbn; lia|congruence].
  - destruct (add_server_service srv t h) as [[[r s1] h1]|] eqn:E; [|discriminate].
    destruct (Z.eqb_spec r 0) as [->|Hne]; [|discriminate].
    destruct (add_server_service_ok _ _ _ _ _ Hwf E) as [Hwf1 [Hn1 [l1 Hl1]]].
    intros Hrest. destruct (IH _ _ _ _ Hwf1 Hrest) as [Hwf' [Hn' Hs']].
    split; [exact Hwf'|]. split; [cbn [List.length]; lia|].
    intros _. destruct ts as [|t' ts'].
    + cbn in Hrest. injection Hrest as <- <-. eauto.
    + apply Hs'. discriminate.
Qed.

Lemma strsep_all_nonempty s : strsep_all s <> [].
Proof.
  destruct s as [|c s]; cbn; [discriminate|].
  destruct (Ascii.eqb c ","); [discriminate|].
  destruct (strsep_all s); discriminate.
Qed.

(** A successful parse into a slot whose count matches its service block
    leaves a server with at least one service. *)
Lemma parse_server_ok slot u h srv' h' :
  svc_wf slot ->
  parse_server slot u h = Some (0, srv', h') -> server_ok srv'.
Proof.
  intros Hslot. unfold parse_server.
  destruct (alloc h) as [ok1 h1]. destruct ok1; cbn [negb]; [|discriminate].
  destruct (alloc h1) as [ok2 h2].
  assert (Hout : forall rc s hh, rc <> 0 ->
            parse_out rc s hh = Some (0, srv', h') -> server_ok srv').
  { intros rc s hh Hne Hp.
    destruct (parse_out_failure _ _ _ _ _ _ Hp) as [? _]; [|congruence].
    unfold parse_out in Hp. destruct (Z.eqb_spec rc 0); [congruence|].
    destruct (server_free s); [|discriminate]. injection Hp as Hp _ _. lia. }
  destruct ok2; cbn [negb]; [|apply Hout; lia].
  destruct (split_uri u) as [[ps hs] [sv|]].
  - destruct (alloc h2) as [ok3 h3]. destruct (alloc h3) as [ok4 h4].
    destruct ok4; cbn [negb]; [|apply Hout; lia].
    destruct (add_services _ _ _) as [[[r s1] h5]|] eqn:E; [|discriminate].
    destruct (Z.eqb_spec r 0) as [->|Hne]; [|apply Hout; exact Hne].
    unfold parse_out. cbn [Z.eqb]. intros [= <- <-].
    apply add_services_ok in E as [[Hn0 Hwf] [Hn Hs]]; [|exact Hslot].
    destruct (Hs (strsep_all_nonempty sv)) as [l Hl].
    rewrite Hl in Hwf. cbn in Hn.
    pose proof (strsep_all_nonempty sv) as Hne.
    destruct (strsep_all sv) as [|t ts]; [congruence|]. cbn in Hn.
    destruct Hslot as [Hs0 _].
    split; [lia|]. exists l. auto.
  - destruct (alloc h2) as [ok3 h3]. apply Hout. lia.
Qed.

Lemma registry_block nc :
  registry nc = firstn (Z.to_nat (num_servers nc)) (block nc).
Proof.
  unfold registry, block. destruct (servers nc); [reflexivity|].
  now rewrite firstn_nil.
Qed.

Lemma svc_wf_zero : svc_wf server_zero.
Proof. split; cbn; lia. Qed.

Lemma add_server_success nc u h j nc' h' :
  block_ok nc -> svc_wf j -> fst (alloc h) = true ->
  network_client_add_server nc u h j = Some (0, nc', h') ->
  block_ok nc' /\ num_servers nc' = num_servers nc + 1
  /\ exists srv, server_ok srv /\ registry nc' = registry nc ++ [srv].
Proof.
  intros Hb Hj Hok. destruct (new_slot nc j Hb) as [slot [Hslot Hs]].
  assert (Hwf : svc_wf slot)
    by (destruct Hs as [->|[-> _]]; [exact svc_wf_zero|exact Hj]).
  destruct Hb as [Hb Hz]. unfold network_client_add_server.
  destruct (alloc h) as [ok h1]. cbn in Hok. subst ok. cbn [negb].
  rewrite Hslot.
  destruct (parse_server slot u h1) as [[[r srv] h2]|] eqn:Hp;
    [|discriminate].
  destruct (Z.eqb_spec r 0) as [->|Hne]; cbn [negb]; [|intros [= ? ? ?]; lia].
  intros [= <- <-].
  assert (Hlen : List.length (reallocarray j (servers nc)
                                           (num_servers nc + 1))
                 = S (Z.to_nat (num_servers nc)))
    by (rewrite reallocarray_length; lia).
  split; [|split; [reflexivity|]].
  - unfold block_ok, block. cbn. rewrite store_length, Hlen. split; [lia|].
    rewrite skipn_all2 by (rewrite store_length, Hlen; lia). constructor.
  - exists srv. split; [apply (parse_server_ok _ _ _ _ _ Hwf Hp)|].
    rewrite (registry_block nc). unfold registry.
    cbn [servers num_servers set_servers set_num_servers].
    replace (Z.to_nat (num_servers nc + 1)) with (S (Z.to_nat (num_servers nc)))
      by lia.
    rewrite firstn_S_store by lia. f_equal. unfold block.
    apply reallocarray_firstn; fold (block nc); lia.
Qed.

Lemma selection_ok_same nc nc' :
  same_selection nc nc' -> selection_ok nc -> selection_ok nc'.
Proof.
  intros [Hs [Hn Hc]].
  assert (Hb : block nc' = block nc) by (unfold block; now rewrite Hs).
  assert (Hr : registry nc' = registry nc)
    by (unfold registry; now rewrite Hs, Hn).
  unfold selection_ok, block_ok, cursor_ok.
  unfold cursor in Hc. injection Hc as Hc1 Hc2.
  unfold cursor. now rewrite Hb, Hr, Hn, Hc1, Hc2.
Qed.

Lemma same_selection_refl nc : same_selection nc nc.
Proof. unfold same_selection. auto. Qed.

Lemma same_selection_trans a b c :
  same_selection a b -> same_selection b c -> same_selection a c.
Proof.
  unfold same_selection. intros [? [? ?]] [? [? ?]]. repeat split; congruence.
Qed.

Lemma set_closed_selection nc : same_selection nc (fst (set_closed nc)).
Proof.
  destruct nc as [sv ns cs cv ai tl ts st rcb ra ccb ca xcb xa].
  unfold set_closed, same_selection. cbn.
  destruct ai, tl; cbn; auto.
Qed.

Lemma resolving_cb_selection status ai rc nc nc' ev :
  resolving_cb status ai rc nc = Some (nc', ev) -> same_selection nc nc'.
Proof.
  unfold resolving_cb. destruct (status <? 0).
  - destruct (load_server _ _); [|discriminate].
    destruct (get_curr_service _); [|discriminate].
    intros [= E]. pose proof (set_closed_selection nc) as H.
    now rewrite E in H.
  - destruct (load_server _ _) as [s|]; [|discriminate].
    destruct (proto s); cbn [connect_udp connect_tcp].
    + cbn. intros [= <- _]. unfold same_selection. cbn. auto.
    + destruct (rc =? 0).
      * intros [= <- _]. unfold same_selection. cbn. auto.
      * pose proof (set_closed_selection (set_addrinfo (Some ai) nc)) as H.
        destruct (set_closed _) as [a b]. intros [= <- _]. exact H.
    + destruct (rc =? 0).
      * intros [= <- _]. unfold same_selection. cbn. auto.
      * pose proof (set_closed_selection (set_addrinfo (Some ai) nc)) as H.
        destruct (set_closed _) as [a b]. intros [= <- _]. exact H.
Qed.

Lemma connect_tcp_cb_selection status session fd stp nc nc' ev :
  connect_tcp_cb status session fd stp nc = Some (nc', ev) ->
  same_selection nc nc'.
Proof.
  unfold connect_tcp_cb. destruct (negb (status =? 0)).
  - destruct (load_server _ _); [|discriminate].
    destruct (get_curr_service _); [|discriminate].
    intros [= E]. pose proof (set_closed_selection nc) as H.
    now rewrite E in H.
  - destruct (load_server _ _) as [s|]; [|discriminate].
    destruct (proto_eqb _ _).
    + intros [= <- _]. unfold same_selection. cbn. auto.
    + cbn [tls set_tls]. destruct session as [t|].
      * destruct fd; intros [= <- _]; unfold same_selection; cbn; auto.
      * pose proof (set_closed_selection (set_tls None nc)) as H.
        destruct (set_closed _) as [a b]. intros [= <- _]. exact H.
Qed.

Lemma on_poll_selection stp nc : same_selection nc (fst (on_poll stp nc)).
Proof.
  unfold on_poll, same_selection.
  destruct (conn_state_eqb _ _); [|cbn; auto].
  destruct (_ || _); [|cbn; auto].
  cbn [tls_state set_tls_state].
  destruct (stp =? 0); [|destruct (stp =? -1)]; cbn; auto.
Qed.

Lemma cursor_ok_has_target nc :
  selection_ok nc -> 1 <= num_servers nc -> cursor_ok nc /\ has_target nc.
Proof.
  intros [[Hb _] [Hf [_ Hc]]] Hn. specialize (Hc Hn). split; [exact Hc|].
  destruct Hc as [s [Hs Hj]].
  assert (Hin : In s (registry nc)).
  { unfold zth in Hs. destruct (curr_server nc <? 0); [discriminate|].
    eapply nth_error_In; eauto. }
  rewrite Forall_forall in Hf. destruct (Hf s Hin) as [_ [l [Hl Hlen]]].
  unfold has_target, get_curr_server, load_server, get_curr_service.
  unfold block in Hb. destruct (servers nc) as [arr|] eqn:Ea; [|cbn in Hb; lia].
  assert (Harr : zth arr (curr_server nc) = Some s).
  { unfold zth in *. destruct (curr_server nc <? 0); [discriminate|].
    unfold registry in Hs. rewrite Ea, nth_error_firstn in Hs.
    destruct (_ <? _)%nat; [exact Hs|discriminate]. }
  rewrite Harr, Hl.
  destruct (zth l (curr_service nc)) as [v|] eqn:Ev; [eauto|].
  unfold zth in Ev. destruct (Z.ltb_spec (curr_service nc) 0); [lia|].
  apply nth_error_None in Ev. lia.
Qed.

Lemma selection_registry_ok nc :
  selection_ok nc -> 1 <= num_servers nc -> registry_ok nc.
Proof.
  intros [[Hb _] [Hf _]] Hn. unfold registry_ok.
  unfold block in Hb. destruct (servers nc) as [arr|] eqn:Ea; [|cbn in Hb; lia].
  split; [exists arr; split; [reflexivity|lia]|]. split; [exact Hn|].
  eapply Forall_impl; [|exact Hf]. intros s [H _]. exact H.
Qed.

Lemma reconnect_cb_selection rc nc nc' ev :
  selection_ok nc -> reconnect_cb rc nc = Some (nc', ev) -> selection_ok nc'.
Proof.
  intros Hsel. unfold reconnect_cb.
  destruct (negb _ || (num_servers nc =? 0)) eqn:Hg.
  - now intros [= <- _].
  - apply orb_false_iff in Hg as [_ Hg]. apply Z.eqb_neq in Hg.
    assert (Hn : 1 <= num_servers nc) by (destruct Hsel as [[? _] _]; lia).
    pose proof (selection_registry_ok nc Hsel Hn) as Hreg.
    destruct (cursor_ok_has_target nc Hsel Hn) as [Hc _].
    destruct (cursor_ok_validp nc Hc) as [Hcur Hv].
    destruct (choose_next_server_next nc _ Hreg Hcur Hv)
      as [r [nc1 [Hch [Hs [Hnum Hc1]]]]].
    rewrite Hch.
    destruct (get_curr_service nc1); [|discriminate].
    destruct (load_server nc1 r); [|discriminate].
    intros [= <- _].
    destruct (same_registry nc nc1 Hs Hnum) as [Hr [Hcs _]].
    destruct (next_rank _ _ (service_counts_pos nc Hreg) Hv) as [Hv' _].
    assert (Hc' : cursor_ok nc1)
      by (eapply validp_cursor_ok; [exact Hc1|now rewrite Hcs]).
    apply (selection_ok_same nc1); [unfold same_selection; cbn; auto|].
    destruct Hsel as [Hb [Hf _]].
    unfold selection_ok, block_ok, block. rewrite Hs, Hnum, Hr.
    repeat split; try apply Hb; auto. intros E. lia.
Qed.

Lemma step_selection l w w' :
  keeps_block l = true -> selection_ok (client w) -> step l w = Some w' ->
  selection_ok (client w').
Proof.
  intros Hk Hsel. destruct l; cbn [step]; cbn in Hk; try discriminate.
  - (* add_server *)
    apply andb_true_iff in Hk as [Hk Hjw]. apply blankb_wf in Hjw.
    destruct (network_client_add_server _ _ _ _) as [[[rc nc] h']|] eqn:E;
      [|discriminate].
    intros [= <-]. cbn [client with_client].
    destruct (add_server_frame _ _ _ _ _ _ _ E) as [_ [_ [Hcur _]]].
    destruct Hsel as [Hb [Hf [H0 H1]]].
    destruct (Z.eq_dec rc 0) as [->|Hne].
    + destruct (add_server_success _ _ _ _ _ _ Hb Hjw Hk E)
        as [Hb' [Hn [srv [Hsrv Hr]]]].
      unfold selection_ok. rewrite Hr, Hn, Hcur.
      split; [exact Hb'|]. split; [apply Forall_app; auto|].
      split; [destruct Hb as [? _]; lia|]. intros _.
      destruct Hb as [Hb _].
      destruct (Z.eq_dec (num_servers (client w)) 0) as [Hz|Hz].
      * unfold cursor_ok. rewrite Hr.
        specialize (H0 Hz). rewrite <- Hcur in H0.
        unfold cursor in H0. injection H0 as -> ->.
        rewrite registry_block, Hz. cbn.
        exists srv. split; [reflexivity|]. destruct Hsrv. lia.
      * destruct H1 as [s [Hs Hj]]; [lia|].
        unfold cursor in Hcur. injection Hcur as Hc1 Hc2.
        exists s. rewrite Hr, Hc1, Hc2. split; [|exact Hj].
        unfold zth in *. destruct (curr_server (client w) <? 0); [discriminate|].
        rewrite nth_error_app1; [exact Hs|].
        apply nth_error_Some. congruence.
    + destruct (add_server_failure_frame _ _ _ _ _ _ _ Hb Hk E Hne)
        as [_ [Hn [Hr Hb']]].
      unfold selection_ok, cursor_ok. rewrite Hr, Hn, Hcur.
      unfold cursor in Hcur. injection Hcur as -> ->. auto.
  - intros [= <-]. eapply selection_ok_same; [|exact Hsel].
    unfold same_selection. cbn. auto.
  - intros [= <-]. eapply selection_ok_same; [|exact Hsel].
    unfold same_selection. cbn. auto.
  - intros [= <-]. eapply selection_ok_same; [|exact Hsel].
    unfold same_selection. cbn. auto.
  - unfold network_client_start. destruct (negb _); intros [= <-];
      destruct w; exact Hsel.
  - intros [= <-]. destruct w; exact Hsel.
  - destruct (_ && _); [discriminate|]. unfold network_client_close.
    destruct (negb _); intros [= <-]; destruct w; exact Hsel.
  - destruct (armed w); [|discriminate].
    destruct (reconnect_cb rc (client w)) as [[nc ev]|] eqn:E; [|discriminate].
    intros [= <-]. rewrite emit_client. cbn.
    eapply reconnect_cb_selection; eauto.
  - destruct (pending op_resolve w); [|discriminate].
    destruct (resolving_cb _ _ _ _) as [[nc ev]|] eqn:E; [|discriminate].
    intros [= <-]. rewrite emit_client. cbn.
    eapply selection_ok_same; [|exact Hsel].
    eapply resolving_cb_selection; eauto.
  - destruct (pending op_connect w); [|discriminate].
    destruct (connect_tcp_cb _ _ _ _ _) as [[nc ev]|] eqn:E; [|discriminate].
    intros [= <-]. rewrite emit_client. cbn.
    eapply selection_ok_same; [|exact Hsel].
    eapply connect_tcp_cb_selection; eauto.
  - destruct (pending op_handshake w); [|discriminate].
    pose proof (on_poll_selection step0 (client w)) as H.
    destruct (on_poll step0 (client w)) as [nc ev].
    intros [= <-]. rewrite emit_client. cbn.
    eapply selection_ok_same; [exact H|exact Hsel].
  - destruct (closing w); [|discriminate]. unfold on_close.
    destruct (conn_data w); [|discriminate].
    pose proof (set_closed_selection (client w)) as H.
    destruct (set_closed (client w)) as [nc ev].
    intros [= <-]. rewrite emit_client. cbn.
    eapply selection_ok_same; [exact H|exact Hsel].
Qed.

(** As long as the registry is not cleared, the server block is not lost
    to a failed [reallocarray], and every new slot reads as an empty server
    (no service block, count 0), every state reached from construction has
    a non-negative server count, and with a non-empty registry the cursor
    designates a registered server and one of its services, both of which
    can be read. *)
Theorem cursor_valid_without_clear (ls : list label) (w : world) :
  forallb keeps_block ls = true -> run ls world0 = Some w ->
  selection_ok (client w)
  /\ (1 <= num_servers (client w) ->
      cursor_ok (client w) /\ has_target (client w)).
Proof.
  intros Hk Hrun.
  assert (Hsel : selection_ok (client w)).
  { assert (H0 : selection_ok (client world0)).
    { unfold selection_ok, block_ok, cursor_ok. cbn.
      repeat split; try lia; try constructor. }
    revert Hk Hrun H0. generalize world0.
    induction ls as [|l ls IH]; intros w0 Hk Hrun H0; cbn in *.
    - now injection Hrun as <-.
    - apply andb_true_iff in Hk as [Hl Hk].
      destruct (step l w0) as [w1|] eqn:E; [|discriminate].
      apply (IH w1 Hk Hrun). eapply step_selection; eauto. }
  split; [exact Hsel|]. now apply cursor_ok_has_target.
Qed.

(** ** After a fatal handshake failure *)

Lemma stranded_step l w w' :
  TLS_READ_AGAIN <> -1 -> TLS_WRITE_AGAIN <> -1 ->
  stranded w -> step l w = Some w' -> stranded w'.
Proof.
  intros Hr Hw [Hst [Hts [Hfl Hcl]]]. unfold stranded.
  destruct l; cbn [step].
  - destruct (network_client_add_server _ _ _ _) as [[[rc nc] h']|] eqn:E;
      [|discriminate].
    intros [= <-]. cbn.
    destruct (add_server_frame _ _ _ _ _ _ _ E) as [-> _].
    rewrite (add_server_tls_state _ _ _ _ _ _ _ E). auto.
  - destruct (network_client_remove_servers _) as [[rc nc]|] eqn:E;
      [|discriminate].
    intros [= <-]. cbn.
    destruct (remove_servers_frame _ _ _ E) as [-> _].
    rewrite (remove_servers_tls_state _ _ _ E). auto.
  - intros [= <-]. cbn. auto.
  - intros [= <-]. cbn. auto.
  - intros [= <-]. cbn. auto.
  - unfold network_client_start. destruct (negb _); intros [= <-];
      destruct w; cbn in *; auto.
  - intros [= <-]. destruct w; cbn in *; auto.
  - rewrite Hcl. cbn [andb]. unfold network_client_close. rewrite Hst.
    cbn. intros [= <-]. destruct w; cbn in *; auto.
  - destruct (armed w); [|discriminate]. unfold reconnect_cb. rewrite Hst.
    cbn. intros [= <-]. destruct w; cbn in *; auto.
  - unfold pending. rewrite Hfl. cbn. discriminate.
  - unfold pending. rewrite Hfl. cbn. discriminate.
  - unfold pending. rewrite Hfl. cbn. unfold on_poll. rewrite Hst, Hts.
    cbn [conn_state_eqb].
    destruct (Z.eqb_spec (-1) TLS_READ_AGAIN); [congruence|].
    destruct (Z.eqb_spec (-1) TLS_WRITE_AGAIN); [congruence|].
    cbn [orb]. intros [= <-]. destruct w; cbn in *; auto.
  - rewrite Hcl. discriminate.
Qed.

(** Once the handshake has failed for good, nothing the owner or the loop
    can do moves the client out of Connecting. *)
Theorem fatal_handshake_strands (ls : list label) :
  TLS_READ_AGAIN <> -1 -> TLS_WRITE_AGAIN <> -1 ->
  forall w w', stranded w -> run ls w = Some w' -> stranded w'.
Proof.
  intros Hr Hw. induction ls as [|l ls IH]; intros w w' Hs; cbn.
  - now intros [= <-].
  - destruct (step l w) as [w1|] eqn:E; [|discriminate].
    apply IH. eapply stranded_step; eauto.
Qed.

(** ** A whole failed attempt *)

Lemma reconnect_cb_started rc nc nc1 ev1 :
  state nc = network_client_closed ->
  reconnect_cb rc nc = Some (nc1, ev1) ->
  state nc1 = network_client_resolving ->
  has_target nc1 /\ close_cb nc1 = close_cb nc
  /\ callbacks cb_connect ev1 = 0%nat /\ callbacks cb_close ev1 = 0%nat.
Proof.
  intros Hst. unfold reconnect_cb. rewrite Hst. cbn [conn_state_eqb negb orb].
  destruct (num_servers nc =? 0); [intros [= <- _]; congruence|].
  destruct (choose_next_server nc) as [[srv nc0]|] eqn:E; [|discriminate].
  destruct (get_curr_service nc0) as [svc|] eqn:Hsvc; [|discriminate].
  destruct (load_server nc0 srv) as [s|] eqn:Hs; [|discriminate].
  intros [= <- <-] _.
  pose proof E as E'.
  apply choose_next_server_frame in E as [_ [_ [_ [_ Hsrv]]]].
  assert (Hcb : close_cb nc0 = close_cb nc).
  { revert E'. unfold choose_next_server.
    destruct (match get_curr_server nc with Some _ => _ | None => _ end)
      as [more|]; [|discriminate].
    destruct more; [intros [= _ <-]; reflexivity|].
    cbn [num_servers set_curr_service set_curr_server curr_server].
    destruct (1 <? num_servers nc); [|intros [= _ <-]; reflexivity].
    destruct (num_servers nc <=? curr_server nc + 1);
      intros [= _ <-]; reflexivity. }
  split; [|split; [exact Hcb|split; reflexivity]].
  subst srv. unfold has_target.
  unfold load_server, get_curr_server, get_curr_service in *.
  cbn [servers set_state curr_server curr_service].
  destruct (servers nc0) as [arr|]; [|discriminate].
  rewrite Hs. exists s.
  rewrite Hs in Hsvc.
  destruct (services s) as [l|]; [|discriminate].
  destruct (zth l (curr_service nc0)) as [v|]; [|discriminate].
  injection Hsvc as <-. eauto.
Qed.

(** A timer firing that starts an attempt followed by a failed resolution:
    over the whole attempt the connect callback is not invoked and the close
    callback is invoked once. *)
Theorem failed_attempt_callbacks
        (nc nc1 : network_client) (ev1 : list event) (rc0 status ai rc : Z) :
  state nc = network_client_closed ->
  reconnect_cb rc0 nc = Some (nc1, ev1) ->
  state nc1 = network_client_resolving ->
  status < 0 ->
  exists nc' ev,
    resolving_cb status ai rc nc1 = Some (nc', ev)
    /\ state nc' = network_client_closed
    /\ callbacks cb_connect (ev1 ++ ev) = 0%nat
    /\ callbacks cb_close (ev1 ++ ev)
       = match close_cb nc with Some _ => 1%nat | None => 0%nat end.
Proof.
  intros Hst Hre Hst1 Hneg.
  destruct (reconnect_cb_started _ _ _ _ Hst Hre Hst1) as [Ht [Hcb [Hc1 Hc2]]].
  destruct (resolution_failure_closes_any nc1 status ai rc Ht Hneg)
    as [nc' [ev [Hr [Hs [Hc Hx]]]]].
  exists nc', ev. split; [exact Hr|]. split; [exact Hs|].
  unfold callbacks in *. rewrite !filter_app, !length_app.
  rewrite Hc1, Hc2, Hc, Hx, Hcb. auto.
Qed.

(** ** Protocol names *)

Lemma tolower_idem c : tolower (tolower c) = tolower c.
Proof.
  destruct c as [[] [] [] [] [] [] [] []]; vm_compute; reflexivity.
Qed.

Lemma tolower_nul c : tolower c = NUL -> c = NUL.
Proof.
  destruct c as [[] [] [] [] [] [] [] []]; vm_compute; intros H;
    first [reflexivity | discriminate H].
Qed.

Lemma code_inj x y : code x - code y = 0 -> x = y.
Proof.
  unfold code. intros H.
  rewrite <- (ascii_nat_embedding x), <- (ascii_nat_embedding y).
  f_equal. lia.
Qed.

Lemma code_zero x : code x = 0 -> x = NUL.
Proof.
  intros H. apply code_inj. unfold NUL. change (code Ascii.zero) with 0. lia.
Qed.

Lemma strcasecmp_lowercase a : forall b,
  strcasecmp a (lowercase b) = strcasecmp a b.
Proof.
  induction a as [|x a IH]; intros [|y b]; cbn [strcasecmp lowercase];
    rewrite ?tolower_idem; try reflexivity.
  now rewrite IH.
Qed.

Lemma strcasecmp_zero a : forall b,
  has_char NUL a = false -> has_char NUL b = false ->
  strcasecmp a b = 0 -> lowercase a = lowercase b.
Proof.
  induction a as [|x a IH]; intros [|y b] Ha Hb; cbn [strcasecmp lowercase];
    cbn [has_char] in Ha, Hb.
  - reflexivity.
  - intros H. apply orb_false_iff in Hb as [Hy _].
    assert (E : tolower y = NUL) by (apply code_zero; lia).
    apply tolower_nul in E. subst y. discriminate Hy.
  - intros H. apply orb_false_iff in Ha as [Hx _].
    assert (E : tolower x = NUL) by (apply code_zero; lia).
    apply tolower_nul in E. subst x. discriminate Hx.
  - apply orb_false_iff in Ha as [_ Ha]. apply orb_false_iff in Hb as [_ Hb].
    destruct (Z.eqb_spec (code (tolower x) - code (tolower y)) 0) as [E|E];
      [|intros H; congruence].
    intros H. apply code_inj in E. rewrite E. f_equal. now apply IH.
Qed.

(** The two tables agree: every protocol has a name, and the name reads
    back as the protocol. *)
Theorem proto_names_round_trip (p : network_client_proto) :
  str_to_proto (proto_to_str p) = p
  /\ proto_to_str p <> "unknown"%string.
Proof. destruct p; split; first [reflexivity | discriminate]. Qed.

(** [str_to_proto] does not see the case of letters. *)
Theorem str_to_proto_ignores_case (s t : string) :
  lowercase s = lowercase t -> str_to_proto s = str_to_proto t.
Proof.
  intros E. unfold str_to_proto, proto_list. cbn [str_to_proto_in].
  rewrite <- (strcasecmp_lowercase "udp" s), <- (strcasecmp_lowercase "tcp" s),
          <- (strcasecmp_lowercase "tls" s), E,
          !strcasecmp_lowercase.
  reflexivity.
Qed.

(** A scheme that is none of udp, tcp, tls in any case reads as TCP, and
    only the spellings of udp and tls read as UDP and TLS. *)
Theorem str_to_proto_default_tcp (s : string) :
  has_char NUL s = false ->
  (str_to_proto s = network_client_proto_udp <-> lowercase s = "udp"%string)
  /\ (str_to_proto s = network_client_proto_tls <-> lowercase s = "tls"%string)
  /\ (lowercase s <> "udp"%string -> lowercase s <> "tls"%string ->
      str_to_proto s = network_client_proto_tcp).
Proof.
  intros Hs.
  assert (Hz : forall name, has_char NUL name = false ->
             lowercase name = name ->
             (strcasecmp name s = 0 <-> lowercase s = name)).
  { intros name Hn Hl. split.
    - intros H. apply strcasecmp_zero in H; auto. congruence.
    - intros H. rewrite <- (strcasecmp_lowercase name s), H.
      clear. induction name as [|c n IH]; cbn [strcasecmp].
      + reflexivity.
      + rewrite Z.sub_diag. exact IH. }
  pose proof (Hz "udp"%string eq_refl eq_refl) as Hu.
  pose proof (Hz "tcp"%string eq_refl eq_refl) as Ht.
  pose proof (Hz "tls"%string eq_refl eq_refl) as Hl.
  unfold str_to_proto, proto_list. cbn [str_to_proto_in].
  destruct (Z.eqb_spec (strcasecmp "udp" s) 0) as [E1|E1].
  - apply Hu in E1. rewrite E1.
    repeat split; intros; try congruence; try discriminate.
  - destruct (Z.eqb_spec (strcasecmp "tcp" s) 0) as [E2|E2].
    + apply Ht in E2. rewrite E2.
      repeat split; intros; try congruence; try discriminate.
    + destruct (Z.eqb_spec (strcasecmp "tls" s) 0) as [E3|E3].
      * apply Hl in E3. rewrite E3.
        repeat split; intros; try congruence; try discriminate.
      * repeat split; intros; try congruence; try discriminate;
          exfalso; intuition.
Qed.

(** ** URI parsing *)

Lemma strsep_all_nonempty' s : exists t ts, strsep_all s = t :: ts.
Proof.
  pose proof (strsep_all_nonempty s). destruct (strsep_all s); [congruence|eauto].
Qed.

Lemma join_commas_cons t t' ts :
  join_commas (t :: t' :: ts)
  = (t ++ String ","%char (join_commas (t' :: ts)))%string.
Proof. reflexivity. Qed.

(** Splitting a service list at its commas loses nothing: the tokens hold
    no comma, there is at least one, and joined by commas they give the
    list back. *)
Theorem strsep_all_round_trip (s : string) :
  join_commas (strsep_all s) = s
  /\ Forall (fun t => has_char ","%char t = false) (strsep_all s)
  /\ strsep_all s <> [].
Proof.
  split; [|split; [|apply strsep_all_nonempty]].
  - induction s as [|c s IH]; [reflexivity|]. cbn [strsep_all].
    destruct (strsep_all_nonempty' s) as [t [ts E]].
    destruct (Ascii.eqb_spec c ","%char) as [->|Hc].
    + rewrite E, join_commas_cons, <- E, IH. reflexivity.
    + rewrite E in *. destruct ts as [|t' ts].
      * cbn [join_commas] in *. now rewrite IH.
      * rewrite join_commas_cons in *. rewrite <- IH. reflexivity.
  - induction s as [|c s IH]; [repeat constructor|]. cbn [strsep_all].
    destruct (Ascii.eqb_spec c ","%char) as [->|Hc].
    + constructor; [reflexivity|exact IH].
    + destruct (strsep_all s) as [|t ts]; [repeat constructor|].
      * cbn. apply orb_false_iff. split; [now apply Ascii.eqb_neq|reflexivity].
      * inversion IH; subst. constructor; [|assumption].
        cbn. apply orb_false_iff. split; [now apply Ascii.eqb_neq|assumption].
Qed.

Lemma str_take_app a b : str_take (String.length a) (a ++ b) = a.
Proof. induction a as [|c a IH]; cbn; [now destruct b|now rewrite IH]. Qed.

Lemma str_drop_app a b k :
  str_drop (String.length a + k) (a ++ b) = str_drop k b.
Proof. induction a as [|c a IH]; cbn; [reflexivity|exact IH]. Qed.

Lemma str_drop_scheme a r :
  str_drop (String.length a + 3) (a ++ "://" ++ r) = r.
Proof. now rewrite str_drop_app. Qed.

Lemma str_drop_colon a r :
  str_drop (String.length a + 1) (a ++ ":" ++ r) = r.
Proof. now rewrite str_drop_app. Qed.

Lemma strstr_scheme a r :
  has_char ":"%char a = false ->
  strstr (a ++ "://" ++ r) "://" = Some (String.length a).
Proof.
  unfold strstr. induction a as [|c a IH]; intros H.
  - cbn. destruct (ascii_dec ":" ":"); [|congruence].
    destruct (ascii_dec "/" "/"); [|congruence]. now destruct r.
  - cbn [has_char] in H. apply orb_false_iff in H as [Hc Ha].
    apply Ascii.eqb_neq in Hc.
    change (String c a ++ "://" ++ r)%string
      with (String c (a ++ "://" ++ r))%string.
    cbn [index prefix]. destruct (ascii_dec ":" c) as [E|_]; [congruence|].
    rewrite (IH Ha). reflexivity.
Qed.

Lemma strstr_colon a r :
  has_char ":"%char a = false ->
  strstr (a ++ ":" ++ r) ":" = Some (String.length a).
Proof.
  unfold strstr. induction a as [|c a IH]; intros H.
  - cbn. destruct (ascii_dec ":" ":"); [|congruence]. now destruct r.
  - cbn [has_char] in H. apply orb_false_iff in H as [Hc Ha].
    apply Ascii.eqb_neq in Hc.
    change (String c a ++ ":" ++ r)%string with (String c (a ++ ":" ++ r))%string.
    cbn [index prefix]. destruct (ascii_dec ":" c) as [E|_]; [congruence|].
    rewrite (IH Ha). reflexivity.
Qed.

Lemma strstr_no_colon a :
  has_char ":"%char a = false -> strstr a ":" = None.
Proof.
  unfold strstr. induction a as [|c a IH]; intros H; [reflexivity|].
  cbn [has_char] in H. apply orb_false_iff in H as [Hc Ha].
  apply Ascii.eqb_neq in Hc.
  cbn [index prefix]. destruct (ascii_dec ":" c) as [E|_]; [congruence|].
  rewrite (IH Ha). reflexivity.
Qed.

Lemma strstr_no_slash a :
  has_char "/"%char a = false -> strstr a "://" = None.
Proof.
  unfold strstr. induction a as [|c a IH]; intros H; [reflexivity|].
  cbn [has_char] in H. apply orb_false_iff in H as [Hc Ha].
  cbn [index]. rewrite (IH Ha).
  replace (prefix "://" (String c a)) with false; [reflexivity|].
  cbn [prefix]. destruct (ascii_dec ":" c); [|reflexivity].
  destruct a as [|d a]; [reflexivity|].
  cbn [has_char] in Ha. apply orb_false_iff in Ha as [Hd _].
  apply Ascii.eqb_neq in Hd.
  cbn [prefix]. destruct (ascii_dec "/" d); [congruence|reflexivity].
Qed.

Lemma strstr_host_services h sv :
  has_char ":"%char h = false -> has_char "/"%char sv = false ->
  strstr (h ++ ":" ++ sv) "://" = None.
Proof.
  unfold strstr. induction h as [|c h IH]; intros Hh Hsv.
  - change ("" ++ ":" ++ sv)%string with (String ":" sv).
    cbn [index]. fold (strstr sv "://"). rewrite (strstr_no_slash sv Hsv).
    replace (prefix "://" (String ":" sv)) with false; [reflexivity|].
    cbn [prefix]. destruct (ascii_dec ":" ":"); [|reflexivity].
    destruct sv as [|d sv]; [reflexivity|].
    cbn [has_char] in Hsv. apply orb_false_iff in Hsv as [Hd _].
    apply Ascii.eqb_neq in Hd.
    cbn [prefix]. destruct (ascii_dec "/" d); [congruence|reflexivity].
  - cbn [has_char] in Hh. apply orb_false_iff in Hh as [Hc Hh].
    apply Ascii.eqb_neq in Hc.
    change (String c h ++ ":" ++ sv)%string with (String c (h ++ ":" ++ sv))%string.
    cbn [index prefix]. destruct (ascii_dec ":" c) as [E|_]; [congruence|].
    rewrite (IH Hh Hsv). reflexivity.
Qed.

(* How [parse_server] cuts a URI. *)
Lemma split_uri_of_parts (scheme host_s sv : string) :
  has_char ":"%char scheme = false -> has_char ":"%char host_s = false ->
  split_uri (scheme ++ "://" ++ host_s ++ ":" ++ sv) = (scheme, host_s, Some sv)
  /\ split_uri (scheme ++ "://" ++ host_s) = (scheme, host_s, None)
  /\ (has_char "/"%char sv = false ->
      split_uri (host_s ++ ":" ++ sv) = ("tcp"%string, host_s, Some sv))
  /\ (has_char "/"%char host_s = false ->
      split_uri host_s = ("tcp"%string, host_s, None)).
Proof.
  intros Hs Hh. unfold split_uri. repeat split.
  - rewrite (strstr_scheme scheme _ Hs), str_take_app, str_drop_scheme.
    rewrite (strstr_colon host_s sv Hh), str_take_app, str_drop_colon.
    reflexivity.
  - rewrite (strstr_scheme scheme _ Hs), str_take_app, str_drop_scheme.
    now rewrite (strstr_no_colon host_s Hh).
  - intros Hsv. rewrite (strstr_host_services host_s sv Hh Hsv).
    rewrite (strstr_colon host_s sv Hh), str_take_app, str_drop_colon.
    reflexivity.
  - intros Hsl. rewrite (strstr_no_slash host_s Hsl).
    now rewrite (strstr_no_colon host_s Hh).
Qed.

Lemma add_server_service_done srv t :
  svc_wf srv ->
  add_server_service srv t []
  = Some (0, mk_server (uri srv) (proto srv) (host srv)
                       (Some (svc_list srv ++ [t])) (num_services srv + 1), []).
Proof.
  intros Hwf. pose proof (svc_wf_length srv Hwf) as Hn. destruct Hwf as [H0 _].
  unfold add_server_service. cbn [alloc negb orb].
  destruct (Z.ltb_spec (num_services srv + 1) 0); [lia|].
  destruct (Z.ltb_spec (num_services srv) 0); [lia|].
  destruct (Nat.ltb_spec (List.length (svc_list srv))
                         (Z.to_nat (num_services srv))); [lia|].
  rewrite firstn_all2 by lia. reflexivity.
Qed.

(** With the service count matching the service block, [add_server_service]
    appends the service after those already there and counts it; a failed
    copy of the service text leaves the server as it was, and a failed
    [reallocarray] leaves it with its count but without its block. *)
Theorem add_server_service_appends
        (srv : network_client_server) (t : string) (h : heap) :
  svc_wf srv ->
  add_server_service srv t []
  = Some (0, mk_server (uri srv) (proto srv) (host srv)
                       (Some (svc_list srv ++ [t])) (num_services srv + 1), [])
  /\ add_server_service srv t (false :: h) = Some (-1, srv, h)
  /\ add_server_service srv t (true :: false :: h)
     = Some (-1, mk_server (uri srv) (proto srv) (host srv) None
                           (num_services srv), h).
Proof.
  intros Hwf. split; [now apply add_server_service_done|]. split; reflexivity.
Qed.

Lemma add_services_cons srv t ts h :
  add_services srv (t :: ts) h
  = ('(rc, srv', h') <- add_server_service srv t h ;;
     if rc =? 0 then add_services srv' ts h' else Some (-1, srv', h')).
Proof. reflexivity. Qed.

Lemma add_services_done ts : forall t srv,
  svc_wf srv ->
  add_services srv (t :: ts) []
  = Some (0, mk_server (uri srv) (proto srv) (host srv)
                       (Some (svc_list srv ++ t :: ts))
                       (num_services srv + Z.of_nat (List.length (t :: ts))), []).
Proof.
  induction ts as [|t' ts IH]; intros t srv Hwf; rewrite add_services_cons.
  - rewrite (add_server_service_done srv t Hwf). reflexivity.
  - rewrite (add_server_service_done srv t Hwf). cbn [Z.eqb].
    rewrite IH.
    + cbn [uri proto host num_services svc_list services List.length].
      rewrite <- app_assoc. cbn [app]. do 4 f_equal. lia.
    + pose proof (svc_wf_length srv Hwf). destruct Hwf as [H0 _].
      split; cbn; [lia|]. rewrite length_app. cbn. lia.
Qed.

(** A successful parse adds the services of the URI to what the slot
    held. *)
Lemma parse_server_of_split slot u p h sv :
  svc_wf slot -> split_uri u = (p, h, Some sv) ->
  parse_server slot u [] = Some (0, parsed_into slot u p h sv, []).
Proof.
  intros Hwf E. unfold parse_server. cbn [alloc negb]. rewrite E.
  destruct (strsep_all_nonempty' sv) as [t [ts Et]].
  unfold parsed_into. rewrite Et.
  rewrite add_services_done by exact Hwf.
  reflexivity.
Qed.

Lemma parse_server_zero_of_split u p h sv :
  split_uri u = (p, h, Some sv) ->
  parse_server server_zero u [] = Some (0, parsed_server u p h sv, []).
Proof. exact (parse_server_of_split server_zero u p h sv svc_wf_zero). Qed.

Lemma parse_server_of_split_none u p h :
  split_uri u = (p, h, None) ->
  parse_server server_zero u [] = Some (-1, server_zero, []).
Proof.
  intros E. unfold parse_server. cbn [alloc negb]. rewrite E. reflexivity.
Qed.

(** A URI written scheme://host:services, the scheme and the host without
    a colon, parses (no allocation failing) to the protocol the scheme
    names, that host, and the services between the commas, in order; the
    URI text is kept. *)
Theorem parse_server_round_trip (scheme host_s sv : string) :
  has_char ":"%char scheme = false -> has_char ":"%char host_s = false ->
  parse_server server_zero (scheme ++ "://" ++ host_s ++ ":" ++ sv) []
  = Some (0, mk_server (Some (scheme ++ "://" ++ host_s ++ ":" ++ sv)%string)
                       (str_to_proto scheme) (Some host_s)
                       (Some (strsep_all sv))
                       (Z.of_nat (List.length (strsep_all sv))), []).
Proof.
  intros Hs Hh.
  destruct (split_uri_of_parts scheme host_s sv Hs Hh) as [E _].
  exact (parse_server_zero_of_split _ _ _ _ E).
Qed.

(** A URI written host:services, without scheme, parses as TCP. *)
Theorem parse_server_default_tcp (host_s sv : string) :
  has_char ":"%char host_s = false -> has_char "/"%char sv = false ->
  parse_server server_zero (host_s ++ ":" ++ sv) []
  = Some (0, mk_server (Some (host_s ++ ":" ++ sv)%string)
                       network_client_proto_tcp (Some host_s)
                       (Some (strsep_all sv))
                       (Z.of_nat (List.length (strsep_all sv))), []).
Proof.
  intros Hh Hsv.
  destruct (split_uri_of_parts EmptyString host_s sv eq_refl Hh)
    as [_ [_ [E _]]].
  exact (parse_server_zero_of_split _ _ _ _ (E Hsv)).
Qed.

(** A URI without a colon after the host has no service list: the parse
    fails with -1 and hands back a zeroed server. *)
Theorem parse_server_needs_service (scheme host_s : string) :
  has_char ":"%char scheme = false -> has_char ":"%char host_s = false ->
  parse_server server_zero (scheme ++ "://" ++ host_s) []
  = Some (-1, server_zero, [])
  /\ (has_char "/"%char host_s = false ->
      parse_server server_zero host_s [] = Some (-1, server_zero, [])).
Proof.
  intros Hs Hh.
  destruct (split_uri_of_parts scheme host_s EmptyString Hs Hh)
    as [_ [E1 [_ E2]]].
  split; [exact (parse_server_of_split_none _ _ _ E1)|].
  intros Hsl. exact (parse_server_of_split_none _ _ _ (E2 Hsl)).
Qed.

(** ** Registry operations *)

Lemma parsed_into_ok slot u p h sv :
  svc_wf slot -> server_ok (parsed_into slot u p h sv).
Proof.
  intros Hwf. pose proof (svc_wf_length slot Hwf) as Hn. destruct Hwf as [H0 _].
  unfold server_ok, parsed_into. cbn.
  destruct (strsep_all_nonempty' sv) as [t [ts E]]. rewrite E. cbn [List.length].
  split; [lia|]. eexists. split; [reflexivity|].
  rewrite length_app. cbn [List.length]. lia.
Qed.

Lemma blank_wf j : blank j -> svc_wf j.
Proof. intros [Hs Hn]. unfold svc_wf. rewrite Hs, Hn. split; lia. Qed.

Lemma parsed_into_blank j u p h sv :
  blank j -> parsed_into j u p h sv = parsed_server u p h sv.
Proof.
  intros [Hs Hn]. unfold parsed_into, parsed_server, svc_list.
  now rewrite Hs, Hn.
Qed.

(** [add_server] with a URI that has a service list, no allocation
    failing, when the slot parsed into has a count that matches its
    block. *)
Lemma add_server_parsed nc u p h sv j slot :
  block_ok nc ->
  zth (reallocarray j (servers nc) (num_servers nc + 1)) (num_servers nc)
  = Some slot ->
  svc_wf slot -> split_uri u = (p, h, Some sv) ->
  exists nc',
    network_client_add_server nc u [] j = Some (0, nc', [])
    /\ registry nc' = registry nc ++ [parsed_into slot u p h sv]
    /\ num_servers nc' = num_servers nc + 1
    /\ cursor nc' = cursor nc /\ state nc' = state nc
    /\ block_ok nc'.
Proof.
  intros Hb Hslot Hwf E.
  assert (Hrun : network_client_add_server nc u [] j
                 = Some (0, set_num_servers (num_servers nc + 1)
                              (set_servers
                                 (Some (store (reallocarray j (servers nc)
                                                            (num_servers nc + 1))
                                              (Z.to_nat (num_servers nc))
                                              (parsed_into slot u p h sv))) nc), [])).
  { unfold network_client_add_server. cbn [alloc negb].
    rewrite Hslot, (parse_server_of_split slot u p h sv Hwf E).
    reflexivity. }
  eexists. split; [exact Hrun|].
  assert (Hlen : List.length (reallocarray j (servers nc) (num_servers nc + 1))
                 = S (Z.to_nat (num_servers nc)))
    by (destruct Hb; rewrite reallocarray_length; lia).
  destruct (add_server_frame _ _ _ _ _ _ _ Hrun) as [Hst [_ [Hcur _]]].
  destruct Hb as [Hb Hz].
  split; [|split; [reflexivity|split; [exact Hcur|split; [exact Hst|]]]].
  - rewrite (registry_block nc). unfold registry.
    cbn [servers num_servers set_servers set_num_servers].
    replace (Z.to_nat (num_servers nc + 1)) with (S (Z.to_nat (num_servers nc)))
      by lia.
    rewrite firstn_S_store by lia.
    f_equal. unfold block. apply reallocarray_firstn; fold (block nc); lia.
  - unfold block_ok, block. cbn. rewrite store_length, Hlen. split; [lia|].
    rewrite skipn_all2 by (rewrite store_length, Hlen; lia). constructor.
Qed.

Lemma add_server_done nc u p h sv j :
  block_ok nc -> blank j -> split_uri u = (p, h, Some sv) ->
  exists nc',
    network_client_add_server nc u [] j = Some (0, nc', [])
    /\ registry nc' = registry nc ++ [parsed_server u p h sv]
    /\ num_servers nc' = num_servers nc + 1
    /\ cursor nc' = cursor nc /\ state nc' = state nc
    /\ block_ok nc'.
Proof.
  intros Hb Hj E. destruct (new_slot nc j Hb) as [slot [Hslot Hs]].
  assert (Hbl : blank slot)
    by (destruct Hs as [->|[-> _]]; [split; reflexivity|exact Hj]).
  destruct (add_server_parsed nc u p h sv j slot Hb Hslot (blank_wf _ Hbl) E)
    as [nc' H].
  exists nc'. now rewrite (parsed_into_blank slot u p h sv Hbl) in H.
Qed.

Lemma add_all_done us : forall nc,
  block_ok nc -> Forall clean_add us ->
  exists nc',
    add_all us nc = Some nc'
    /\ registry nc' = registry nc ++ map (fun a => server_of_uri (fst a)) us
    /\ num_servers nc' = num_servers nc + Z.of_nat (List.length us)
    /\ cursor nc' = cursor nc /\ state nc' = state nc.
Proof.
  induction us as [|[u j] us IH]; intros nc Hb Hus.
  - exists nc. cbn. rewrite app_nil_r. repeat split. lia.
  - inversion Hus as [|? ? [Hu Hj] Hus']; subst. cbn [fst snd] in Hu, Hj.
    unfold has_services in Hu.
    destruct (split_uri u) as [[p h] [sv|]] eqn:E; [|cbn in Hu; congruence].
    destruct (add_server_done nc u p h sv j Hb Hj E)
      as [nc1 [Hrun [Hr [Hn [Hc [Hs Hb1]]]]]].
    destruct (IH nc1 Hb1 Hus') as [nc' [Hall [Hr' [Hn' [Hc' Hs']]]]].
    exists nc'. cbn [add_all]. rewrite Hrun. cbn [Z.eqb].
    split; [exact Hall|].
    split; [rewrite Hr', Hr, <- app_assoc; cbn [map app fst];
            unfold server_of_uri at 2; now rewrite E|].
    split; [cbn [List.length]; lia|]. split; congruence.
Qed.

(** Servers come out of the registry in the order they went in: adding
    URIs that have a service list, each into a slot that reads as an empty
    server, no allocation failing, appends the server each one parses to,
    one by one, and moves neither cursor nor state. *)
Theorem add_servers_keep_order
        (us : list (string * network_client_server)) (nc : network_client) :
  block_ok nc -> Forall clean_add us ->
  exists nc',
    add_all us nc = Some nc'
    /\ registry nc' = registry nc ++ map (fun a => server_of_uri (fst a)) us
    /\ num_servers nc' = num_servers nc + Z.of_nat (List.length us)
    /\ cursor nc' = cursor nc /\ state nc' = state nc.
Proof. apply add_all_done. Qed.


Lemma server_free_ok s : server_ok s -> server_free s = Some server_zero.
Proof.
  intros [Hn [l [Hl Hlen]]]. unfold server_free. rewrite Hl.
  destruct (Z.leb_spec (num_services s) 0); [reflexivity|].
  destruct (Z.leb_spec (num_services s) (Z.of_nat (List.length l)));
    [reflexivity|lia].
Qed.

Lemma servers_free_ok l : Forall server_ok l -> servers_free l = Some tt.
Proof.
  induction 1 as [|s l Hs _ IH]; cbn; [reflexivity|].
  now rewrite (server_free_ok s Hs).
Qed.

Lemma remove_servers_done nc :
  block_ok nc -> Forall server_ok (registry nc) ->
  exists nc',
    network_client_remove_servers nc = Some (0, nc')
    /\ servers nc' = None /\ num_servers nc' = 0 /\ registry nc' = []
    /\ cursor nc' = cursor nc /\ state nc' = state nc /\ block_ok nc'.
Proof.
  intros [Hb Hz] Hf. unfold network_client_remove_servers, registry, block in *.
  destruct (servers nc) as [arr|] eqn:Hs.
  - destruct (Z.ltb_spec (Z.of_nat (List.length arr)) (num_servers nc)); [lia|].
    rewrite (servers_free_ok _ Hf). eexists. split; [reflexivity|].
    unfold block_ok, block, registry. cbn. repeat split; try lia. constructor.
  - exists nc. split; [reflexivity|]. cbn in Hb.
    assert (E : num_servers nc = 0) by lia.
    unfold block_ok, block, registry. rewrite Hs, E. cbn.
    repeat split; try lia. constructor.
Qed.

(** Clearing a registry of parsed servers always succeeds: it returns 0 and
    leaves no server block and a count of 0, whatever was registered; the
    cursor and the connection state are not touched (the cursor is not
    reset), and clearing again changes nothing. *)
Theorem remove_servers_clears (nc : network_client) :
  block_ok nc -> Forall server_ok (registry nc) ->
  exists nc',
    network_client_remove_servers nc = Some (0, nc')
    /\ servers nc' = None /\ num_servers nc' = 0 /\ registry nc' = []
    /\ cursor nc' = cursor nc /\ state nc' = state nc
    /\ network_client_remove_servers nc' = Some (0, nc').
Proof.
  intros Hb Hf.
  destruct (remove_servers_done nc Hb Hf)
    as [nc' [Hrun [Hs [Hn [Hr [Hc [Hst _]]]]]]].
  exists nc'. repeat split; auto.
  unfold network_client_remove_servers. now rewrite Hs.
Qed.

(** Clearing and registering again, each new slot reading as an empty
    server, gives exactly the new servers, in order, under the cursor the
    client had before the clear. *)
Theorem clear_then_add_servers
        (us : list (string * network_client_server)) (nc : network_client) :
  block_ok nc -> Forall server_ok (registry nc) -> Forall clean_add us ->
  exists nc1 nc2,
    network_client_remove_servers nc = Some (0, nc1)
    /\ add_all us nc1 = Some nc2
    /\ registry nc2 = map (fun a => server_of_uri (fst a)) us
    /\ num_servers nc2 = Z.of_nat (List.length us)
    /\ cursor nc2 = cursor nc.
Proof.
  intros Hb Hf Hus.
  destruct (remove_servers_done nc Hb Hf)
    as [nc1 [Hrun [_ [Hn [Hr [Hc [_ Hb1]]]]]]].
  destruct (add_all_done us nc1 Hb1 Hus) as [nc2 [Hall [Hr2 [Hn2 [Hc2 _]]]]].
  exists nc1, nc2. rewrite Hr in Hr2. rewrite Hn in Hn2. cbn in Hr2.
  repeat split; auto; congruence.
Qed.

(** When the service block is lost to a failed [reallocarray] after a
    service was added, the clean-up of [parse_server] reads through the
    [NULL] block: parsing a URI with two or more services is undefined when
    the second service's [reallocarray] fails. *)
Theorem parse_server_cleanup_reads_null (u p h sv t1 t2 : string)
        (ts : list string) (rest : heap) :
  split_uri u = (p, h, Some sv) -> strsep_all sv = t1 :: t2 :: ts ->
  parse_server server_zero u
               (true :: true :: true :: true :: true :: true :: true :: false :: rest)
  = None.
Proof.
  intros E Et. unfold parse_server. cbn [alloc negb]. rewrite E, Et.
  reflexivity.
Qed.

(** With the server block lost to the failed [reallocarray] of
    [add_server] while servers were registered, the next timer firing in
    Closed reads through the [NULL] server pointer. *)
Theorem timer_after_lost_block_undefined
        (nc : network_client) (u : string) (h : heap)
        (junk : network_client_server) (rc : Z) :
  state nc = network_client_closed -> num_servers nc <> 0 ->
  exists nc',
    network_client_add_server nc u (false :: h) junk = Some (-1, nc', h)
    /\ reconnect_cb rc nc' = None.
Proof.
  intros Hst Hn. eexists. split; [reflexivity|].
  unfold reconnect_cb. cbn [state set_servers num_servers]. rewrite Hst.
  cbn [conn_state_eqb negb orb].
  destruct (Z.eqb_spec (num_servers nc) 0); [congruence|].
  destruct (choose_next_server (set_servers None nc)) as [[srv nc0]|] eqn:E;
    [|reflexivity].
  apply choose_next_server_frame in E as [_ [_ [Hs [_ Hsrv]]]].
  cbn [servers set_servers] in Hs. subst srv.
  unfold get_curr_service, load_server, get_curr_server. now rewrite Hs.
Qed.

(** ** Closing *)

(** [set_closed] leaves the client Closed with its resolution result
    released (and [uv_freeaddrinfo] called exactly for a result it held);
    a TLS session it points to is handed to [tls_free] but the pointer is
    kept; the only callback it invokes is the registered close callback,
    which finds the client already Closed and without resolution result. *)
Theorem set_closed_releases (nc : network_client) :
  state (fst (set_closed nc)) = network_client_closed
  /\ addrinfo (fst (set_closed nc)) = None
  /\ tls (fst (set_closed nc)) = tls nc
  /\ (forall ai, In (Ev_uv_freeaddrinfo ai) (snd (set_closed nc))
                 <-> addrinfo nc = Some ai)
  /\ (forall t, In (Ev_tls_free t) (snd (set_closed nc)) <-> tls nc = Some t)
  /\ (forall k f a seen,
        In (Ev_callback k f a seen) (snd (set_closed nc)) ->
        k = cb_close /\ close_cb nc = Some f /\ close_cb_arg nc = a
        /\ seen = fst (set_closed nc)).
Proof.
  destruct nc as [sv ns cs cv ai tl ts st rcb ra ccb ca xcb xa].
  unfold set_closed. cbn.
  destruct ai, tl, xcb; cbn;
    repeat split; intros;
    repeat match goal with
           | H : _ \/ _ |- _ => destruct H
           | H : False |- _ => destruct H
           | H : Ev_callback _ _ _ _ = Ev_callback _ _ _ _ |- _ =>
               injection H as <- <- <- <-
           | H : _ = _ |- _ => first [discriminate H | injection H as <-]
           end; auto.
Qed.

(** [set_closed] does not forget the session it freed: closing twice in a
    row hands the same session to [tls_free] twice. *)
Theorem set_closed_twice_frees_twice (nc : network_client) (t : Z) :
  tls nc = Some t ->
  frees t (snd (set_closed nc) ++ snd (set_closed (fst (set_closed nc))))
  = 2%nat.
Proof.
  destruct nc as [sv ns cs cv ai tl ts st rcb ra ccb ca xcb xa].
  cbn. intros ->. unfold set_closed, frees. cbn.
  destruct ai, xcb; cbn; rewrite !Z.eqb_refl; reflexivity.
Qed.

Lemma callbacks_app k ev1 ev2 :
  callbacks k (ev1 ++ ev2) = (callbacks k ev1 + callbacks k ev2)%nat.
Proof. unfold callbacks. now rewrite filter_app, length_app. Qed.

(** [network_client_close] refuses (-1, nothing done) unless the client is
    Connected.  On a Connected client reached from construction it returns
    0 and only requests the handle to be closed: the state is still
    Connected until the loop reports the handle closed.  [on_close] then
    takes the client from the handle's [data].  When [connect_tcp] has
    stored it there (the client has tried a TCP or TLS server before), the
    client ends Closed with no request in flight and no live session, and
    the close callback has been invoked once; when not (the client has only
    ever connected over UDP), [data] is [NULL] and [set_closed] writes
    through it. *)
Theorem close_completes (ls : list label) (w : world) :
  TLS_READ_AGAIN <> 0 -> TLS_WRITE_AGAIN <> 0 ->
  run ls world0 = Some w ->
  (forall nc, state nc <> network_client_connected ->
              network_client_close nc = (-1, nc, []))
  /\ (state (client w) = network_client_connected -> closing w = false ->
      network_client_close (client w) = (0, client w, [Ev_uv_close])
      /\ exists w1,
           step L_close w = Some w1
           /\ state (client w1) = network_client_connected
           /\ (conn_data w = false -> step L_closed w1 = None)
           /\ (conn_data w = true ->
               exists w2,
                 step L_closed w1 = Some w2
                 /\ state (client w2) = network_client_closed
                 /\ requests w2 = [] /\ live_tls w2 = []
                 /\ callbacks cb_close (trace w2)
                    = (callbacks cb_close (trace w)
                       + match close_cb (client w) with
                         | Some _ => 1
                         | None => 0
                         end)%nat)).
Proof.
  intros Hra Hwa Hrun. split.
  - intros nc H. unfold network_client_close.
    destruct (state nc); cbn; congruence.
  - intros Hst Hcl.
    assert (Hinv : loop_inv w) by (apply (reachable_inv Hra Hwa); now exists ls).
    assert (Hc : network_client_close (client w) = (0, client w, [Ev_uv_close]))
      by (unfold network_client_close; now rewrite Hst).
    split; [exact Hc|].
    assert (Hw1 : step L_close w
                  = Some (absorb (with_client (client w) w) Ev_uv_close)).
    { cbn [step]. rewrite Hcl. cbn [andb]. now rewrite Hc. }
    set (w1 := absorb (with_client (client w) w) Ev_uv_close) in *.
    assert (Hinv1 : loop_inv w1) by (eapply (step_inv Hra Hwa); eauto).
    assert (Hcl1 : closing w1 = true) by reflexivity.
    assert (Hcd : conn_data w1 = conn_data w) by reflexivity.
    destruct (closing_inv w1 Hinv1 Hcl1) as [Hst1 [Hrq1 [Hh1 _]]].
    exists w1. split; [exact Hw1|]. split; [exact Hst1|]. split.
    + intros Hd. cbn [step]. rewrite Hcl1, Hcd, Hd. reflexivity.
    + intros Hd.
      destruct (set_closed_world (client w1)
                  (mk_world (client w1) (inflight w1) false (armed w1)
                            (live_tls w1) (trace w1) true))
        as [nc' [ev [E [Hs' [_ [_ [Hf' [_ [Hl' _]]]]]]]]]; [exact Hh1|].
      eexists. split.
      { cbn [step]. rewrite Hcl1, Hcd, Hd. unfold on_close. rewrite E.
        reflexivity. }
      unfold with_client in *.
      cbn [client inflight closing armed live_tls trace conn_data] in *.
      rewrite emit_client. cbn [client].
      split; [exact Hs'|].
      split; [unfold requests in *; rewrite Hf'; exact Hrq1|].
      split; [exact Hl'|].
      rewrite trace_emit. cbn [trace]. rewrite callbacks_app.
      destruct (set_closed_callbacks (client w1)) as [_ [_ Hx]].
      rewrite E in Hx. cbn [snd] in Hx. rewrite Hx.
      subst w1. cbn [absorb trace client with_client].
      rewrite callbacks_app. cbn. lia.
Qed.

(** ** Handshake driver and connect callback *)

(** The readiness handler touches the client only while it is Connecting
    and [tls_state] asks for another step; then it makes one step and keeps
    its result, staying in Connecting unless the step reports 0. *)
Theorem on_poll_steps_only_pending_handshake (stp : Z) (nc : network_client) :
  (state nc <> network_client_connecting \/ ~ wants_step nc ->
   on_poll stp nc = (nc, []))
  /\ (state nc = network_client_connecting -> wants_step nc -> stp <> 0 ->
      on_poll stp nc
        = (set_tls_state stp nc, [Ev_tls_connect_socket (tls nc) stp])).
Proof.
  unfold on_poll, wants_step. split.
  - intros [H|H].
    + destruct (state nc); cbn; try reflexivity. congruence.
    + destruct (conn_state_eqb _ _); [|reflexivity].
      destruct (Z.eqb_spec (tls_state nc) TLS_READ_AGAIN); [tauto|].
      destruct (Z.eqb_spec (tls_state nc) TLS_WRITE_AGAIN); [tauto|].
      reflexivity.
  - intros Hst Hw Hne. rewrite Hst. cbn [conn_state_eqb].
    assert (E : (tls_state nc =? TLS_READ_AGAIN)
                || (tls_state nc =? TLS_WRITE_AGAIN) = true).
    { destruct Hw as [->| ->]; rewrite Z.eqb_refl; cbn; auto using orb_true_r. }
    rewrite E. cbn [tls_state set_tls_state tls].
    destruct (Z.eqb_spec stp 0); [congruence|].
    destruct (stp =? -1); reflexivity.
Qed.

(** A failed transport connect closes the client: no connect callback, the
    close callback once, no TLS session created. *)
Theorem connect_failure_closes (nc : network_client)
        (status : Z) (session fd : option Z) (stp : Z) :
  has_target nc -> status <> 0 ->
  exists nc' ev,
    connect_tcp_cb status session fd stp nc = Some (nc', ev)
    /\ state nc' = network_client_closed
    /\ tls nc' = tls nc
    /\ allocates_none ev = true
    /\ callbacks cb_connect ev = 0%nat
    /\ callbacks cb_close ev
       = match close_cb nc with Some _ => 1%nat | None => 0%nat end.
Proof.
  intros [s [v [Hs Hv]]] Hne. unfold connect_tcp_cb.
  destruct (Z.eqb_spec status 0); [congruence|]. cbn [negb]. rewrite Hs, Hv.
  exists (fst (set_closed nc)), (snd (set_closed nc)).
  split; [now destruct (set_closed nc)|].
  destruct (set_closed_callbacks nc) as [H1 [H2 H3]].
  repeat split; auto.
  - destruct nc as [sv ns cs cv ai tl ts st rcb ra ccb ca xcb xa].
    unfold set_closed. cbn. destruct ai, tl; reflexivity.
  - apply set_closed_allocates_none.
Qed.

(** After a successful transport connect to a server that is not TCP: when
    [tls_client] returns [NULL] the client closes (close callback once);
    when the descriptor cannot be found the session is kept, no watcher is
    started and the state stays as it was; otherwise the session is created,
    the result of the first handshake step is stored and the readiness
    watcher is started, the state still as it was. *)
Theorem tls_setup_outcomes (nc : network_client) (p : network_client_proto)
        (stp : Z) :
  current_proto nc = Some p -> p <> network_client_proto_tcp ->
  (forall fd, exists nc' ev,
      connect_tcp_cb 0 None fd stp nc = Some (nc', ev)
      /\ state nc' = network_client_closed /\ tls nc' = None
      /\ callbacks cb_connect ev = 0%nat
      /\ callbacks cb_close ev
         = match close_cb nc with Some _ => 1%nat | None => 0%nat end)
  /\ (forall t,
        connect_tcp_cb 0 (Some t) None stp nc
        = Some (set_tls (Some t) nc, [Ev_tls_client (Some t)]))
  /\ (forall t sock,
        connect_tcp_cb 0 (Some t) (Some sock) stp nc
        = Some (set_tls_state stp (set_tls (Some t) nc),
                [Ev_tls_client (Some t); Ev_tls_connect_socket (Some t) stp;
                 Ev_uv_poll_start sock])).
Proof.
  unfold current_proto. intros Hp Hne.
  destruct (load_server nc (get_curr_server nc)) as [s|] eqn:Hs;
    [|discriminate]. cbn in Hp. injection Hp as Hp.
  assert (Hb : proto_eqb (proto s) network_client_proto_tcp = false)
    by (rewrite Hp; destruct p; [reflexivity|congruence|reflexivity]).
  split; [|split].
  - intros fd. unfold connect_tcp_cb. cbn [Z.eqb negb]. rewrite Hs, Hb.
    cbn [tls set_tls].
    exists (fst (set_closed (set_tls None nc))),
           (Ev_tls_client None :: snd (set_closed (set_tls None nc))).
    split; [now destruct (set_closed (set_tls None nc))|].
    destruct (set_closed_callbacks (set_tls None nc)) as [H1 [H2 H3]].
    split; [exact H1|]. split.
    + destruct nc as [sv ns cs cv ai tl ts st rcb ra ccb ca xcb xa].
      unfold set_closed. cbn. destruct ai; reflexivity.
    + split; [exact H2|exact H3].
  - intros t. unfold connect_tcp_cb. cbn [Z.eqb negb]. now rewrite Hs, Hb.
  - intros t sock. unfold connect_tcp_cb. cbn [Z.eqb negb]. now rewrite Hs, Hb.
Qed.

(** After a successful resolution for a TCP or TLS server the client keeps
    the resolution result and, when [uv_tcp_connect] accepts the request,
    is Connecting with nothing else done; when [uv_tcp_connect] refuses it,
    the client is Closed again, the result released, the close callback
    invoked once. *)
Theorem resolution_success_stream (nc : network_client)
        (s : network_client_server) (status ai : Z) :
  load_server nc (get_curr_server nc) = Some s ->
  proto s <> network_client_proto_udp -> 0 <= status ->
  resolving_cb status ai 0 nc
  = Some (set_state network_client_connecting (set_addrinfo (Some ai) nc),
          [Ev_uv_tcp_connect ai 0])
  /\ (forall rc, rc <> 0 ->
      exists nc' ev,
        resolving_cb status ai rc nc = Some (nc', ev)
        /\ state nc' = network_client_closed /\ addrinfo nc' = None
        /\ In (Ev_uv_freeaddrinfo ai) ev
        /\ callbacks cb_connect ev = 0%nat
        /\ callbacks cb_close ev
           = match close_cb nc with Some _ => 1%nat | None => 0%nat end).
Proof.
  intros Hs Hp Hok.
  assert (E : load_server (set_addrinfo (Some ai) nc) (get_curr_server nc)
              = Some s) by exact Hs.
  split.
  - unfold resolving_cb. destruct (Z.ltb_spec status 0); [lia|]. rewrite E.
    destruct (proto s); [congruence| |]; reflexivity.
  - intros rc Hrc. unfold resolving_cb.
    destruct (Z.ltb_spec status 0); [lia|]. rewrite E.
    assert (Hgoal : exists nc' ev,
               (let '(r, nc0, ev0) := connect_tcp rc (set_addrinfo (Some ai) nc) ai in
                if r =? 0
                then Some (set_state network_client_connecting nc0, ev0)
                else let (nc1, ev') := set_closed nc0 in Some (nc1, ev0 ++ ev'))
               = Some (nc', ev)
               /\ state nc' = network_client_closed /\ addrinfo nc' = None
               /\ In (Ev_uv_freeaddrinfo ai) ev
               /\ callbacks cb_connect ev = 0%nat
               /\ callbacks cb_close ev
                  = match close_cb nc with Some _ => 1%nat | None => 0%nat end).
    { unfold connect_tcp. destruct (Z.eqb_spec rc 0); [congruence|].
      destruct nc as [sv ns cs cv a0 tl ts st rcb ra ccb ca xcb xa].
      unfold set_closed, callbacks. cbn.
      destruct tl, xcb; cbn; eexists _, _; (split; [reflexivity|]); cbn; auto 10. }
    destruct (proto s); [congruence| |]; exact Hgoal.
Qed.

(** ** The attempt pipeline *)

Lemma idle_step l w w' :
  state (client w) = network_client_resolving
  \/ state (client w) = network_client_connecting ->
  inflight w = [] -> closing w = false ->
  step l w = Some w' ->
  state (client w') = state (client w)
  /\ inflight w' = [] /\ closing w' = false.
Proof.
  intros Hst Hfl Hcl.
  assert (Hnc : conn_state_eqb (state (client w)) network_client_closed = false)
    by (destruct Hst as [-> | ->]; reflexivity).
  assert (Hnn : conn_state_eqb (state (client w)) network_client_connected = false)
    by (destruct Hst as [-> | ->]; reflexivity).
  destruct l; cbn [step].
  - destruct (network_client_add_server _ _ _ _) as [[[rc nc] h']|] eqn:E;
      [|discriminate].
    intros [= <-]. cbn. destruct (add_server_frame _ _ _ _ _ _ _ E) as [-> _]. auto.
  - destruct (network_client_remove_servers _) as [[rc nc]|] eqn:E;
      [|discriminate].
    intros [= <-]. cbn. destruct (remove_servers_frame _ _ _ E) as [-> _]. auto.
  - intros [= <-]. cbn. auto.
  - intros [= <-]. cbn. auto.
  - intros [= <-]. cbn. auto.
  - unfold network_client_start. destruct (negb _); intros [= <-];
      destruct w; cbn in *; auto.
  - intros [= <-]. destruct w; cbn in *; auto.
  - rewrite Hcl. cbn [andb]. unfold network_client_close. rewrite Hnn.
    cbn. intros [= <-]. destruct w; cbn in *; auto.
  - destruct (armed w); [|discriminate]. unfold reconnect_cb. rewrite Hnc.
    cbn. intros [= <-]. destruct w; cbn in *; auto.
  - unfold pending. rewrite Hfl. cbn. discriminate.
  - unfold pending. rewrite Hfl. cbn. discriminate.
  - unfold pending. rewrite Hfl. cbn. discriminate.
  - rewrite Hcl. discriminate.
Qed.

(** No step has a timeout: a client that is Resolving or Connecting with no
    request in flight (the loop refused [uv_getaddrinfo], or [uv_fileno]
    failed after the transport connect) stays in that state whatever its
    owner or the loop do next. *)
Theorem no_request_no_progress (ls : list label) (w w' : world) :
  state (client w) = network_client_resolving
  \/ state (client w) = network_client_connecting ->
  inflight w = [] -> closing w = false ->
  run ls w = Some w' ->
  state (client w') = state (client w).
Proof.
  revert w. induction ls as [|l ls IH]; intros w Hst Hfl Hcl; cbn.
  - now intros [= <-].
  - destruct (step l w) as [w1|] eqn:E; [|discriminate].
    destruct (idle_step l w w1 Hst Hfl Hcl E) as [Hst1 [Hfl1 Hcl1]].
    intros Hrun. rewrite <- Hst1. apply IH; auto. now rewrite Hst1.
Qed.

(** The loop and the client agree on where an attempt stands: in every
    state reached from construction, a resolution is in flight only while
    Resolving, a transport connect only while Connecting (and before any
    TLS session exists), the handle is closing only while Connected with no
    request in flight, and in Closed no request is in flight.  Readiness
    watchers know no such bound: none is ever stopped. *)
Theorem callbacks_arrive_in_expected_state (ls : list label) (w : world) :
  TLS_READ_AGAIN <> 0 -> TLS_WRITE_AGAIN <> 0 ->
  run ls world0 = Some w ->
  (pending op_resolve w = true ->
     state (client w) = network_client_resolving)
  /\ (pending op_connect w = true ->
        state (client w) = network_client_connecting /\ live_tls w = [])
  /\ (closing w = true ->
        state (client w) = network_client_connected /\ requests w = [])
  /\ (state (client w) = network_client_closed ->
        requests w = [] /\ closing w = false).
Proof.
  intros Hra Hwa Hrun.
  assert (Hinv : loop_inv w) by (apply (reachable_inv Hra Hwa); now exists ls).
  split; [|split; [|split]].
  - intros Hp. apply (pending_resolve_inv w Hinv Hp).
  - intros Hp. destruct (pending_connect_inv w Hinv Hp) as [? [_ [_ [? _]]]]. auto.
  - intros Hc. destruct (closing_inv w Hinv Hc) as [? [? _]]. auto.
  - intros Hst. unfold loop_inv in Hinv. rewrite Hst in Hinv. tauto.
Qed.

Lemma choose_next_server_selection nc :
  selection_ok nc -> 1 <= num_servers nc ->
  exists nc0,
    choose_next_server nc = Some (get_curr_server nc0, nc0)
    /\ selection_ok nc0 /\ num_servers nc0 = num_servers nc
    /\ registry nc0 = registry nc /\ state nc0 = state nc.
Proof.
  intros Hsel Hn.
  pose proof (selection_registry_ok nc Hsel Hn) as Hreg.
  destruct (cursor_ok_has_target nc Hsel Hn) as [Hc _].
  destruct (cursor_ok_validp nc Hc) as [Hcur Hv].
  destruct (choose_next_server_next nc _ Hreg Hcur Hv)
    as [r [nc1 [Hch [Hs [Hnum Hc1]]]]].
  destruct (choose_next_server_frame _ _ _ Hch) as [Hst [_ [_ [_ Hr]]]].
  destruct (same_registry nc nc1 Hs Hnum) as [Hreg1 [Hcs _]].
  destruct (next_rank _ _ (service_counts_pos nc Hreg) Hv) as [Hv' _].
  assert (Hc' : cursor_ok nc1)
    by (eapply validp_cursor_ok; [exact Hc1|now rewrite Hcs]).
  exists nc1. subst r. split; [exact Hch|].
  split; [|auto].
  destruct Hsel as [Hb [Hf _]].
  unfold selection_ok, block_ok, block. rewrite Hs, Hnum, Hreg1.
  repeat split; try apply Hb; auto. intros E. lia.
Qed.

(** On a registry of parsed servers with a valid cursor, a timer firing in
    Closed never reads out of bounds: it advances the selector, asks for the
    resolution of the host and service now under the cursor (datagram
    hints exactly for a UDP server) and leaves the client Resolving. *)
Theorem reconnect_cb_starts_attempt (nc : network_client) (rc : Z) :
  selection_ok nc -> 1 <= num_servers nc ->
  state nc = network_client_closed ->
  exists nc0 s svc,
    advance nc = Some nc0
    /\ load_server nc0 (get_curr_server nc0) = Some s
    /\ get_curr_service nc0 = Some (Some svc)
    /\ reconnect_cb rc nc
       = Some (set_state network_client_resolving nc0,
               [Ev_uv_getaddrinfo (host s) (Some svc)
                                  (proto_eqb (proto s) network_client_proto_udp) rc]).
Proof.
  intros Hsel Hn Hst.
  destruct (choose_next_server_selection nc Hsel Hn)
    as [nc0 [Hch [Hsel0 [Hn0 _]]]].
  destruct (cursor_ok_has_target nc0 Hsel0) as [_ [s [svc [Hs Hv]]]]; [lia|].
  exists nc0, s, svc. unfold advance. rewrite Hch.
  split; [reflexivity|]. split; [exact Hs|]. split; [exact Hv|].
  unfold reconnect_cb. rewrite Hst. cbn [conn_state_eqb negb orb].
  destruct (Z.eqb_spec (num_servers nc) 0); [lia|].
  rewrite Hch, Hv, Hs. reflexivity.
Qed.

End TlsConstants.

(** * Instances

    From here on the retry codes are those of libtls,
    [TLS_READ_AGAIN = -2] and [TLS_WRITE_AGAIN = -3]. *)

Lemma choose_next_server_full_cycle_witness :
  registry_ok three_endpoints /\ cursor_ok three_endpoints
  /\ exists k vs,
       nth_error (endpoints three_endpoints) k = Some (cursor three_endpoints)
       /\ List.length (endpoints three_endpoints)
          = list_sum (service_counts three_endpoints)
       /\ visits (list_sum (service_counts three_endpoints)) three_endpoints
          = Some vs
       /\ vs = skipn (S k) (endpoints three_endpoints)
               ++ firstn (S k) (endpoints three_endpoints)
       /\ NoDup vs
       /\ (forall i j, In (i, j) vs <->
             exists s, zth (registry three_endpoints) i = Some s
                       /\ 0 <= j < num_services s)
       /\ (num_servers three_endpoints = 1 ->
           forall p, In p vs -> fst p = curr_server three_endpoints).
Proof.
  assert (Hr : registry_ok three_endpoints).
  { split; [eexists; split; [reflexivity|cbn; lia]|].
    split; [cbn; lia|]. cbn. repeat constructor; cbn; lia. }
  assert (Hc : cursor_ok three_endpoints).
  { eexists. split; [reflexivity|cbn; lia]. }
  split; [exact Hr|split; [exact Hc|]].
  exact (choose_next_server_full_cycle three_endpoints Hr Hc).
Defined.



Lemma tls_session_scope_witness :
  let w := outcome (-2) (-3) (tls_handshake_run (-2)) in
  -2 <> 0 /\ -3 <> 0
  /\ run (-2) (-3) (tls_handshake_run (-2)) world0 = Some w
  /\ live_tls w = [5]
  /\ (live_tls w <> [] ->
        state (client w) = network_client_connecting
        \/ state (client w) = network_client_connected)
  /\ (state (client w) = network_client_closed -> live_tls w = [])
  /\ (List.length (live_tls w) <= 1)%nat
  /\ (forall t, In t (live_tls w) -> tls (client w) = Some t)
  /\ (forall l w',
        step (-2) (-3) l w = Some w' ->
        (forall t, In t (live_tls w') -> In t (live_tls w))
        \/ exists session fd stp p,
             l = L_connected 0 session fd stp
             /\ current_proto (client w) = Some p
             /\ p <> network_client_proto_tcp).
Proof.
  intros w.
  assert (H2 : -2 <> 0) by lia. assert (H3 : -3 <> 0) by lia.
  assert (E : run (-2) (-3) (tls_handshake_run (-2)) world0 = Some w)
    by (vm_compute; reflexivity).
  split; [exact H2|]. split; [exact H3|].
  split; [exact E|]. split; [reflexivity|].
  exact (tls_session_scope (-2) (-3) H2 H3 _ _ E).
Defined.

Lemma resolution_failure_closes_witness :
  has_target three_endpoints /\ -1 < 0
  /\ exists nc' ev,
       resolving_cb (-1) 0 0 three_endpoints = Some (nc', ev)
       /\ state nc' = network_client_closed
       /\ callbacks cb_connect ev = 0%nat
       /\ callbacks cb_close ev = 1%nat.
Proof.
  assert (Ht : has_target three_endpoints)
    by (eexists _, _; split; reflexivity).
  split; [exact Ht|]. split; [lia|].
  apply (resolution_failure_closes three_endpoints (-1) 0 0 Ht). lia.
Defined.

Lemma connect_cb_order_witness :
  let udp_nc := set_state network_client_resolving three_endpoints in
  let tcp_nc := network_client_set_connect_cb (Some 1) 10
                  (set_state network_client_connecting (two_servers 1)) in
  (load_server udp_nc (get_curr_server udp_nc)
     = Some (mk_server (Some "udp://10.0.0.5:53,5353"%string)
                       network_client_proto_udp (Some "10.0.0.5"%string)
                       (Some ["53"%string; "5353"%string]) 2)
   /\ connect_cb udp_nc = Some 1
   /\ exists nc' seen,
        resolving_cb 0 7 0 udp_nc
          = Some (nc', [Ev_uv_udp_init; Ev_callback cb_connect 1 10 seen])
        /\ state seen = network_client_resolving
        /\ state nc' = network_client_connected)
  /\ (load_server tcp_nc (get_curr_server tcp_nc) = Some server_b
      /\ connect_cb tcp_nc = Some 1
      /\ exists nc' seen,
           connect_tcp_cb 0 None None 0 tcp_nc
             = Some (nc', [Ev_callback cb_connect 1 10 seen])
           /\ state seen = network_client_connected
           /\ state nc' = network_client_connected).
Proof.
  intros udp_nc tcp_nc. split.
  - split; [reflexivity|]. split; [reflexivity|].
    apply (proj1 (connect_cb_order udp_nc _ 1 eq_refl eq_refl));
      [reflexivity|reflexivity|lia].
  - split; [reflexivity|]. split; [reflexivity|].
    apply (proj2 (connect_cb_order tcp_nc _ 1 eq_refl eq_refl)).
    reflexivity.
Defined.

Lemma handshake_success_skips_connect_cb_witness :
  let nc := client (outcome (-2) (-3) (tls_handshake_run (-2))) in
  state nc = network_client_connecting /\ wants_step (-2) (-3) nc
  /\ connect_cb nc = Some 1
  /\ exists nc',
       on_poll (-2) (-3) 0 nc = (nc', [Ev_tls_connect_socket (tls nc) 0])
       /\ state nc' = network_client_connected
       /\ connect_cb nc' = connect_cb nc
       /\ callbacks cb_connect (snd (on_poll (-2) (-3) 0 nc)) = 0%nat.
Proof.
  intros nc.
  assert (Hs : state nc = network_client_connecting) by reflexivity.
  assert (Hw : wants_step (-2) (-3) nc) by (left; reflexivity).
  split; [exact Hs|]. split; [exact Hw|]. split; [reflexivity|].
  exact (handshake_success_skips_connect_cb (-2) (-3) nc Hs Hw).
Defined.

Lemma fatal_handshake_stays_connecting_witness :
  let nc := client (outcome (-2) (-3) (tls_handshake_run (-3))) in
  state nc = network_client_connecting /\ wants_step (-2) (-3) nc
  /\ exists nc',
       on_poll (-2) (-3) (-1) nc = (nc', [Ev_tls_connect_socket (tls nc) (-1)])
       /\ state nc' = network_client_connecting
       /\ tls_state nc' = -1.
Proof.
  intros nc.
  assert (Hs : state nc = network_client_connecting) by reflexivity.
  assert (Hw : wants_step (-2) (-3) nc) by (right; reflexivity).
  split; [exact Hs|]. split; [exact Hw|].
  exact (fatal_handshake_stays_connecting (-2) (-3) nc Hs Hw).
Defined.

(** C4, as the spec states it, fails: the four first attempts are not
    a/53, b/80, a/53, b/80. *)
Lemma first_attempt_counterexample :
  ~ (exists w,
        run (-2) (-3) (two_servers_setup ++ failing_rounds 4) world0 = Some w
        /\ attempts (trace w) = [a53; b80; a53; b80]).
Proof.
  intros [w [Hw Ha]]. vm_compute in Hw. injection Hw as <-.
  vm_compute in Ha. discriminate.
Qed.

(** C5, as the spec states it, fails: a TLS target whose transport connect
    is pending is in Connecting and holds no session. *)
Lemma tls_session_iff_counterexample :
  ~ (forall w, reachable (-2) (-3) w ->
       (live_tls w <> [] <->
        current_proto (client w) = Some network_client_proto_tls
        /\ (state (client w) = network_client_connecting
            \/ state (client w) = network_client_connected))).
Proof.
  intros H.
  assert (R : reachable (-2) (-3) (outcome (-2) (-3) tls_pending_run))
    by (exists tls_pending_run; vm_compute; reflexivity).
  apply (proj2 (H _ R)); [split; [reflexivity|left; reflexivity]|reflexivity].
Qed.

(** The session pointer survives [set_closed]: the next close hands the
    freed session to [tls_free] again. *)
Example tls_session_freed_twice :
  run (-2) (-3) (tls_reconnect_run (-2)) world0
    = Some (outcome (-2) (-3) (tls_reconnect_run (-2)))
  /\ frees 5 (trace (outcome (-2) (-3) (tls_reconnect_run (-2)))) = 2%nat
  /\ tls (client (outcome (-2) (-3) (tls_reconnect_run (-2)))) = Some 5
  /\ live_tls (outcome (-2) (-3) (tls_reconnect_run (-2))) = [].
Proof. vm_compute. repeat split. Qed.

(** The other way C1 fails: when the handshake step made inside
    [connect_tcp_cb] already reports success, [tls_state] is 0, the
    readiness handler never steps again and the client stays in
    Connecting. *)
Example immediate_handshake_success_stays_connecting (stp : Z) :
  exists w,
    run (-2) (-3) (tls_handshake_run 0 ++ [L_readable stp]) world0 = Some w
    /\ state (client w) = network_client_connecting
    /\ callbacks cb_connect (trace w) = 0%nat.
Proof.
  eexists. split; [vm_compute; reflexivity|].
  split; vm_compute; reflexivity.
Qed.

Lemma cursor_valid_without_clear_witness :
  forallb keeps_block (tls_handshake_run (-2)) = true
  /\ run (-2) (-3) (tls_handshake_run (-2)) world0
     = Some (outcome (-2) (-3) (tls_handshake_run (-2)))
  /\ cursor_ok (client (outcome (-2) (-3) (tls_handshake_run (-2)))).
Proof.
  assert (E : run (-2) (-3) (tls_handshake_run (-2)) world0
              = Some (outcome (-2) (-3) (tls_handshake_run (-2))))
    by (vm_compute; reflexivity).
  split; [reflexivity|]. split; [exact E|].
  refine (proj1 (proj2 (cursor_valid_without_clear
                          (-2) (-3) (tls_handshake_run (-2)) _ eq_refl E) _)).
  vm_compute. discriminate.
Defined.

(** ** Instances of the further properties *)

Lemma str_to_proto_ignores_case_witness :
  lowercase "TLS" = lowercase "tls"
  /\ str_to_proto "TLS" = str_to_proto "tls".
Proof.
  split; [reflexivity|].
  exact (str_to_proto_ignores_case "TLS" "tls" eq_refl).
Defined.

Lemma str_to_proto_default_tcp_witness :
  has_char NUL "Http" = false
  /\ lowercase "Http" <> "udp"%string /\ lowercase "Http" <> "tls"%string
  /\ str_to_proto "Http" = network_client_proto_tcp.
Proof.
  assert (H1 : lowercase "Http" <> "udp"%string) by discriminate.
  assert (H2 : lowercase "Http" <> "tls"%string) by discriminate.
  split; [reflexivity|]. split; [exact H1|]. split; [exact H2|].
  exact (proj2 (proj2 (str_to_proto_default_tcp "Http" eq_refl)) H1 H2).
Defined.

Lemma add_server_service_appends_witness :
  svc_wf server_a
  /\ add_server_service server_a "5353" []
     = Some (0, mk_server (Some "udp://a:53"%string) network_client_proto_udp
                          (Some "a"%string) (Some ["53"%string; "5353"%string]) 2,
             []).
Proof.
  assert (H : svc_wf server_a) by (split; cbn; lia).
  split; [exact H|].
  exact (proj1 (add_server_service_appends server_a "5353" [] H)).
Defined.

Lemma parse_server_round_trip_witness :
  has_char ":"%char "UDP" = false /\ has_char ":"%char "10.0.0.5" = false
  /\ parse_server server_zero "UDP://10.0.0.5:53,5353" []
     = Some (0, mk_server (Some "UDP://10.0.0.5:53,5353"%string)
                          network_client_proto_udp (Some "10.0.0.5"%string)
                          (Some ["53"%string; "5353"%string]) 2, []).
Proof.
  split; [reflexivity|]. split; [reflexivity|].
  exact (parse_server_round_trip "UDP" "10.0.0.5" "53,5353" eq_refl eq_refl).
Defined.

Lemma parse_server_default_tcp_witness :
  has_char ":"%char "192.168.1.1" = false /\ has_char "/"%char "8080" = false
  /\ parse_server server_zero "192.168.1.1:8080" []
     = Some (0, mk_server (Some "192.168.1.1:8080"%string)
                          network_client_proto_tcp (Some "192.168.1.1"%string)
                          (Some ["8080"%string]) 1, []).
Proof.
  split; [reflexivity|]. split; [reflexivity|].
  exact (parse_server_default_tcp "192.168.1.1" "8080" eq_refl eq_refl).
Defined.

Lemma parse_server_needs_service_witness :
  has_char ":"%char "tls" = false /\ has_char ":"%char "c2.example.com" = false
  /\ has_char "/"%char "c2.example.com" = false
  /\ parse_server server_zero "tls://c2.example.com" []
     = Some (-1, server_zero, [])
  /\ parse_server server_zero "c2.example.com" [] = Some (-1, server_zero, []).
Proof.
  split; [reflexivity|]. split; [reflexivity|]. split; [reflexivity|].
  destruct (parse_server_needs_service "tls" "c2.example.com" eq_refl eq_refl)
    as [H1 H2].
  split; [exact H1|exact (H2 eq_refl)].
Defined.

Lemma parse_server_cleanup_reads_null_witness :
  split_uri "a:1,2" = ("tcp"%string, "a"%string, Some "1,2"%string)
  /\ strsep_all "1,2" = ["1"%string; "2"%string]
  /\ parse_server server_zero "a:1,2"
       [true; true; true; true; true; true; true; false]
     = None.
Proof.
  split; [reflexivity|]. split; [reflexivity|].
  exact (parse_server_cleanup_reads_null "a:1,2" "tcp" "a" "1,2" "1" "2" [] []
           eq_refl eq_refl).
Defined.

Lemma block_ok_new : block_ok network_client_new.
Proof. split; [cbn; lia|constructor]. Defined.

Lemma block_ok_two_servers cur : block_ok (two_servers cur).
Proof. split; [cbn; lia|constructor]. Defined.

Lemma server_ok_a : server_ok server_a.
Proof. split; [cbn; lia|]. eexists. split; [reflexivity|reflexivity]. Defined.

Lemma server_ok_b : server_ok server_b.
Proof. split; [cbn; lia|]. eexists. split; [reflexivity|reflexivity]. Defined.

Lemma registry_ok_two_servers cur : Forall server_ok (registry (two_servers cur)).
Proof.
  cbn. constructor; [exact server_ok_a|].
  constructor; [exact server_ok_b|constructor].
Defined.

Lemma clean_add_a_b :
  Forall clean_add [("udp://a:53"%string, server_zero);
                    ("tcp://b:80"%string, used_slot)].
Proof. repeat constructor; discriminate. Defined.

Lemma add_servers_keep_order_witness :
  block_ok network_client_new
  /\ Forall clean_add [("udp://a:53"%string, server_zero);
                       ("tcp://b:80"%string, used_slot)]
  /\ exists nc',
       add_all [("udp://a:53"%string, server_zero);
                ("tcp://b:80"%string, used_slot)] network_client_new
         = Some nc'
       /\ registry nc' = [server_a; server_b]
       /\ num_servers nc' = 2
       /\ cursor nc' = (0, 0) /\ state nc' = network_client_closed.
Proof.
  split; [exact block_ok_new|]. split; [exact clean_add_a_b|].
  exact (add_servers_keep_order _ network_client_new block_ok_new clean_add_a_b).
Defined.


Lemma add_server_without_service_witness :
  block_ok (two_servers 0) /\ snd (split_uri "tls://host") = None
  /\ services used_slot = None /\ num_services used_slot <= 0
  /\ exists nc',
       network_client_add_server (two_servers 0) "tls://host" [] used_slot
         = Some (-1, nc', [])
       /\ num_servers nc' = 2
       /\ registry nc' = [server_a; server_b].
Proof.
  assert (Hn : num_services used_slot <= 0) by (cbn; lia).
  split; [exact (block_ok_two_servers 0)|]. split; [reflexivity|].
  split; [reflexivity|]. split; [exact Hn|].
  exact (add_server_without_service (two_servers 0) "tls://host" used_slot
           (block_ok_two_servers 0) eq_refl eq_refl Hn).
Defined.

Lemma add_server_junk_count_undefined_witness :
  let junk := mk_server None network_client_proto_udp None None 1 in
  0 <= num_servers (two_servers 0)
  /\ (List.length (block (two_servers 0))
      <= Z.to_nat (num_servers (two_servers 0)))%nat
  /\ snd (split_uri "tls://host") = None
  /\ services junk = None /\ 0 < num_services junk
  /\ network_client_add_server (two_servers 0) "tls://host" [] junk = None.
Proof.
  intros junk.
  assert (H0 : 0 <= num_servers (two_servers 0)) by (cbn; lia).
  assert (H1 : (List.length (block (two_servers 0))
                <= Z.to_nat (num_servers (two_servers 0)))%nat) by (cbn; lia).
  assert (H2 : 0 < num_services junk) by (cbn; lia).
  split; [exact H0|]. split; [exact H1|]. split; [reflexivity|].
  split; [reflexivity|]. split; [exact H2|].
  exact (add_server_junk_count_undefined (two_servers 0) "tls://host" junk
           H0 H1 eq_refl eq_refl H2).
Defined.


Lemma remove_servers_clears_witness :
  block_ok (two_servers 1) /\ Forall server_ok (registry (two_servers 1))
  /\ exists nc',
       network_client_remove_servers (two_servers 1) = Some (0, nc')
       /\ servers nc' = None /\ num_servers nc' = 0 /\ registry nc' = []
       /\ cursor nc' = (1, 0) /\ state nc' = network_client_closed
       /\ network_client_remove_servers nc' = Some (0, nc').
Proof.
  split; [exact (block_ok_two_servers 1)|].
  split; [exact (registry_ok_two_servers 1)|].
  exact (remove_servers_clears (two_servers 1) (block_ok_two_servers 1)
           (registry_ok_two_servers 1)).
Defined.

Lemma clean_add_c : Forall clean_add [("c:3"%string, used_slot)].
Proof. repeat constructor; discriminate. Defined.

Lemma clear_then_add_servers_witness :
  block_ok (two_servers 1) /\ Forall server_ok (registry (two_servers 1))
  /\ Forall clean_add [("c:3"%string, used_slot)]
  /\ exists nc1 nc2,
       network_client_remove_servers (two_servers 1) = Some (0, nc1)
       /\ add_all [("c:3"%string, used_slot)] nc1 = Some nc2
       /\ registry nc2
          = [mk_server (Some "c:3"%string) network_client_proto_tcp
                       (Some "c"%string) (Some ["3"%string]) 1]
       /\ num_servers nc2 = 1
       /\ cursor nc2 = (1, 0).
Proof.
  split; [exact (block_ok_two_servers 1)|].
  split; [exact (registry_ok_two_servers 1)|].
  split; [exact clean_add_c|].
  exact (clear_then_add_servers _ (two_servers 1)
           (block_ok_two_servers 1) (registry_ok_two_servers 1) clean_add_c).
Defined.

Lemma timer_after_lost_block_undefined_witness :
  state (two_servers 0) = network_client_closed
  /\ num_servers (two_servers 0) <> 0
  /\ exists nc',
       network_client_add_server (two_servers 0) "c:3" [false] server_zero
         = Some (-1, nc', [])
       /\ reconnect_cb 0 nc' = None.
Proof.
  assert (Hn : num_servers (two_servers 0) <> 0) by (cbn; lia).
  split; [reflexivity|]. split; [exact Hn|].
  exact (timer_after_lost_block_undefined (two_servers 0) "c:3" [] server_zero 0
           eq_refl Hn).
Defined.

Lemma selection_ok_two_servers : selection_ok (two_servers 1).
Proof.
  split; [exact (block_ok_two_servers 1)|].
  split; [exact (registry_ok_two_servers 1)|].
  split; [cbn; lia|]. intros _.
  exists server_b. split; [reflexivity|cbn; lia].
Defined.

Lemma reconnect_cb_starts_attempt_witness :
  selection_ok (two_servers 1) /\ 1 <= num_servers (two_servers 1)
  /\ state (two_servers 1) = network_client_closed
  /\ exists nc0 s svc,
       advance (two_servers 1) = Some nc0
       /\ load_server nc0 (get_curr_server nc0) = Some s
       /\ get_curr_service nc0 = Some (Some svc)
       /\ reconnect_cb 0 (two_servers 1)
          = Some (set_state network_client_resolving nc0,
                  [Ev_uv_getaddrinfo (host s) (Some svc)
                     (proto_eqb (proto s) network_client_proto_udp) 0]).
Proof.
  assert (Hn : 1 <= num_servers (two_servers 1)) by (cbn; lia).
  split; [exact selection_ok_two_servers|]. split; [exact Hn|].
  split; [reflexivity|].
  exact (reconnect_cb_starts_attempt (two_servers 1) 0
           selection_ok_two_servers Hn eq_refl).
Defined.

Lemma set_closed_twice_frees_twice_witness :
  tls (set_tls (Some 5) three_endpoints) = Some 5
  /\ frees 5 (snd (set_closed (set_tls (Some 5) three_endpoints))
              ++ snd (set_closed (fst (set_closed (set_tls (Some 5) three_endpoints)))))
     = 2%nat.
Proof.
  split; [reflexivity|].
  exact (set_closed_twice_frees_twice (set_tls (Some 5) three_endpoints) 5 eq_refl).
Defined.

Lemma close_completes_witness :
  let ls := (tls_handshake_run (-2) ++ [L_readable 0])%list in
  let w := outcome (-2) (-3) ls in
  -2 <> 0 /\ -3 <> 0
  /\ run (-2) (-3) ls world0 = Some w
  /\ state (client w) = network_client_connected /\ closing w = false
  /\ conn_data w = true
  /\ exists w1,
       step (-2) (-3) L_close w = Some w1
       /\ state (client w1) = network_client_connected
       /\ exists w2,
            step (-2) (-3) L_closed w1 = Some w2
            /\ state (client w2) = network_client_closed
            /\ requests w2 = [] /\ live_tls w2 = []
            /\ callbacks cb_close (trace w2)
               = (callbacks cb_close (trace w)
                  + match close_cb (client w) with
                    | Some _ => 1
                    | None => 0
                    end)%nat.
Proof.
  intros ls w.
  assert (H2 : -2 <> 0) by lia. assert (H3 : -3 <> 0) by lia.
  assert (E : run (-2) (-3) ls world0 = Some w) by (vm_compute; reflexivity).
  assert (Hs : state (client w) = network_client_connected)
    by (vm_compute; reflexivity).
  assert (Hc : closing w = false) by (vm_compute; reflexivity).
  assert (Hd : conn_data w = true) by (vm_compute; reflexivity).
  split; [exact H2|]. split; [exact H3|].
  split; [exact E|]. split; [exact Hs|]. split; [exact Hc|]. split; [exact Hd|].
  destruct (proj2 (proj2 (close_completes (-2) (-3) ls w H2 H3 E) Hs Hc))
    as [w1 [Hw1 [Hs1 [_ Hdone]]]].
  exists w1. split; [exact Hw1|]. split; [exact Hs1|]. exact (Hdone Hd).
Defined.

Lemma on_poll_steps_only_pending_handshake_witness :
  let nc := set_state network_client_connected
              (client (outcome (-2) (-3) (tls_handshake_run (-2)))) in
  (state nc <> network_client_connecting \/ ~ wants_step (-2) (-3) nc)
  /\ on_poll (-2) (-3) 0 nc = (nc, []).
Proof.
  intros nc.
  assert (H : state nc <> network_client_connecting \/ ~ wants_step (-2) (-3) nc)
    by (left; discriminate).
  split; [exact H|].
  exact (proj1 (on_poll_steps_only_pending_handshake (-2) (-3) 0 nc) H).
Defined.

Lemma has_target_three_endpoints : has_target three_endpoints.
Proof. eexists _, _. split; reflexivity. Defined.

Lemma connect_failure_closes_witness :
  has_target three_endpoints /\ -111 <> 0
  /\ exists nc' ev,
       connect_tcp_cb (-111) None None 0 three_endpoints = Some (nc', ev)
       /\ state nc' = network_client_closed
       /\ tls nc' = tls three_endpoints
       /\ allocates_none ev = true
       /\ callbacks cb_connect ev = 0%nat
       /\ callbacks cb_close ev = 1%nat.
Proof.
  assert (Hne : -111 <> 0) by lia.
  split; [exact has_target_three_endpoints|]. split; [exact Hne|].
  exact (connect_failure_closes three_endpoints (-111) None None 0
           has_target_three_endpoints Hne).
Defined.

Lemma tls_setup_outcomes_witness :
  let nc := set_curr_service 0 (set_curr_server 1 three_endpoints) in
  current_proto nc = Some network_client_proto_tls
  /\ network_client_proto_tls <> network_client_proto_tcp
  /\ connect_tcp_cb 0 (Some 5) None (-2) nc
     = Some (set_tls (Some 5) nc, [Ev_tls_client (Some 5)])
  /\ connect_tcp_cb 0 (Some 5) (Some 3) (-2) nc
     = Some (set_tls_state (-2) (set_tls (Some 5) nc),
             [Ev_tls_client (Some 5); Ev_tls_connect_socket (Some 5) (-2);
              Ev_uv_poll_start 3]).
Proof.
  intros nc.
  assert (Hne : network_client_proto_tls <> network_client_proto_tcp)
    by discriminate.
  split; [reflexivity|]. split; [exact Hne|].
  destruct (tls_setup_outcomes nc network_client_proto_tls (-2) eq_refl Hne)
    as [_ [H2 H3]].
  split; [exact (H2 5)|exact (H3 5 3)].
Defined.

Lemma no_request_no_progress_witness :
  let w := outcome (-2) (-3)
             [L_add_server "tcp://b:80" [] server_zero; L_start 0 0;
              L_timer (-12)] in
  let ls := [L_timer 0; L_close; L_add_server "udp://a:53" [] used_slot;
             L_timer 0] in
  (state (client w) = network_client_resolving
   \/ state (client w) = network_client_connecting)
  /\ inflight w = [] /\ closing w = false
  /\ run (-2) (-3) ls w = Some (continue (-2) (-3) ls w)
  /\ state (client (continue (-2) (-3) ls w)) = network_client_resolving.
Proof.
  intros w ls.
  assert (Hs : state (client w) = network_client_resolving
               \/ state (client w) = network_client_connecting)
    by (left; vm_compute; reflexivity).
  assert (Hf : inflight w = []) by (vm_compute; reflexivity).
  assert (Hc : closing w = false) by (vm_compute; reflexivity).
  assert (E : run (-2) (-3) ls w = Some (continue (-2) (-3) ls w))
    by (vm_compute; reflexivity).
  split; [exact Hs|]. split; [exact Hf|]. split; [exact Hc|]. split; [exact E|].
  exact (no_request_no_progress (-2) (-3) ls w _ Hs Hf Hc E).
Defined.

Lemma fatal_handshake_strands_witness :
  let w := outcome (-2) (-3) (tls_handshake_run (-3) ++ [L_readable (-1)]) in
  let ls := [L_timer 0; L_readable 0; L_close; L_stop] in
  -2 <> -1 /\ -3 <> -1 /\ stranded w
  /\ run (-2) (-3) ls w = Some (continue (-2) (-3) ls w)
  /\ stranded (continue (-2) (-3) ls w).
Proof.
  intros w ls.
  assert (H2 : -2 <> -1) by lia. assert (H3 : -3 <> -1) by lia.
  assert (Hs : stranded w) by (vm_compute; repeat split).
  assert (E : run (-2) (-3) ls w = Some (continue (-2) (-3) ls w))
    by (vm_compute; reflexivity).
  split; [exact H2|]. split; [exact H3|]. split; [exact Hs|]. split; [exact E|].
  exact (fatal_handshake_strands (-2) (-3) ls H2 H3 w _ Hs E).
Defined.

Lemma failed_attempt_callbacks_witness :
  let nc1 := set_state network_client_resolving
               (set_curr_service 0 (set_curr_server 1 three_endpoints)) in
  let ev1 := [Ev_uv_getaddrinfo (Some "c2.example.com"%string)
                                (Some "443"%string) false 0] in
  state three_endpoints = network_client_closed
  /\ reconnect_cb 0 three_endpoints = Some (nc1, ev1)
  /\ state nc1 = network_client_resolving /\ -2 < 0
  /\ exists nc' ev,
       resolving_cb (-2) 0 0 nc1 = Some (nc', ev)
       /\ state nc' = network_client_closed
       /\ callbacks cb_connect (ev1 ++ ev) = 0%nat
       /\ callbacks cb_close (ev1 ++ ev) = 1%nat.
Proof.
  intros nc1 ev1.
  assert (E : reconnect_cb 0 three_endpoints = Some (nc1, ev1)) by reflexivity.
  assert (Hlt : -2 < 0) by lia.
  split; [reflexivity|]. split; [exact E|]. split; [reflexivity|].
  split; [exact Hlt|].
  exact (failed_attempt_callbacks three_endpoints nc1 ev1 0 (-2) 0 0
           eq_refl E eq_refl Hlt).
Defined.

Lemma callbacks_arrive_in_expected_state_witness :
  let w := outcome (-2) (-3) tls_pending_run in
  -2 <> 0 /\ -3 <> 0
  /\ run (-2) (-3) tls_pending_run world0 = Some w
  /\ pending op_connect w = true
  /\ state (client w) = network_client_connecting /\ live_tls w = [].
Proof.
  intros w.
  assert (H2 : -2 <> 0) by lia. assert (H3 : -3 <> 0) by lia.
  assert (E : run (-2) (-3) tls_pending_run world0 = Some w)
    by (vm_compute; reflexivity).
  assert (Hp : pending op_connect w = true) by (vm_compute; reflexivity).
  split; [exact H2|]. split; [exact H3|]. split; [exact E|]. split; [exact Hp|].
  exact (proj1 (proj2 (callbacks_arrive_in_expected_state
                         (-2) (-3) _ w H2 H3 E)) Hp).
Defined.

Lemma resolution_success_stream_witness :
  let nc := set_state network_client_resolving (two_servers 1) in
  load_server nc (get_curr_server nc) = Some server_b
  /\ proto server_b <> network_client_proto_udp /\ 0 <= 0
  /\ resolving_cb 0 7 0 nc
     = Some (set_state network_client_connecting (set_addrinfo (Some 7) nc),
             [Ev_uv_tcp_connect 7 0])
  /\ exists nc' ev,
       resolving_cb 0 7 (-24) nc = Some (nc', ev)
       /\ state nc' = network_client_closed /\ addrinfo nc' = None
       /\ In (Ev_uv_freeaddrinfo 7) ev
       /\ callbacks cb_connect ev = 0%nat
       /\ callbacks cb_close ev = 0%nat.
Proof.
  intros nc.
  assert (Hp : proto server_b <> network_client_proto_udp) by discriminate.
  assert (H0 : 0 <= 0) by lia. assert (Hrc : -24 <> 0) by lia.
  split; [reflexivity|]. split; [exact Hp|]. split; [exact H0|].
  destruct (resolution_success_stream nc server_b 0 7 eq_refl Hp H0) as [H1 H2].
  split; [exact H1|exact (H2 (-24) Hrc)].
Defined.
